(** * picosdk.library: a shallow embedding of the [Library] adapter

  The development follows [picosdk/library.py].  Python floats are IEEE
  binary64 values and are modelled by Rocq's primitive floats, whose
  behaviour is specified through [Prim2SF] and the [SpecFloat] operations.
  Python integers are [Z].  Calls into the native driver are modelled by an
  oracle that sees the whole history of native calls; every native call is
  appended to that history, so "no native call was made" is a statement
  about the history. *)

From stdpp Require Import base list gmap strings.
From Stdlib Require Import ZArith Floats Lia Bool Ascii.
From Stdlib Require DecimalString.

Local Open Scope Z_scope.

(** ** Python floats *)

Module PyFloat.

(** The order of binary64 values, read off [SFcompare]: every value that is
    not a NaN is sent to a triple of integers compared lexicographically. *)
Definition sf_key (x : spec_float) : Z * Z * Z :=
  match x with
  | S754_nan => (0, 0, 0)
  | S754_zero _ => (0, 0, 0)
  | S754_infinity s => (if s then -2 else 2, 0, 0)
  | S754_finite s m e => if s then (-1, - e, - Zpos m) else (1, e, Zpos m)
  end.

Definition sf_is_nan (x : spec_float) : bool :=
  match x with S754_nan => true | _ => false end.

Definition lex_lt (a b : Z * Z * Z) : Prop :=
  let '(a1, a2, a3) := a in
  let '(b1, b2, b3) := b in
  a1 < b1 \/ (a1 = b1 /\ (a2 < b2 \/ (a2 = b2 /\ a3 < b3))).

Definition lex_le (a b : Z * Z * Z) : Prop :=
  let '(a1, a2, a3) := a in
  let '(b1, b2, b3) := b in
  a1 < b1 \/ (a1 = b1 /\ (a2 < b2 \/ (a2 = b2 /\ a3 <= b3))).

Definition is_nan (x : float) : bool := sf_is_nan (Prim2SF x).
Definition key (x : float) : Z * Z * Z := sf_key (Prim2SF x).

(** Python's [a < b], [a <= b], [a > b] and [a >= b] on floats. *)
Definition lt (a b : float) : bool := PrimFloat.ltb a b.
Definition le (a b : float) : bool := PrimFloat.leb a b.
Definition gt (a b : float) : bool := PrimFloat.ltb b a.
Definition ge (a b : float) : bool := PrimFloat.leb b a.

(** [int(x)] on a float: truncation towards zero; [None] stands for the
    OverflowError (infinities) and ValueError (NaN) Python raises. *)
Definition sf_trunc (x : spec_float) : option Z :=
  match x with
  | S754_nan => None
  | S754_infinity _ => None
  | S754_zero _ => Some 0
  | S754_finite s m e =>
      let a := if 0 <=? e then Zpos m * 2 ^ e else Zpos m / 2 ^ (- e) in
      Some (if s then - a else a)
  end.

Definition trunc (x : float) : option Z := sf_trunc (Prim2SF x).

(** [float(n)] for an integer that fits a signed 63-bit word. *)
Definition of_Z (n : Z) : float :=
  if n <? 0 then PrimFloat.opp (PrimFloat.of_uint63 (Uint63.of_Z (- n)))
  else PrimFloat.of_uint63 (Uint63.of_Z n).

End PyFloat.

(** ** ctypes values and the native driver *)

Inductive ctype :=
  | c_int16 | c_uint16 | c_int32 | c_uint32 | c_float | c_double | c_void_p | c_char_p.

#[global] Instance ctype_eq_dec : EqDecision ctype.
Proof. solve_decision. Defined.

(** The Python values the wrappers put into the argument tuple of a native
    call.  [PyCObj ty x init] is the ctypes scalar [ty(init)] held by the
    local variable [x]; [PyAddr x] is the address of the buffer [x]. *)
Inductive pyval :=
  | PyNone
  | PyBool (b : bool)
  | PyInt (n : Z)
  | PyFloat (x : float)
  | PyBytes (s : string)
  | PyAddr (buffer : string)
  | PyCObj (ty : ctype) (var : string) (init : Z).

(** What reaches the native function: [None], [byref(obj)], a character
    buffer, or [argtype(arg)], kept as the pair of the ctypes constructor and
    its argument. *)
Inductive carg :=
  | CNone
  | CByRef (ty : ctype) (var : string)
  | CBuffer (var : string)
  | CConv (argtype : ctype) (arg : pyval).

(** The native entry points [make_symbol] may bind on a [Library]. *)
Inductive native :=
  | _open_unit | _close_unit | _get_unit_info | _set_channel | _set_digital_port
  | _memory_segments | _get_timebase | _get_timebase2 | _set_trigger
  | _set_simple_trigger | _run_block | _ready | _is_ready | _maximum_value
  | _get_values | _set_data_buffer | _stop.

#[global] Instance native_eq_dec : EqDecision native.
Proof. solve_decision. Defined.

(** What a native function hands back: its return value and what it wrote
    through the pointers it was given, by the name of the variable. *)
Inductive cval :=
  | VInt (n : Z)
  | VFloat (x : float)
  | VBytes (s : string)
  | VSamples (l : list Z).

Record response := {
  ret : Z;
  outs : list (string * cval)
}.

Record event := {
  ev_sym : native;
  ev_args : list carg;
  ev_resp : response
}.

Definition history := list event.

(** The driver is a black box: its answer may depend on every call made so
    far. *)
Definition native_driver := history -> native -> list carg -> response.

(** ** Exceptions and the wrapper monad *)

(** A formatted message, kept as its fragments: literal text and [%s] of a
    string, an integer or a float. *)
Inductive frag :=
  | Text (s : string)
  | Str (s : string)
  | Num (n : Z)
  | Flt (x : float).

Definition message := list frag.

Inductive exn :=
  | TypeError (m : message)
  | KeyError (m : message)
  | ValueError (m : message)
  | AttributeError (m : message)
  | IndexError (m : message)
  | NotImplementedError (m : message)
  | PicoError (m : message)
  | DeviceNotFoundError (m : message)
  | ArgumentOutOfRangeError (m : message)
  | ValidRangeEnumValueNotValidForThisDevice (m : message)
  | DeviceCannotSegmentMemoryError (m : message)
  | InvalidMemorySegmentsError (m : message)
  | InvalidTimebaseError (m : message)
  | InvalidTriggerParameters (m : message)
  | InvalidCaptureParameters (m : message)
  | UnknownConstantError (m : message).

Inductive result (A : Type) :=
  | Ok (a : A)
  | Raise (e : exn).
Arguments Ok {A} a.
Arguments Raise {A} e.

(** A wrapper runs against a driver, from the history of native calls made
    so far, and yields its result with the extended history. *)
Definition M (A : Type) := native_driver -> history -> result A * history.

Definition ret_ {A} (a : A) : M A := fun _ h => (Ok a, h).
Definition raise {A} (e : exn) : M A := fun _ h => (Raise e, h).
Definition bind {A B} (m : M A) (k : A -> M B) : M B :=
  fun drv h =>
    match m drv h with
    | (Ok a, h') => k a drv h'
    | (Raise e, h') => (Raise e, h')
    end.

(** [try: m except E: handler] for the exceptions selected by [catches]. *)
Definition try_except {A} (m : M A) (catches : exn -> bool) (handler : M A) : M A :=
  fun drv h =>
    match m drv h with
    | (Raise e, h') => if catches e then handler drv h' else (Raise e, h')
    | r => r
    end.

(** A computation that makes no native call: it returns or raises. *)
Definition lift {A} (r : result A) : M A := fun _ h => (r, h).

(** One call of a bound native function. *)
Definition call (f : native) (args : list carg) : M response :=
  fun drv h =>
    let r := drv h f args in
    (Ok r, h ++ [{| ev_sym := f; ev_args := args; ev_resp := r |}]).

Declare Scope py_scope.
Delimit Scope py_scope with py.
Notation "x <- m ;; k" := (bind m (fun x => k))
  (at level 100, m at next level, right associativity) : py_scope.
Notation "m ;;; k" := (bind m (fun _ => k))
  (at level 100, right associativity) : py_scope.
Local Open Scope py_scope.

(** The value a ctypes object holds after a call: what the driver wrote if
    the object was passed by reference, its initial value otherwise. *)
Definition passed_by_ref (var : string) (args : list carg) : bool :=
  existsb (fun a => match a with
                    | CByRef _ v => String.eqb v var
                    | CBuffer v => String.eqb v var
                    | _ => false
                    end) args.

Fixpoint assoc {A} (k : string) (l : list (string * A)) : option A :=
  match l with
  | [] => None
  | (k', v) :: l' => if String.eqb k k' then Some v else assoc k l'
  end.

Definition wrap (bits : Z) (n : Z) : Z :=
  let m := n mod 2 ^ bits in
  if m <? 2 ^ (bits - 1) then m else m - 2 ^ bits.

Definition int_value (bits : Z) (var : string) (init : Z) (args : list carg) (r : response) : Z :=
  if passed_by_ref var args then
    match assoc var (outs r) with
    | Some (VInt n) => wrap bits n
    | _ => init
    end
  else init.

Definition float_value (var : string) (init : float) (args : list carg) (r : response) : float :=
  if passed_by_ref var args then
    match assoc var (outs r) with
    | Some (VFloat x) => x
    | _ => init
    end
  else init.

Definition bytes_value (var : string) (args : list carg) (r : response) : string :=
  if passed_by_ref var args then
    match assoc var (outs r) with
    | Some (VBytes s) => s
    | _ => EmptyString
    end
  else EmptyString.

(** ** The [Library] object *)

(** [picosdk.device.Device]: the owning driver (by object identity) and the
    native handle. *)
Record Device := {
  driver : positive;
  handle : Z
}.

(** What a caller may pass where a device is expected. *)
Inductive pyobj :=
  | Obj_Device (d : Device)
  | Obj_other (v : pyval).

(** The attributes of a [Library] instance the wrappers read.  [ident] is the
    identity of the object; [tables] holds the per-model dictionaries found by
    name with [getattr]; [argtypes f] is [None] when [f] is not bound.
    [pico_tag] is [picosdk.constants.pico_tag], which is not part of the
    sources at hand and is taken as a parameter: from a status word it
    returns the name of the status or raises. *)
Record Library := {
  ident : positive;
  name : string;
  PICO_INFO : gmap string Z;
  PICO_STATUS : gmap string Z;
  PICO_CHANNEL : gmap (string + Z) Z;
  PICO_COUPLING : gmap string Z;
  PICO_VOLTAGE_RANGE : list (Z * float);
  PICO_RATIO_MODE : gmap string Z;
  PICO_THRESHOLD_DIRECTION : gmap string Z;
  DEFAULT_RESOLUTION : option Z;
  tables : gmap string (list (string * Z));
  argtypes : native -> option (list ctype);
  restype : native -> ctype;
  pico_tag : Z -> result string
}.

Definition native_name (f : native) : string :=
  match f with
  | _open_unit => "_open_unit" | _close_unit => "_close_unit"
  | _get_unit_info => "_get_unit_info" | _set_channel => "_set_channel"
  | _set_digital_port => "_set_digital_port" | _memory_segments => "_memory_segments"
  | _get_timebase => "_get_timebase" | _get_timebase2 => "_get_timebase2"
  | _set_trigger => "_set_trigger" | _set_simple_trigger => "_set_simple_trigger"
  | _run_block => "_run_block" | _ready => "_ready" | _is_ready => "_is_ready"
  | _maximum_value => "_maximum_value" | _get_values => "_get_values"
  | _set_data_buffer => "_set_data_buffer" | _stop => "_stop"
  end.

(** [self.f.argtypes]: AttributeError when [f] was never bound. *)
Definition argtypes_of (self : Library) (f : native) : M (list ctype) :=
  match argtypes self f with
  | Some tys => ret_ tys
  | None => raise (AttributeError [Str (native_name f)])
  end.

(** [hasattr(self, f)] *)
Definition hasattr (self : Library) (f : native) : bool :=
  match argtypes self f with Some _ => true | None => false end.

(** [d[k]] on a dictionary with string keys. *)
Definition getitem (d : gmap string Z) (k : string) : M Z :=
  match d !! k with
  | Some v => ret_ v
  | None => raise (KeyError [Str k])
  end.

(** [self.PICO_CHANNEL[channel]] *)
Definition channel_item (d : gmap (string + Z) Z) (k : string + Z) : M Z :=
  match d !! k with
  | Some v => ret_ v
  | None => raise (KeyError [match k with inl s => Str s | inr n => Num n end])
  end.

(** [self.PICO_VOLTAGE_RANGE[range_id]] *)
Fixpoint range_lookup (range_id : Z) (t : list (Z * float)) : option float :=
  match t with
  | [] => None
  | (k, v) :: t' => if k =? range_id then Some v else range_lookup range_id t'
  end.

Definition range_item (self : Library) (range_id : Z) : M float :=
  match range_lookup range_id (PICO_VOLTAGE_RANGE self) with
  | Some v => ret_ v
  | None => raise (KeyError [Num range_id])
  end.

(** [tys[1] == ty], for a list known to be long enough. *)
Definition second_is (tys : list ctype) (ty : ctype) : bool :=
  match tys with
  | _ :: t :: _ => bool_decide (t = ty)
  | _ => false
  end.

(** *** [_convert_args] *)

Definition is_byref_type (ty : ctype) : bool :=
  match ty with
  | c_int16 | c_int32 | c_uint32 | c_float | c_double => true
  | _ => false
  end.

(** Whether the constructor [argtype] takes [arg]: every scalar type takes
    a Python integer (a [bool] and an address are integers; an integer too
    large for a C double is outside the model), only the floating types take
    a float, only [c_char_p] takes a byte string, and none takes a ctypes
    object. *)
Definition accepts (argtype : ctype) (arg : pyval) : bool :=
  match arg with
  | PyBool _ | PyInt _ | PyAddr _ => true
  | PyFloat _ => bool_decide (argtype = c_float) || bool_decide (argtype = c_double)
  | PyBytes _ => bool_decide (argtype = c_char_p)
  | PyCObj _ _ _ | PyNone => false
  end.

(** The TypeError of a ctypes constructor; its text is not modelled. *)
Definition wrong_type : exn := TypeError [].

Definition convert_arg (arg : pyval) (argtype : ctype) : result carg :=
  match arg with
  | PyCObj ty var _ =>
      if bool_decide (argtype = c_void_p) && is_byref_type ty
      then Ok (CByRef ty var)
      else Raise wrong_type
  | PyNone => Ok CNone
  | _ => if accepts argtype arg then Ok (CConv argtype arg) else Raise wrong_type
  end.

Fixpoint _convert_args (argtys : list ctype) (args : list pyval) : result (list carg) :=
  match args, argtys with
  | arg :: args', argtype :: argtys' =>
      match convert_arg arg argtype with
      | Ok c =>
          match _convert_args argtys' args' with
          | Ok converted => Ok (c :: converted)
          | Raise e => Raise e
          end
      | Raise e => Raise e
      end
  | _, _ => Ok []
  end.

(** The tuple [_convert_args] hands back, when it hands one back. *)
Definition converted (argtys : list ctype) (args : list pyval) : list carg :=
  match _convert_args argtys args with
  | Ok l => l
  | Raise _ => []
  end.

(** *** [_resolve_range] *)

(** [min(first :: rest, key=key)]: the running minimum is replaced only by an
    item whose key is strictly smaller. *)
Fixpoint py_min_key {A} (key : A -> float) (cur : A) (l : list A) : A :=
  match l with
  | [] => cur
  | item :: l' => py_min_key key (if PyFloat.lt (key item) (key cur) then item else cur) l'
  end.

Definition in_tuple (x : Z) (t : list Z) : bool := existsb (Z.eqb x) t.

Definition possibilities (self : Library) (signal_peak : float) (exclude : list Z)
  : list (Z * float) :=
  List.filter (fun tup => PyFloat.ge (snd tup) signal_peak && negb (in_tuple (fst tup) exclude))
              (PICO_VOLTAGE_RANGE self).

Definition _resolve_range (self : Library) (signal_peak : float) (exclude : list Z)
  : M (Z * float) :=
  match possibilities self signal_peak exclude with
  | [] => raise (ArgumentOutOfRangeError
                   [Str (name self); Text " device doesn't support a range as wide as ";
                    Flt signal_peak; Text "V"])
  | first :: rest => ret_ (py_min_key snd first rest)
  end.

(** *** [requires_device] *)

Definition requires_device {Args A : Type} (error_message : message)
    (method : Library -> Device -> Args -> M A)
    (self : Library) (device : pyobj) (args : Args) : M A :=
  match device with
  | Obj_Device d =>
      if bool_decide (driver d <> ident self)
      then raise (TypeError error_message)
      else method self d args
  | Obj_other _ => raise (TypeError error_message)
  end.

Definition default_message : message :=
  [Text "This method requires a Device instance registered to this Library instance."].

Definition owner_message (method_name : string) : message :=
  [Text (method_name ++
         " requires a picosdk.device.Device instance, passed to the correct owning driver.")].

(** *** [_python_set_channel] *)

Definition out_of_range_message (self : Library) (range_id : Z) : M message :=
  v <- range_item self range_id ;;
  ret_ [Flt v; Text "V is out of range for this device."].

Definition no_offset_message : message :=
  [Text "This device doesn't support analog offset"].

Definition _python_set_channel (self : Library) (handle : Z) (channel_id : Z)
    (enabled : Z) (coupling_id : Z) (range_id : Z) (analog_offset : option float)
  : M unit :=
  tys <- argtypes_of self _set_channel ;;
  if (length tys =? 5)%nat && second_is tys c_int16 then
    match analog_offset with
    | Some _ => raise (ArgumentOutOfRangeError no_offset_message)
    | None =>
        let args := [PyInt handle; PyInt channel_id; PyInt enabled; PyInt coupling_id;
                     PyInt range_id] in
        converted_args <- lift (_convert_args tys args) ;;
        r <- call _set_channel converted_args ;;
        if ret r =? 0 then
          m <- out_of_range_message self range_id ;;
          raise (ValidRangeEnumValueNotValidForThisDevice m)
        else ret_ tt
    end
  else if ((length tys =? 5)%nat && second_is tys c_int32) || (length tys =? 6)%nat then
    ok <- getitem (PICO_STATUS self) "PICO_OK" ;;
    status <-
      (if (length tys =? 6)%nat then
         let analog_offset := match analog_offset with
                              | None => 0%float
                              | Some x => x
                              end in
         let args := [PyInt handle; PyInt channel_id; PyInt enabled; PyInt coupling_id;
                      PyInt range_id; PyFloat analog_offset] in
         converted_args <- lift (_convert_args tys args) ;;
         r <- call _set_channel converted_args ;;
         ret_ (ret r)
       else if (length tys =? 5)%nat && second_is tys c_int32 then
         match analog_offset with
         | Some _ => raise (ArgumentOutOfRangeError no_offset_message)
         | None =>
             let args := [PyInt handle; PyInt channel_id; PyInt enabled; PyInt coupling_id;
                          PyInt range_id] in
             converted_args <- lift (_convert_args tys args) ;;
             r <- call _set_channel converted_args ;;
             ret_ (ret r)
         end
       else ret_ ok) ;;
    ok' <- getitem (PICO_STATUS self) "PICO_OK" ;;
    if negb (status =? ok') then
      bad_range <- getitem (PICO_STATUS self) "PICO_INVALID_VOLTAGE_RANGE" ;;
      if status =? bad_range then
        m <- out_of_range_message self range_id ;;
        raise (ValidRangeEnumValueNotValidForThisDevice m)
      else
        bad_channel <- getitem (PICO_STATUS self) "PICO_INVALID_CHANNEL" ;;
        if (status =? bad_channel) && (enabled =? 0) then
          (* don't throw errors if the user tried to disable a missing channel. *)
          ret_ tt
        else
          tag <- lift (pico_tag self status) ;;
          raise (ArgumentOutOfRangeError [Text "problem configuring channel ("; Str tag; Text ")"])
    else ret_ tt
  else raise (NotImplementedError [Text "not done other driver types yet"]).

(** *** [set_channel] *)

(** The result of a loop run with a bound on its iterations. *)
Inductive fueled (A : Type) :=
  | Done (a : A)
  | OutOfFuel.
Arguments Done {A} a.
Arguments OutOfFuel {A}.

Definition is_ValidRangeEnumValueNotValidForThisDevice (e : exn) : bool :=
  match e with
  | ValidRangeEnumValueNotValidForThisDevice _ => true
  | _ => false
  end.

Record set_channel_args := {
  channel_name : string + Z;
  enabled : bool;
  coupling : string;
  range_peak : float;
  analog_offset : option float
}.

(** The [while not reliably_resolved] loop, from the exclusion tuple built so
    far; [fuel] bounds the number of iterations. *)
Fixpoint set_channel_loop (fuel : nat) (self : Library) (device : Device)
    (a : set_channel_args) (excluded : list Z) : M (fueled (option float)) :=
  match fuel with
  | O => ret_ OutOfFuel
  | S fuel' =>
      resolved <-
        (if enabled a then
           r <- _resolve_range self (range_peak a) excluded ;;
           ret_ (fst r, Some (snd r))
         else ret_ (0, None)) ;;
      let '(range_id, max_voltage) := resolved in
      reliably_resolved <-
        try_except
          (channel_id <- channel_item (PICO_CHANNEL self) (channel_name a) ;;
           coupling_id <- getitem (PICO_COUPLING self) (coupling a) ;;
           _python_set_channel self (handle device) channel_id
                               (if enabled a then 1 else 0) coupling_id range_id
                               (analog_offset a) ;;;
           ret_ true)
          is_ValidRangeEnumValueNotValidForThisDevice
          (ret_ false) ;;
      if reliably_resolved : bool then ret_ (Done max_voltage)
      else set_channel_loop fuel' self device a (excluded ++ [range_id])
  end.

Definition set_channel (fuel : nat) : Library -> pyobj -> set_channel_args -> M (fueled (option float)) :=
  requires_device (owner_message "set_channel")
    (fun self device a => set_channel_loop fuel self device a []).

(** An entry of the range table is a candidate for peak [v] under the
    exclusions [E]. *)
Definition qualifies (v : float) (E : list Z) (tup : Z * float) : Prop :=
  PyFloat.ge (snd tup) v = true /\ ~ In (fst tup) E.

(** *** [voltage_to_logic_level] *)

(** [max(-5, voltage)] keeps its first argument unless the second is strictly
    greater; [min(x, 5)] keeps [x] unless [5] is strictly smaller. *)
Definition py_max (a b : float) : float := if PyFloat.gt b a then b else a.
Definition py_min (a b : float) : float := if PyFloat.lt b a then b else a.

(** [None] would be the exception [int] raises on an infinity or a NaN. *)
Definition voltage_to_logic_level (voltage : float) : option Z :=
  let clamped_voltage := py_min (py_max (-5)%float voltage) 5%float in
  let logic_level := PyFloat.trunc (clamped_voltage * (32767 / 5))%float in
  logic_level.

(** *** [get_timebase] *)

Record TimebaseInfo := {
  timebase_id : Z;
  time_interval : float;
  time_units : option Z;
  max_samples : Z;
  segment_id : option Z
}.

Definition not_done_message : message := [Text "not done other driver types yet"].

Record get_timebase_args := {
  gt_timebase_id : Z;
  gt_no_of_samples : Z;
  gt_oversample : Z;
  gt_segment_index : Z
}.

Definition _python_get_timebase (self : Library) (handle : Z) (a : get_timebase_args)
  : M TimebaseInfo :=
  tys <- argtypes_of self _get_timebase ;;
  if (length tys =? 7)%nat && second_is tys c_int16 then
    let args := [PyInt handle; PyInt (gt_timebase_id a); PyInt (gt_no_of_samples a);
                 PyCObj c_int32 "time_interval" 0; PyCObj c_int16 "time_units" 0;
                 PyInt (gt_oversample a); PyCObj c_int32 "max_samples" 0] in
    converted_args <- lift (_convert_args tys args) ;;
    r <- call _get_timebase converted_args ;;
    if ret r =? 0 then raise (InvalidTimebaseError [])
    else
      ret_ {| timebase_id := gt_timebase_id a;
              time_interval := PyFloat.of_Z (int_value 32 "time_interval" 0 converted_args r);
              time_units := Some (int_value 16 "time_units" 0 converted_args r);
              max_samples := int_value 32 "max_samples" 0 converted_args r;
              segment_id := None |}
  else
    match argtypes self _get_timebase2 with
    | Some tys2 =>
        if (length tys2 =? 7)%nat && second_is tys2 c_uint32 then
          let args := [PyInt handle; PyInt (gt_timebase_id a); PyInt (gt_no_of_samples a);
                       PyCObj c_float "time_interval" 0; PyInt (gt_oversample a);
                       PyCObj c_int32 "max_samples" 0; PyInt (gt_segment_index a)] in
          converted_args <- lift (_convert_args tys2 args) ;;
          r <- call _get_timebase2 converted_args ;;
          ok <- getitem (PICO_STATUS self) "PICO_OK" ;;
          if negb (ret r =? ok) then
            tag <- lift (pico_tag self (ret r)) ;;
            raise (InvalidTimebaseError [Text "get_timebase2 failed ("; Str tag; Text ")"])
          else
            ret_ {| timebase_id := gt_timebase_id a;
                    time_interval := float_value "time_interval" 0%float converted_args r;
                    time_units := None;
                    max_samples := int_value 32 "max_samples" 0 converted_args r;
                    segment_id := Some (gt_segment_index a) |}
        else raise (NotImplementedError not_done_message)
    | None => raise (NotImplementedError not_done_message)
    end.

(** The literal [1.e-9]: the binary64 value nearest to 10^-9. *)
Definition nano : float := 0x1.12e0be826d695p-30%float.

Definition get_timebase : Library -> pyobj -> get_timebase_args -> M TimebaseInfo :=
  requires_device (owner_message "get_timebase")
    (fun self device a =>
       nanoseconds_result <- _python_get_timebase self (handle device) a ;;
       ret_ {| timebase_id := timebase_id nanoseconds_result;
               time_interval := (time_interval nanoseconds_result * nano)%float;
               time_units := time_units nanoseconds_result;
               max_samples := max_samples nanoseconds_result;
               segment_id := segment_id nanoseconds_result |}).

(** *** Opening, closing and querying units *)

(** The message of the DeviceNotFoundError; building it raises when
    [constants.pico_tag] does. *)
Definition not_found_message (self : Library) (status : option Z) : M message :=
  let message := [Text "Driver "; Str (name self); Text " could find no device"; Text "s"] in
  match status with
  | Some st =>
      tag <- lift (pico_tag self st) ;;
      ret_ (message ++ [Text " ("; Str tag; Text ")"])
  | None => ret_ message
  end.

Definition _python_open_any_unit (self : Library) (resolution : option Z)
  : M (Z * option Z) :=
  tys <- argtypes_of self _open_unit ;;
  if (length tys =? 3)%nat then
    resolution <- match resolution with
                  | Some r => ret_ r
                  | None => match DEFAULT_RESOLUTION self with
                            | Some r => ret_ r
                            | None => raise (AttributeError [Text "DEFAULT_RESOLUTION"])
                            end
                  end ;;
    let args := [CByRef c_int16 "chandle"; CNone; CConv c_int32 (PyInt resolution)] in
    r <- call _open_unit args ;;
    ret_ (int_value 16 "chandle" 0 args r, Some (ret r))
  else if (length tys =? 2)%nat then
    let args := [CByRef c_int16 "chandle"; CNone] in
    r <- call _open_unit args ;;
    ret_ (int_value 16 "chandle" 0 args r, Some (ret r))
  else
    r <- call _open_unit [] ;;
    ret_ (ret r, None).

(** [_python_open_unit()] as [list_units] calls it: no serial number, no
    resolution. *)
Definition _python_open_unit (self : Library) : M Z :=
  hs <- _python_open_any_unit self None ;;
  let '(handle, status) := hs in
  if handle <? 1 then
    message <- not_found_message self status ;;
    raise (DeviceNotFoundError message)
  else ret_ handle.

Definition _python_close_unit (self : Library) (handle : Z) : M Z :=
  _ <- argtypes_of self _close_unit ;;
  r <- call _close_unit [CConv c_int16 (PyInt handle)] ;;
  ret_ (ret r).

(** [s[:n]] on a byte string. *)
Fixpoint string_take (n : nat) (s : string) : string :=
  match n, s with
  | S n', String c s' => String c (string_take n' s')
  | _, _ => EmptyString
  end.

Definition py_slice_to (s : string) (n : Z) : string :=
  if 0 <=? n then string_take (Z.to_nat n) s
  else string_take (Z.to_nat (Z.of_nat (String.length s) + n)) s.

Definition _python_get_unit_info (self : Library) (handle : Z) (info_type : Z) : M string :=
  let string_size := 255 in
  tys <- argtypes_of self _get_unit_info ;;
  if (length tys =? 4)%nat then
    let args := [CConv c_int16 (PyInt handle); CBuffer "info";
                 CConv c_int16 (PyInt string_size); CConv c_int16 (PyInt info_type)] in
    r <- call _get_unit_info args ;;
    let info_len := ret r in
    if 0 <? info_len then ret_ (py_slice_to (bytes_value "info" args r) info_len)
    else ret_ EmptyString
  else if (length tys =? 5)%nat then
    let args := [CConv c_int16 (PyInt handle); CBuffer "info";
                 CConv c_int16 (PyInt string_size); CByRef c_int16 "required_size";
                 CConv c_uint32 (PyInt info_type)] in
    r <- call _get_unit_info args ;;
    ok <- getitem (PICO_STATUS self) "PICO_OK" ;;
    if ret r =? ok then
      let required_size := int_value 16 "required_size" 0 args r in
      if required_size <? string_size
      then ret_ (py_slice_to (bytes_value "info" args r) required_size)
      else ret_ EmptyString
    else ret_ EmptyString
  else ret_ EmptyString.

(** The two shapes of the [UnitInfo] named tuple. *)
Inductive UnitInfo :=
  | DefaultInfo (driver_ : positive) (variant : string) (serial : string)
  | KeyedInfo (fields : list (string * string)).

(** The field names [collections.namedtuple] accepts: identifiers that are
    not keywords, do not start with an underscore and do not repeat. *)
Definition is_letter (c : ascii) : bool :=
  let n := nat_of_ascii c in
  ((65 <=? n) && (n <=? 90) || (97 <=? n) && (n <=? 122))%nat.

Definition is_digit (c : ascii) : bool :=
  let n := nat_of_ascii c in ((48 <=? n) && (n <=? 57))%nat.

Definition is_underscore (c : ascii) : bool := (nat_of_ascii c =? 95)%nat.

Fixpoint all_chars (p : ascii -> bool) (s : string) : bool :=
  match s with
  | EmptyString => true
  | String c s' => p c && all_chars p s'
  end.

Definition keywords : list string :=
  ["False"; "None"; "True"; "and"; "as"; "assert"; "async"; "await"; "break"; "class";
   "continue"; "def"; "del"; "elif"; "else"; "except"; "finally"; "for"; "from";
   "global"; "if"; "import"; "in"; "is"; "lambda"; "nonlocal"; "not"; "or"; "pass";
   "raise"; "return"; "try"; "while"; "with"; "yield"].

Definition field_name_ok (s : string) : bool :=
  match s with
  | EmptyString => false
  | String c s' =>
      is_letter c &&
      all_chars (fun c => is_letter c || is_digit c || is_underscore c) s' &&
      negb (existsb (String.eqb s) keywords)
  end.

Fixpoint no_repeat (l : list string) : bool :=
  match l with
  | [] => true
  | x :: l' => negb (existsb (String.eqb x) l') && no_repeat l'
  end.

Definition namedtuple_ok (fields : list string) : bool :=
  forallb field_name_ok fields && no_repeat fields.

(** [list(set(keys) - set(self.PICO_INFO.keys()))]: the unknown keys, each
    once.  Python leaves the order of a set unspecified; the order of first
    occurrence stands for it here. *)
Fixpoint unknown_keys (info : gmap string Z) (keys : list string) (seen : list string)
  : list string :=
  match keys with
  | [] => []
  | k :: keys' =>
      match info !! k with
      | Some _ => unknown_keys info keys' seen
      | None =>
          if existsb (String.eqb k) seen then unknown_keys info keys' seen
          else k :: unknown_keys info keys' (k :: seen)
      end
  end.

(** [",".join(l)] *)
Fixpoint join (sep : string) (l : list string) : string :=
  match l with
  | [] => EmptyString
  | [x] => x
  | x :: l' => x ++ sep ++ join sep l'
  end.

Fixpoint info_lines (self : Library) (handle : Z) (keys : list string)
  : M (list (string * string)) :=
  match keys with
  | [] => ret_ []
  | line :: keys' =>
      info_type <- getitem (PICO_INFO self) line ;;
      v <- _python_get_unit_info self handle info_type ;;
      rest <- info_lines self handle keys' ;;
      ret_ ((line, v) :: rest)
  end.

Definition _python_get_unit_info_wrapper (self : Library) (handle : Z) (keys : list string)
  : M UnitInfo :=
  let invalid_info_lines := unknown_keys (PICO_INFO self) keys [] in
  match invalid_info_lines with
  | _ :: _ =>
      raise (ArgumentOutOfRangeError
               [Str (join "," invalid_info_lines); Text " not available for ";
                Str (name self); Text " devices"])
  | [] =>
      match keys with
      | [] =>
          variant_type <- getitem (PICO_INFO self) "PICO_VARIANT_INFO" ;;
          variant <- _python_get_unit_info self handle variant_type ;;
          serial_type <- getitem (PICO_INFO self) "PICO_BATCH_AND_SERIAL" ;;
          serial <- _python_get_unit_info self handle serial_type ;;
          ret_ (DefaultInfo (ident self) variant serial)
      | _ :: _ =>
          if namedtuple_ok keys then
            lines <- info_lines self handle keys ;;
            ret_ (KeyedInfo lines)
          else raise (ValueError [Text "namedtuple field names"])
      end
  end.

Definition is_DeviceNotFoundError (e : exn) : bool :=
  match e with
  | DeviceNotFoundError _ => true
  | _ => false
  end.

(** The [while True] loop of [list_units], left by a DeviceNotFoundError. *)
Fixpoint list_units_open (fuel : nat) (self : Library) (handles : list Z)
    (device_infos : list UnitInfo) : M (fueled (list Z * list UnitInfo)) :=
  match fuel with
  | O => ret_ OutOfFuel
  | S fuel' =>
      opened <-
        try_except
          (handle <- _python_open_unit self ;;
           info <- _python_get_unit_info_wrapper self handle [] ;;
           ret_ (Some (handle, info)))
          is_DeviceNotFoundError
          (ret_ None) ;;
      match opened with
      | None => ret_ (Done (handles, device_infos))
      | Some (handle, info) =>
          list_units_open fuel' self (handles ++ [handle]) (device_infos ++ [info])
      end
  end.

Fixpoint close_all (self : Library) (handles : list Z) : M unit :=
  match handles with
  | [] => ret_ tt
  | handle :: handles' => _python_close_unit self handle ;;; close_all self handles'
  end.

Definition list_units (fuel : nat) (self : Library) : M (fueled (list UnitInfo)) :=
  opened <- list_units_open fuel self [] [] ;;
  match opened with
  | OutOfFuel => ret_ OutOfFuel
  | Done (handles, device_infos) =>
      close_all self handles ;;;
      ret_ (Done device_infos)
  end.

Definition close_unit : Library -> pyobj -> unit -> M unit :=
  requires_device (owner_message "close_unit")
    (fun self device _ => _python_close_unit self (handle device) ;;; ret_ tt).

Definition get_unit_info : Library -> pyobj -> list string -> M UnitInfo :=
  requires_device (owner_message "get_unit_info")
    (fun self device args => _python_get_unit_info_wrapper self (handle device) args).

(** The handles the driver has handed out and has not been asked to close,
    read off the history of native calls. *)
Definition opened_handle (e : event) : option Z :=
  let handle :=
    if passed_by_ref "chandle" (ev_args e)
    then int_value 16 "chandle" 0 (ev_args e) (ev_resp e)
    else ret (ev_resp e) in
  if handle <? 1 then None else Some handle.

Definition open_step (open : list Z) (e : event) : list Z :=
  match ev_sym e with
  | _open_unit =>
      match opened_handle e with
      | Some handle => if in_tuple handle open then open else handle :: open
      | None => open
      end
  | _close_unit =>
      match ev_args e with
      | [CConv c_int16 (PyInt handle)] => List.filter (fun x => negb (x =? wrap 16 handle)) open
      | _ => open
      end
  | _ => open
  end.

Definition open_handles (h : history) : list Z := fold_left open_step h [].

(** *** The remaining device operations *)

Definition upper_char (c : ascii) : ascii :=
  let n := nat_of_ascii c in
  if ((97 <=? n) && (n <=? 122))%nat then ascii_of_nat (n - 32) else c.

(** [s.upper()] on ASCII text. *)
Fixpoint upper (s : string) : string :=
  match s with
  | EmptyString => EmptyString
  | String c s' => String (upper_char c) (upper s')
  end.

(** [str(n)] for an integer. *)
Definition str_of_int (n : Z) : string := DecimalString.NilZero.string_of_int (Z.to_int n).

(** [getattr(self, attr, None)] followed by the test [if not table]. *)
Definition nonempty_table (self : Library) (attr : string) : option (list (string * Z)) :=
  match tables self !! attr with
  | Some (entry :: t) => Some (entry :: t)
  | _ => None
  end.

(** [d[k]] on such a table, its entries in the order of insertion. *)
Definition table_item (d : list (string * Z)) (k : string) : M Z :=
  match assoc k d with
  | Some v => ret_ v
  | None => raise (KeyError [Str k])
  end.

(** [if status != self.PICO_STATUS['PICO_OK']: raise e(... pico_tag(status) ...)] *)
Definition status_check (self : Library) (status : Z) (e : string -> exn) : M unit :=
  ok <- getitem (PICO_STATUS self) "PICO_OK" ;;
  if negb (status =? ok) then
    tag <- lift (pico_tag self status) ;;
    raise (e tag)
  else ret_ tt.

Record set_digital_port_args := {
  port_number : Z;
  port_enabled : bool;
  voltage_level : float
}.

Definition set_digital_port : Library -> pyobj -> set_digital_port_args -> M unit :=
  requires_device (owner_message "set_digital_port")
    (fun self device a =>
       match argtypes self _set_digital_port with
       | Some tys =>
           if (length tys =? 4)%nat then
             logic_level <- match voltage_to_logic_level (voltage_level a) with
                            | Some l => ret_ l
                            | None => raise (ValueError [Text "cannot convert float to integer"])
                            end ;;
             match nonempty_table self (upper (name self) +:+ "_DIGITAL_PORT") with
             | None => raise (NotImplementedError [Text "This device doesn't support digital ports"])
             | Some digital_ports =>
                 port_id <- table_item digital_ports
                              (upper (name self) +:+ "_DIGITAL_PORT" +:+ str_of_int (port_number a)) ;;
                 let args := [PyInt (handle device); PyInt port_id; PyBool (port_enabled a);
                              PyInt logic_level] in
                 converted_args <- lift (_convert_args tys args) ;;
                 r <- call _set_digital_port converted_args ;;
                 status_check self (ret r)
                   (fun tag => PicoError [Text "set_digital_port failed ("; Str tag; Text ")"])
             end
           else raise (NotImplementedError
                         [Text "This device doesn't support digital ports or is not implemented yet"])
       | None => raise (NotImplementedError
                          [Text "This device doesn't support digital ports or is not implemented yet"])
       end).

Definition memory_segments : Library -> pyobj -> Z -> M Z :=
  requires_device (owner_message "memory_segments")
    (fun self device number_segments =>
       if negb (hasattr self _memory_segments) then raise (DeviceCannotSegmentMemoryError [])
       else
         let args := [CConv c_int16 (PyInt (handle device)); CConv c_uint32 (PyInt number_segments);
                      CByRef c_int32 "max_samples"] in
         r <- call _memory_segments args ;;
         status_check self (ret r)
           (fun tag => InvalidMemorySegmentsError
              [Text "could not segment the device memory into ("; Num number_segments;
               Text ") segments ("; Str tag; Text ")"]) ;;;
         ret_ (int_value 32 "max_samples" 0 args r)).

Definition has_arity (self : Library) (f : native) (n : nat) : option (list ctype) :=
  match argtypes self f with
  | Some tys => if (length tys =? n)%nat then Some tys else None
  | None => None
  end.

Definition set_null_trigger : Library -> pyobj -> unit -> M unit :=
  requires_device default_message
    (fun self device _ =>
       let auto_trigger_after_millis := 1 in
       match has_arity self _set_trigger 6 with
       | Some tys =>
           let PS2000_NONE := 5 in
           let args := [PyInt (handle device); PyInt PS2000_NONE; PyInt 0; PyInt 0; PyInt 0;
                        PyInt auto_trigger_after_millis] in
           converted_args <- lift (_convert_args tys args) ;;
           r <- call _set_trigger converted_args ;;
           if ret r =? 0 then raise (InvalidTriggerParameters []) else ret_ tt
       | None =>
           match has_arity self _set_simple_trigger 7 with
           | Some tys =>
               threshold_direction_id <-
                 (if bool_decide (PICO_THRESHOLD_DIRECTION self = ∅) then
                    match nonempty_table self (upper (name self) +:+ "_THRESHOLD_DIRECTION") with
                    | None => raise (NotImplementedError
                                       [Text "This device doesn't support threshold direction"])
                    | Some threshold_directions =>
                        table_item threshold_directions (upper (name self) +:+ "_NONE")
                    end
                  else getitem (PICO_THRESHOLD_DIRECTION self) "NONE") ;;
               channel_a <- channel_item (PICO_CHANNEL self) (inl "A") ;;
               let args := [PyInt (handle device); PyBool false; PyInt channel_a; PyInt 0;
                            PyInt threshold_direction_id; PyInt 0;
                            PyInt auto_trigger_after_millis] in
               converted_args <- lift (_convert_args tys args) ;;
               r <- call _set_simple_trigger converted_args ;;
               status_check self (ret r)
                 (fun tag => InvalidTriggerParameters
                               [Text "set_simple_trigger failed ("; Str tag; Text ")"])
           | None => raise (NotImplementedError not_done_message)
           end
       end).

Record run_block_args := {
  pre_trigger_samples : Z;
  post_trigger_samples : Z;
  rb_timebase_id : Z;
  rb_oversample : Z;
  rb_segment_index : Z
}.

(** The literal [0.001]. *)
Definition milli : float := 0x1.0624dd2f1a9fcp-10%float.

Definition _python_run_block (self : Library) (handle : Z) (a : run_block_args) : M float :=
  let time_indisposed := PyCObj c_int32 "time_indisposed" 0 in
  tys <- argtypes_of self _run_block ;;
  let run (args : list pyval) (legacy : bool) : M float :=
    converted_args <- lift (_convert_args tys args) ;;
    r <- call _run_block converted_args ;;
    (if legacy then
       if ret r =? 0 then raise (InvalidCaptureParameters []) else ret_ tt
     else
       status_check self (ret r)
         (fun tag => InvalidCaptureParameters [Text "run_block failed ("; Str tag; Text ")"])) ;;;
    ret_ (PyFloat.of_Z (int_value 32 "time_indisposed" 0 converted_args r) * milli)%float in
  if (length tys =? 5)%nat then
    run [PyInt handle; PyInt (pre_trigger_samples a + post_trigger_samples a);
         PyInt (rb_timebase_id a); PyInt (rb_oversample a); time_indisposed] true
  else if (length tys =? 8)%nat then
    run [PyInt handle; PyInt (pre_trigger_samples a); PyInt (post_trigger_samples a);
         PyInt (rb_timebase_id a); time_indisposed; PyInt (rb_segment_index a);
         PyNone; PyNone] false
  else if (length tys =? 9)%nat then
    run [PyInt handle; PyInt (pre_trigger_samples a); PyInt (post_trigger_samples a);
         PyInt (rb_timebase_id a); PyInt (rb_oversample a); time_indisposed;
         PyInt (rb_segment_index a); PyNone; PyNone] false
  else raise (NotImplementedError not_done_message).

Definition run_block : Library -> pyobj -> run_block_args -> M float :=
  requires_device default_message
    (fun self device a => _python_run_block self (handle device) a).

Definition is_ready : Library -> pyobj -> unit -> M bool :=
  requires_device default_message
    (fun self device _ =>
       match has_arity self _ready 1 with
       | Some _ =>
           r <- call _ready [CConv c_int16 (PyInt (handle device))] ;;
           ret_ (negb (ret r =? 0))
       | None =>
           match has_arity self _is_ready 2 with
           | Some _ =>
               let args := [CConv c_int16 (PyInt (handle device)); CByRef c_int16 "is_ready"] in
               r <- call _is_ready args ;;
               status_check self (ret r)
                 (fun tag => InvalidCaptureParameters [Text "is_ready failed ("; Str tag; Text ")"]) ;;;
               ret_ (negb (int_value 16 "is_ready" 0 args r =? 0))
           | None => raise (NotImplementedError not_done_message)
           end
       end).

Definition maximum_value : Library -> pyobj -> unit -> M Z :=
  requires_device default_message
    (fun self device _ =>
       match argtypes self _maximum_value with
       | None => ret_ (2 ^ 15 - 1)
       | Some tys =>
           let args := [PyInt (handle device); PyCObj c_int16 "max_adc" 0] in
           converted_args <- lift (_convert_args tys args) ;;
           r <- call _maximum_value converted_args ;;
           ret_ (int_value 16 "max_adc" 0 converted_args r)
       end).

(** In the [c_int16] branch the test [isinstance(return_code, c_int16)] never
    holds, since ctypes hands back a Python integer: nothing is raised. *)
Definition stop : Library -> pyobj -> unit -> M unit :=
  requires_device default_message
    (fun self device _ =>
       tys <- argtypes_of self _stop ;;
       converted_args <- lift (_convert_args tys [PyInt (handle device)]) ;;
       if bool_decide (restype self _stop = c_int16) then
         call _stop converted_args ;;; ret_ tt
       else
         r <- call _stop converted_args ;;
         status_check self (ret r)
           (fun tag => InvalidCaptureParameters [Text "stop failed ("; Str tag; Text ")"])).

(** *** [get_values] *)

Record get_values_args := {
  active_channels : list (string + Z);
  no_of_samples : Z;
  gv_segment_index : Z
}.

Definition key_eqb (a b : string + Z) : bool :=
  match a, b with
  | inl s, inl t => String.eqb s t
  | inr n, inr m => n =? m
  | _, _ => false
  end.

(** The keys of [{channel: ... for channel in active_channels}], in the order
    of their first occurrence. *)
Fixpoint dict_keys (l : list (string + Z)) (seen : list (string + Z)) : list (string + Z) :=
  match l with
  | [] => []
  | k :: l' =>
      if existsb (key_eqb k) seen then dict_keys l' seen
      else k :: dict_keys l' (k :: seen)
  end.

(** The buffer allocated for a channel, by name. *)
Definition buffer_name (k : string + Z) : string :=
  match k with
  | inl s => s
  | inr n => "#" +:+ str_of_int n
  end.

(** [tys[1]] *)
Definition item1 (tys : list ctype) : M ctype :=
  match tys with
  | _ :: t :: _ => ret_ t
  | _ => raise (IndexError [Text "list index out of range"])
  end.

(** [len(self._get_values.argtypes) == 7 and self._get_timebase.argtypes[1] == ty] *)
Definition values_shape (self : Library) (ty : ctype) : M bool :=
  tys <- argtypes_of self _get_values ;;
  if (length tys =? 7)%nat then
    tb <- argtypes_of self _get_timebase ;;
    t <- item1 tb ;;
    ret_ (bool_decide (t = ty))
  else ret_ false.

(** [inputs[k]] after the loop over [results.items()]. *)
Definition input_of (keys : list (string + Z)) (k : string) : pyval :=
  if existsb (key_eqb (inl k)) keys then PyAddr k else PyNone.

(** [int(digital_port[-1])] *)
Fixpoint last_char (s : string) : option ascii :=
  match s with
  | EmptyString => None
  | String c EmptyString => Some c
  | String _ s' => last_char s'
  end.

Definition last_digit (s : string) : M Z :=
  match last_char s with
  | Some c =>
      if is_digit c then ret_ (Z.of_nat (nat_of_ascii c) - 48)
      else raise (ValueError [Text "invalid literal for int() with base 10"])
  | None => raise (IndexError [Text "string index out of range"])
  end.

(** The loop over [digital_ports.items()]: every port is entered into
    [available_channels], which is [self.PICO_CHANNEL] itself. *)
Fixpoint add_digital_ports (prefix : string) (ports : list (string * Z))
    (available_channels : gmap (string + Z) Z) : M (gmap (string + Z) Z) :=
  match ports with
  | [] => ret_ available_channels
  | (digital_port, value) :: ports' =>
      if String.prefix prefix digital_port then
        port_number <- last_digit digital_port ;;
        add_digital_ports prefix ports' (<[inr port_number := value]> available_channels)
      else add_digital_ports prefix ports' available_channels
  end.

Fixpoint register_buffers (self : Library) (handle : Z) (a : get_values_args)
    (available_channels : gmap (string + Z) Z) (keys : list (string + Z)) : M unit :=
  match keys with
  | [] => ret_ tt
  | channel :: keys' =>
      channel_id <- channel_item available_channels channel ;;
      none <- getitem (PICO_RATIO_MODE self) "NONE" ;;
      let args := [PyInt handle; PyInt channel_id; PyAddr (buffer_name channel);
                   PyInt (no_of_samples a); PyInt (gv_segment_index a); PyInt none] in
      tys <- argtypes_of self _set_data_buffer ;;
      converted_args <- lift (_convert_args tys args) ;;
      r <- call _set_data_buffer converted_args ;;
      status_check self (ret r)
        (fun tag => InvalidCaptureParameters
                      [Text "set_data_buffer failed ("; Str tag; Text ")"]) ;;;
      register_buffers self handle a available_channels keys'
  end.

(** [1 >> n]: Python refuses a negative shift count. *)
Definition one_shifted_right (n : Z) : M Z :=
  if n <? 0 then raise (ValueError [Text "negative shift count"])
  else ret_ (Z.shiftr 1 n).

(** The loop over [results.keys()] that fills [overflow_warning]; the result
    lists the channels mapped to [True]. *)
Fixpoint overflow_channels (channels : gmap (string + Z) Z) (overflow : Z)
    (keys : list (string + Z)) : M (list (string + Z)) :=
  match keys with
  | [] => ret_ []
  | channel :: keys' =>
      index <- channel_item channels channel ;;
      bit <- one_shifted_right index ;;
      rest <- overflow_channels channels overflow keys' ;;
      if negb (Z.land overflow bit =? 0) then ret_ (channel :: rest) else ret_ rest
  end.

(** What the driver left in a channel's buffer; [None] is the memory
    [numpy.empty] handed out, never written. *)
Definition samples_of (r : option response) (channel : string + Z) : option (list Z) :=
  match r with
  | Some r =>
      match assoc (buffer_name channel) (outs r) with
      | Some (VSamples l) => Some l
      | _ => None
      end
  | None => None
  end.

Record values := {
  results : list ((string + Z) * option (list Z));
  overflow_warning : list (string + Z);
  channels_after : gmap (string + Z) Z
}.

(** [get_values] with a list of channels.  [numpy.empty] is called once per
    channel and refuses a negative number of samples (memory the machine
    cannot provide is outside the model).  The third component of
    the result is [self.PICO_CHANNEL] as the call leaves it: the digital
    ports are added to that very dictionary. *)
Definition get_values : Library -> pyobj -> get_values_args -> M values :=
  requires_device default_message
    (fun self device a =>
       (match active_channels a with
        | _ :: _ =>
            if no_of_samples a <? 0
            then raise (ValueError [Text "negative dimensions are not allowed"])
            else ret_ tt
        | [] => ret_ tt
        end) ;;;
       let keys := dict_keys (active_channels a) [] in
       legacy <- values_shape self c_int16 ;;
       state <-
         (if legacy : bool then
            let args := [PyInt (handle device); input_of keys "A"; input_of keys "B";
                         input_of keys "C"; input_of keys "D";
                         PyCObj c_int16 "overflow" 0; PyInt (no_of_samples a)] in
            tys <- argtypes_of self _get_values ;;
            converted_args <- lift (_convert_args tys args) ;;
            r <- call _get_values converted_args ;;
            if ret r =? 0 then raise (InvalidCaptureParameters [])
            else ret_ (PICO_CHANNEL self, Some r, int_value 16 "overflow" 0 converted_args r)
          else
            current <- values_shape self c_uint32 ;;
            if current : bool then
              available_channels <-
                match nonempty_table self (upper (name self) +:+ "_DIGITAL_PORT") with
                | Some digital_ports =>
                    add_digital_ports (upper (name self) +:+ "_DIGITAL_PORT") digital_ports
                                      (PICO_CHANNEL self)
                | None => ret_ (PICO_CHANNEL self)
                end ;;
              register_buffers self (handle device) a available_channels keys ;;;
              none <- getitem (PICO_RATIO_MODE self) "NONE" ;;
              let args := [PyInt (handle device); PyInt 0;
                           PyCObj c_uint32 "samples_collected" (no_of_samples a); PyInt 1;
                           PyInt none; PyInt (gv_segment_index a);
                           PyCObj c_int16 "overflow" 0] in
              tys <- argtypes_of self _get_values ;;
              converted_args <- lift (_convert_args tys args) ;;
              r <- call _get_values converted_args ;;
              status_check self (ret r)
                (fun tag => InvalidCaptureParameters
                              [Text "get_values failed ("; Str tag; Text ")"]) ;;;
              ret_ (available_channels, Some r, int_value 16 "overflow" 0 converted_args r)
            else ret_ (PICO_CHANNEL self, None, 0)) ;;
       let '(channels, r, overflow) := state in
       warning <- (if negb (overflow =? 0) then overflow_channels channels overflow keys
                   else ret_ []) ;;
       ret_ {| results := map (fun k => (k, samples_of r k)) keys;
               overflow_warning := warning;
               channels_after := channels |}).

(** ** A library and simulated drivers to run the wrappers on *)

(** The binding of [ps4000a.py]: its name, channel, coupling and range
    tables and the signatures it gives [make_symbol].  [PICO_INFO] and
    [PICO_STATUS] come from [picosdk.constants]; the entries below stand for
    the ones the wrappers look up, and [pico_tag] knows the statuses of this
    table and raises UnknownConstantError for every other one. *)
Definition known_statuses : list (string * Z) :=
  [("PICO_OK", 0); ("PICO_NOT_FOUND", 3); ("PICO_INVALID_VOLTAGE_RANGE", 15);
   ("PICO_INVALID_CHANNEL", 16)].

Definition tag_of (table : list (string * Z)) (status : Z) : result string :=
  match List.find (fun entry => snd entry =? status) table with
  | Some (tag, _) => Ok tag
  | None => Raise (UnknownConstantError [Num status])
  end.

Definition ps4000a_argtypes (f : native) : option (list ctype) :=
  match f with
  | _open_unit => Some [c_void_p; c_char_p]
  | _close_unit => Some [c_int16]
  | _get_unit_info => Some [c_int16; c_char_p; c_int16; c_void_p; c_uint32]
  | _set_channel => Some [c_int16; c_int32; c_int16; c_int32; c_int32; c_float]
  | _memory_segments => Some [c_int16; c_uint32; c_void_p]
  | _get_timebase => Some [c_int16; c_uint32; c_int32; c_void_p; c_void_p; c_uint32]
  | _get_timebase2 => Some [c_int16; c_uint32; c_int32; c_void_p; c_void_p; c_uint32]
  | _set_simple_trigger => Some [c_int16; c_int16; c_int32; c_int16; c_int32; c_uint32; c_int16]
  | _run_block => Some [c_int16; c_int32; c_int32; c_uint32; c_void_p; c_uint32; c_void_p; c_void_p]
  | _is_ready => Some [c_int16; c_void_p]
  | _maximum_value => Some [c_int16; c_void_p]
  | _get_values => Some [c_int16; c_uint32; c_void_p; c_uint32; c_int32; c_uint32; c_void_p]
  | _set_data_buffer => Some [c_int16; c_int32; c_void_p; c_int32; c_uint32; c_int32]
  | _stop => Some [c_int16]
  | _set_digital_port | _set_trigger | _ready => None
  end.

Definition ps4000a : Library := {|
  ident := 1%positive;
  name := "ps4000a";
  PICO_INFO := list_to_map [("PICO_DRIVER_VERSION", 0); ("PICO_USB_VERSION", 1);
                            ("PICO_HARDWARE_VERSION", 2); ("PICO_VARIANT_INFO", 3);
                            ("PICO_BATCH_AND_SERIAL", 4); ("PICO_CAL_DATE", 5)];
  PICO_STATUS := list_to_map known_statuses;
  PICO_CHANNEL := list_to_map [(inl "A", 0); (inl "B", 1); (inl "C", 2); (inl "D", 3);
                               (inl "E", 4); (inl "F", 5); (inl "G", 6); (inl "H", 7)];
  PICO_COUPLING := list_to_map [("AC", 0); ("DC", 1)];
  PICO_VOLTAGE_RANGE :=
    [(0, (milli * 10)%float); (1, (milli * 20)%float); (2, (milli * 50)%float);
     (3, (milli * 100)%float); (4, (milli * 200)%float); (5, (milli * 500)%float);
     (6, (1)%float); (7, (2)%float); (8, (5)%float); (9, (10)%float); (10, (20)%float);
     (11, (50)%float); (12, (100)%float); (13, (200)%float)];
  PICO_RATIO_MODE := list_to_map [("NONE", 0); ("AGGREGATE", 1); ("DECIMATE", 2);
                                  ("AVERAGE", 4)];
  PICO_THRESHOLD_DIRECTION := ∅;
  DEFAULT_RESOLUTION := None;
  tables := ∅;
  argtypes := ps4000a_argtypes;
  restype := fun _ => c_uint32;
  pico_tag := tag_of known_statuses
|}.

(** [self] with [f] bound to a native function of signature [tys]. *)
Definition rebind (f : native) (tys : list ctype) (self : Library) : Library := {|
  ident := ident self;
  name := name self;
  PICO_INFO := PICO_INFO self;
  PICO_STATUS := PICO_STATUS self;
  PICO_CHANNEL := PICO_CHANNEL self;
  PICO_COUPLING := PICO_COUPLING self;
  PICO_VOLTAGE_RANGE := PICO_VOLTAGE_RANGE self;
  PICO_RATIO_MODE := PICO_RATIO_MODE self;
  PICO_THRESHOLD_DIRECTION := PICO_THRESHOLD_DIRECTION self;
  DEFAULT_RESOLUTION := DEFAULT_RESOLUTION self;
  tables := tables self;
  argtypes := fun g => if bool_decide (g = f) then Some tys else argtypes self g;
  restype := restype self;
  pico_tag := pico_tag self
|}.

(** The binding with the 5-parameter [set_channel] of the older drivers: the
    second parameter is 16 bits wide, or 32 bits wide. *)
Definition legacy16 : Library :=
  rebind _set_channel [c_int16; c_int16; c_int16; c_int16; c_int16] ps4000a.

Definition legacy32 : Library :=
  rebind _set_channel [c_int16; c_int32; c_int16; c_int32; c_int32] ps4000a.

(** The binding with the 7-parameter integer [get_timebase] of the oldest
    drivers, and the one with a 7-parameter [get_timebase2]. *)
Definition timebase_legacy : Library :=
  rebind _get_timebase [c_int16; c_int16; c_int32; c_void_p; c_void_p; c_int16; c_void_p]
         ps4000a.

Definition timebase_current : Library :=
  rebind _get_timebase2 [c_int16; c_uint32; c_int32; c_void_p; c_int16; c_void_p; c_uint32]
         ps4000a.

(** A device opened on [ps4000a], and one that belongs to another driver. *)
Definition own_device : Device := {| driver := 1%positive; handle := 1 |}.
Definition foreign_device : Device := {| driver := 2%positive; handle := 1 |}.

(** A driver that answers every [set_channel] with [status] and everything
    else with 0. *)
Definition answering (status : Z) : native_driver :=
  fun _ f _ =>
    {| ret := match f with _set_channel => status | _ => 0 end; outs := [] |}.

(** A driver whose timebase calls succeed with an interval of [ns]
    nanoseconds. *)
Definition timing (ns : Z) : native_driver :=
  fun _ f _ =>
    match f with
    | _get_timebase =>
        {| ret := 1;
           outs := [("time_interval", VInt ns); ("time_units", VInt 2);
                    ("max_samples", VInt 1000)] |}
    | _get_timebase2 =>
        {| ret := 0;
           outs := [("time_interval", VFloat (PyFloat.of_Z ns)); ("max_samples", VInt 1000)] |}
    | _ => {| ret := 0; outs := [] |}
    end.

(** A driver that answers every call with [status] and writes nothing. *)
Definition refusing (status : Z) : native_driver :=
  fun _ _ _ => {| ret := status; outs := [] |}.

(** A driver that reports the overflow bit field [bits] on [get_values]. *)
Definition overflowing (bits : Z) : native_driver :=
  fun _ f _ =>
    match f with
    | _get_values => {| ret := 0; outs := [("overflow", VInt bits)] |}
    | _ => {| ret := 0; outs := [] |}
    end.

(** A driver with [units] instruments attached: [open_unit] hands out a fresh
    handle while fewer than [units] are open and reports PICO_NOT_FOUND with
    handle 0 afterwards; [close_unit] is seen in the history. *)
Definition count_opens (h : history) : Z :=
  Z.of_nat (length (List.filter (fun e => bool_decide (ev_sym e = _open_unit)) h)).

Definition simulated (units : nat) : native_driver :=
  fun h f _ =>
    match f with
    | _open_unit =>
        if (length (open_handles h) <? units)%nat
        then {| ret := 0; outs := [("chandle", VInt (count_opens h + 1))] |}
        else {| ret := 3; outs := [("chandle", VInt 0)] |}
    | _get_unit_info =>
        {| ret := 0; outs := [("info", VBytes "4824"); ("required_size", VInt 5)] |}
    | _ => {| ret := 0; outs := [] |}
    end.

(** The same driver, reporting [status] once every unit is open. *)
Definition simulated_reporting (status : Z) (units : nat) : native_driver :=
  fun h f _ =>
    match f with
    | _open_unit =>
        if (length (open_handles h) <? units)%nat
        then {| ret := 0; outs := [("chandle", VInt (count_opens h + 1))] |}
        else {| ret := status; outs := [("chandle", VInt 0)] |}
    | _get_unit_info =>
        {| ret := 0; outs := [("info", VBytes "4824"); ("required_size", VInt 5)] |}
    | _ => {| ret := 0; outs := [] |}
    end.

(** The event a call of the native [set_channel] leaves in the history. *)
Definition set_channel_event (drv : native_driver) (h : history) (tys : list ctype)
    (args : list pyval) : event :=
  {| ev_sym := _set_channel;
     ev_args := converted tys args;
     ev_resp := drv h _set_channel (converted tys args) |}.

(** [isinstance(device, Device) and device.driver == self] *)
Definition registered (self : Library) (device : pyobj) : Prop :=
  match device with
  | Obj_Device d => driver d = ident self
  | Obj_other _ => False
  end.

(** A Python integer stored in 16 bits is unchanged by [c_int16]. *)
Definition int16 (n : Z) : Prop := - 2 ^ 15 <= n < 2 ^ 15.

(** ** Rounding to binary64, on integers

    A finite binary64 magnitude [m * 2^e] with [-1114 <= e] is handled through
    the integer [m * 2^(e + 1114)]. *)

(** [a / 2^n] rounded to the nearest integer, ties to even. *)
Definition rne (a n : Z) : Z :=
  let q := a / 2 ^ n in
  let r := a mod 2 ^ n in
  if 2 * r <? 2 ^ n then q
  else if 2 ^ n <? 2 * r then q + 1
  else if Z.even q then q else q + 1.

(** The exponent of the binary64 format for a number of [k] binary digits. *)
Definition fexp64 (k : Z) : Z := Z.max (k - 53) (-1074).

(** The grid a scaled value is rounded to, and the rounded value. *)
Definition grid (V : Z) : Z := Z.max (Zdigits2 V - 53) 40.
Definition rounded (V : Z) : Z := rne V (grid V) * 2 ^ grid V.

(** The factor [32767 / 5] as a binary64 value: mantissa and exponent. *)
Definition factor_mantissa : positive := 7205539501467238.
Definition factor_exponent : Z := -40.

(** The integer standing for the exact product of the magnitude
    [m * 2^e] with the factor, and the magnitude of the logic level. *)
Definition product (m : positive) (e : Z) : Z :=
  Zpos (m * factor_mantissa) * 2 ^ (e + factor_exponent + 1114).

Definition level (m : positive) (e : Z) : Z := rounded (product m e) / 2 ^ 1114.

(** [min(max(-5, voltage), 5)] *)
Definition clamp (voltage : float) : float := py_min (py_max (-5)%float voltage) 5%float.

(** The voltages between -5 V and 5 V. *)
Definition in_range (x : float) : Prop :=
  PyFloat.le (-5)%float x = true /\ PyFloat.le x 5%float = true.

(** A library whose bindings and tables let [list_units] run: the three
    native functions are bound, the default resolution exists when
    [open_unit] takes one, PICO_OK exists when [get_unit_info] returns a
    status, and the two default information keys are declared. *)
Definition can_list_units (self : Library) : Prop :=
  (exists tys, argtypes self _open_unit = Some tys /\
               (length tys = 3%nat -> is_Some (DEFAULT_RESOLUTION self))) /\
  (exists tys, argtypes self _get_unit_info = Some tys /\
               (length tys = 5%nat -> is_Some (PICO_STATUS self !! "PICO_OK"))) /\
  is_Some (argtypes self _close_unit) /\
  is_Some (PICO_INFO self !! "PICO_VARIANT_INFO") /\
  is_Some (PICO_INFO self !! "PICO_BATCH_AND_SERIAL").

(** [self] with the per-model dictionary [attr] set to [table]. *)
Definition with_table (attr : string) (table : list (string * Z)) (self : Library) : Library := {|
  ident := ident self;
  name := name self;
  PICO_INFO := PICO_INFO self;
  PICO_STATUS := PICO_STATUS self;
  PICO_CHANNEL := PICO_CHANNEL self;
  PICO_COUPLING := PICO_COUPLING self;
  PICO_VOLTAGE_RANGE := PICO_VOLTAGE_RANGE self;
  PICO_RATIO_MODE := PICO_RATIO_MODE self;
  PICO_THRESHOLD_DIRECTION := PICO_THRESHOLD_DIRECTION self;
  DEFAULT_RESOLUTION := DEFAULT_RESOLUTION self;
  tables := <[attr := table]> (tables self);
  argtypes := argtypes self;
  restype := restype self;
  pico_tag := pico_tag self
|}.

(** A binding with two digital ports and a native [set_digital_port], as the
    mixed-signal models have. *)
Definition mixed_signal : Library :=
  with_table "PS4000A_DIGITAL_PORT"
    [("PS4000A_DIGITAL_PORT0", 128); ("PS4000A_DIGITAL_PORT1", 129)]
    (rebind _set_digital_port [c_int16; c_int32; c_int16; c_int16] ps4000a).

(** [self] with the return type of [f] declared as [ty]. *)
Definition with_restype (f : native) (ty : ctype) (self : Library) : Library := {|
  ident := ident self;
  name := name self;
  PICO_INFO := PICO_INFO self;
  PICO_STATUS := PICO_STATUS self;
  PICO_CHANNEL := PICO_CHANNEL self;
  PICO_COUPLING := PICO_COUPLING self;
  PICO_VOLTAGE_RANGE := PICO_VOLTAGE_RANGE self;
  PICO_RATIO_MODE := PICO_RATIO_MODE self;
  PICO_THRESHOLD_DIRECTION := PICO_THRESHOLD_DIRECTION self;
  DEFAULT_RESOLUTION := DEFAULT_RESOLUTION self;
  tables := tables self;
  argtypes := argtypes self;
  restype := fun g => if bool_decide (g = f) then ty else restype self g;
  pico_tag := pico_tag self
|}.

(** The binding with a [stop] that returns a 16-bit code, as on the older
    drivers. *)
Definition stop_legacy : Library := with_restype _stop c_int16 ps4000a.

(** *** [open_unit] *)

(** The message of the DeviceNotFoundError when a serial number was given. *)
Definition no_match_message (self : Library) (serial : string) (status : option Z)
  : M message :=
  let message := [Text "Driver "; Str (name self); Text " could find no device";
                  Text " matching "; Str serial] in
  match status with
  | Some st =>
      tag <- lift (pico_tag self st) ;;
      ret_ (message ++ [Text " ("; Str tag; Text ")"])
  | None => ret_ message
  end.

(** The [while temp_handle > 0] loop of [_python_open_specific_unit]: the
    units of a driver without serial-number parameter are opened one after the
    other until one reports the serial number asked for.  [serial] is a
    non-empty byte string, as is what [_python_get_unit_info] reads from a
    unit; [fuel] bounds the number of iterations. *)
Fixpoint search_serial (fuel : nat) (self : Library) (serial : string) (temp_handle : Z)
    (open_handles : list Z) : M (fueled (Z * list Z)) :=
  match fuel with
  | O => ret_ OutOfFuel
  | S fuel' =>
      if 0 <? temp_handle then
        serial_type <- getitem (PICO_INFO self) "PICO_BATCH_AND_SERIAL" ;;
        this_serial <- _python_get_unit_info self temp_handle serial_type ;;
        if String.eqb this_serial serial then ret_ (Done (temp_handle, open_handles))
        else
          r <- call _open_unit [] ;;
          search_serial fuel' self serial (ret r) (open_handles ++ [temp_handle])
      else ret_ (Done (-1, open_handles))
  end.

(** The character buffer [create_string_buffer(serial)] reaches the driver
    with the bytes of [serial]. *)
Definition _python_open_specific_unit (fuel : nat) (self : Library) (serial : string)
    (resolution : option Z) : M (fueled (Z * option Z)) :=
  tys <- argtypes_of self _open_unit ;;
  if (length tys =? 3)%nat then
    resolution <- match resolution with
                  | Some r => ret_ r
                  | None => match DEFAULT_RESOLUTION self with
                            | Some r => ret_ r
                            | None => raise (AttributeError [Text "DEFAULT_RESOLUTION"])
                            end
                  end ;;
    let args := [CByRef c_int16 "chandle"; CConv c_char_p (PyBytes serial);
                 CConv c_int32 (PyInt resolution)] in
    r <- call _open_unit args ;;
    ret_ (Done (int_value 16 "chandle" 0 args r, Some (ret r)))
  else if (length tys =? 2)%nat then
    let args := [CByRef c_int16 "chandle"; CConv c_char_p (PyBytes serial)] in
    r <- call _open_unit args ;;
    ret_ (Done (int_value 16 "chandle" 0 args r, Some (ret r)))
  else
    r <- call _open_unit [] ;;
    found <- search_serial fuel self serial (ret r) [] ;;
    match found with
    | OutOfFuel => ret_ OutOfFuel
    | Done (handle, open_handles) =>
        close_all self open_handles ;;;
        ret_ (Done (handle, None))
    end.

(** [open_unit(serial, resolution)], with the body of the
    [_python_open_unit(serial, resolution)] it calls: the handle found is
    checked and wrapped into a [Device] of this library. *)
Definition open_unit (fuel : nat) (self : Library) (serial : option string)
    (resolution : option Z) : M (fueled Device) :=
  found <- match serial with
           | None => hs <- _python_open_any_unit self resolution ;; ret_ (Done hs)
           | Some serial => _python_open_specific_unit fuel self serial resolution
           end ;;
  match found with
  | OutOfFuel => ret_ OutOfFuel
  | Done (handle, status) =>
      if handle <? 1 then
        message <- match serial with
                   | None => not_found_message self status
                   | Some serial => no_match_message self serial status
                   end ;;
        raise (DeviceNotFoundError message)
      else ret_ (Done {| driver := ident self; handle := handle |})
  end.

(** A binding of the oldest kind, whose [open_unit] takes no parameter and
    whose [get_unit_info] takes four. *)
Definition legacy_library : Library :=
  rebind _get_unit_info [c_int16; c_char_p; c_int16; c_int16] (rebind _open_unit [] ps4000a).

Definition handle_of_args (args : list carg) : Z :=
  match args with
  | CConv _ (PyInt handle) :: _ => handle
  | _ => 0
  end.

(** A driver for it with [units] instruments attached: handles are numbered
    from 1 in the order of the calls, and the unit behind the handle [n]
    reports the serial number [serial_of n]. *)
Definition legacy_driver (units : nat) (serial_of : Z -> string) : native_driver :=
  fun h f args =>
    match f with
    | _open_unit =>
        if (length (open_handles h) <? units)%nat
        then {| ret := count_opens h mod 32767 + 1; outs := [] |}
        else {| ret := 0; outs := [] |}
    | _get_unit_info =>
        let serial := serial_of (handle_of_args args) in
        {| ret := Z.of_nat (String.length serial); outs := [("info", VBytes serial)] |}
    | _ => {| ret := 0; outs := [] |}
    end.

(** *** The names [make_symbol] binds *)

Definition is_upper (c : ascii) : bool :=
  let n := nat_of_ascii c in ((65 <=? n) && (n <=? 90))%nat.

(** [c.lower()] on an ASCII character. *)
Definition lower_char (c : ascii) : ascii :=
  if is_upper c then ascii_of_nat (nat_of_ascii c + 32) else c.

(** [s.lower()] on ASCII text. *)
Fixpoint lower (s : string) : string :=
  match s with
  | EmptyString => EmptyString
  | String c s' => String (lower_char c) (lower s')
  end.

(** [s.lstrip('_')] *)
Fixpoint lstrip_underscores (s : string) : string :=
  match s with
  | String c s' => if is_underscore c then lstrip_underscores s' else s
  | EmptyString => EmptyString
  end.

(** The loop over the characters of the name, and [''.join(acc)]: every
    upper-case letter is replaced by an underscore and its lower-case form. *)
Fixpoint underscored (s : string) : string :=
  match s with
  | EmptyString => EmptyString
  | String c s' =>
      if is_upper c then String "_" (String (lower_char c) (underscored s'))
      else String c (underscored s')
  end.

(** The attribute names under which [make_symbol] makes the native function
    available: the generic name, the name of the C function and, for a generic
    name that is not all lower case, the name built by the loop (the
    underscore that the code then puts in front of [new_python_name] is not
    part of the name it binds). *)
Definition make_symbol_names (python_name c_name : string) : list string :=
  [python_name; c_name] ++
  (if negb (String.eqb (lower python_name) python_name)
   then [underscored (lstrip_underscores python_name)]
   else []).

(** The names written in ASCII. *)
Definition is_ascii (s : string) : bool := all_chars (fun c => (nat_of_ascii c <? 128)%nat) s.

(** * Properties *)

(** ** Facts about the order of floats *)

Section FloatOrder.
Import PyFloat.

Lemma SFcompare_key (x y : spec_float) :
  sf_is_nan x = false -> sf_is_nan y = false ->
  exists c, SFcompare x y = Some c /\
    match c with
    | Lt => lex_lt (sf_key x) (sf_key y)
    | Eq => sf_key x = sf_key y
    | Gt => lex_lt (sf_key y) (sf_key x)
    end.
Proof.
  destruct x as [sx|sx| |sx mx ex], y as [sy|sy| |sy my ey];
    simpl; try discriminate; intros _ _;
    try (destruct sx); try (destruct sy); simpl;
    eexists; (split; [reflexivity|]); simpl; try lia; try reflexivity.
  - destruct (Z.compare_spec ex ey); try lia.
    subst. rewrite Pos.compare_cont_spec. simpl.
    destruct (Pos.compare_spec mx my); simpl; try lia. subst. reflexivity.
  - destruct (Z.compare_spec ex ey); try lia.
    subst. rewrite Pos.compare_cont_spec. simpl.
    destruct (Pos.compare_spec mx my); simpl; try lia. subst. reflexivity.
Qed.

Lemma SFcompare_nan (x y : spec_float) :
  sf_is_nan x = true \/ sf_is_nan y = true -> SFcompare x y = None.
Proof.
  destruct x as [sx|sx| |sx mx ex], y as [sy|sy| |sy my ey]; simpl;
    intros [H|H]; try discriminate; reflexivity.
Qed.

Lemma lex_lt_irrefl (a : Z * Z * Z) : ~ lex_lt a a.
Proof. destruct a as [[a1 a2] a3]. unfold lex_lt. lia. Qed.

Lemma lex_lt_asym (a b : Z * Z * Z) : lex_lt a b -> ~ lex_lt b a.
Proof. destruct a as [[a1 a2] a3], b as [[b1 b2] b3]. unfold lex_lt. lia. Qed.

Lemma lex_le_lt_or_eq (a b : Z * Z * Z) : lex_le a b <-> lex_lt a b \/ a = b.
Proof.
  destruct a as [[a1 a2] a3], b as [[b1 b2] b3]. unfold lex_le, lex_lt.
  split.
  - intros H.
    destruct (Z.eq_dec a1 b1), (Z.eq_dec a2 b2), (Z.eq_dec a3 b3);
      subst; (right; reflexivity) || (left; lia).
  - intros [H|H]; [lia | injection H as -> -> ->; lia].
Qed.

Lemma lex_le_trans (a b c : Z * Z * Z) : lex_le a b -> lex_le b c -> lex_le a c.
Proof.
  destruct a as [[a1 a2] a3], b as [[b1 b2] b3], c as [[c1 c2] c3].
  unfold lex_le. lia.
Qed.

Lemma lex_le_total (a b : Z * Z * Z) : lex_le a b \/ lex_lt b a.
Proof.
  destruct a as [[a1 a2] a3], b as [[b1 b2] b3]. unfold lex_le, lex_lt. lia.
Qed.

(** [x <= y] holds exactly when neither is a NaN and the keys are ordered. *)
Lemma float_le_spec (x y : float) :
  le x y = true <-> is_nan x = false /\ is_nan y = false /\ lex_le (key x) (key y).
Proof.
  unfold le, is_nan, key. rewrite leb_spec. unfold SFleb.
  destruct (sf_is_nan (Prim2SF x)) eqn:Hx.
  { rewrite SFcompare_nan by auto. split; [discriminate | intros [? _]; discriminate]. }
  destruct (sf_is_nan (Prim2SF y)) eqn:Hy.
  { rewrite SFcompare_nan by auto. split; [discriminate | intros (_ & ? & _); discriminate]. }
  destruct (SFcompare_key _ _ Hx Hy) as (c & -> & Hc).
  rewrite lex_le_lt_or_eq.
  destruct c; split; intros H; try discriminate; auto.
  destruct H as (_ & _ & [H|H]).
  - exfalso. eapply lex_lt_asym; eauto.
  - exfalso. rewrite H in Hc. eapply lex_lt_irrefl; eauto.
Qed.

Lemma float_lt_spec (x y : float) :
  lt x y = true <-> is_nan x = false /\ is_nan y = false /\ lex_lt (key x) (key y).
Proof.
  unfold lt, is_nan, key. rewrite ltb_spec. unfold SFltb.
  destruct (sf_is_nan (Prim2SF x)) eqn:Hx.
  { rewrite SFcompare_nan by auto. split; [discriminate | intros [? _]; discriminate]. }
  destruct (sf_is_nan (Prim2SF y)) eqn:Hy.
  { rewrite SFcompare_nan by auto. split; [discriminate | intros (_ & ? & _); discriminate]. }
  destruct (SFcompare_key _ _ Hx Hy) as (c & -> & Hc).
  destruct c; split; intros H; try discriminate; auto.
  - destruct H as (_ & _ & H). exfalso. rewrite Hc in H. eapply lex_lt_irrefl; eauto.
  - destruct H as (_ & _ & H). exfalso. eapply lex_lt_asym; eauto.
Qed.

Lemma float_ge_spec (x y : float) :
  ge x y = true <-> is_nan x = false /\ is_nan y = false /\ lex_le (key y) (key x).
Proof. unfold ge. change (PrimFloat.leb y x) with (le y x). rewrite float_le_spec. tauto. Qed.

Lemma float_gt_spec (x y : float) :
  gt x y = true <-> is_nan x = false /\ is_nan y = false /\ lex_lt (key y) (key x).
Proof. unfold gt. change (PrimFloat.ltb y x) with (lt y x). rewrite float_lt_spec. tauto. Qed.

Lemma float_le_trans (x y z : float) : le x y = true -> le y z = true -> le x z = true.
Proof.
  rewrite !float_le_spec. intros (? & ? & ?) (? & ? & ?).
  repeat split; auto. eapply lex_le_trans; eauto.
Qed.

Lemma float_le_refl (x : float) : is_nan x = false -> le x x = true.
Proof.
  intros H. apply float_le_spec. repeat split; auto.
  apply lex_le_lt_or_eq. right. reflexivity.
Qed.

Lemma float_lt_le (x y : float) : lt x y = true -> le x y = true.
Proof.
  rewrite float_lt_spec, float_le_spec. intros (? & ? & ?). repeat split; auto.
  apply lex_le_lt_or_eq. left. assumption.
Qed.

Lemma float_not_lt_le (x y : float) :
  is_nan x = false -> is_nan y = false -> lt x y = false -> le y x = true.
Proof.
  intros Hx Hy H. apply float_le_spec. repeat split; auto.
  destruct (lex_le_total (key y) (key x)) as [?|Hlt]; auto.
  assert (lt x y = true) by (apply float_lt_spec; auto). congruence.
Qed.

Lemma float_le_lt_trans (x y z : float) : le x y = true -> lt y z = true -> lt x z = true.
Proof.
  rewrite float_le_spec, !float_lt_spec. intros (? & ? & H1) (? & ? & H2). repeat split; auto.
  destruct (key x) as [[a1 a2] a3], (key y) as [[b1 b2] b3], (key z) as [[c1 c2] c3].
  unfold lex_le, lex_lt in *. lia.
Qed.

Lemma float_lt_le_trans (x y z : float) : lt x y = true -> le y z = true -> lt x z = true.
Proof.
  rewrite float_le_spec, !float_lt_spec. intros (? & ? & H1) (? & ? & H2). repeat split; auto.
  destruct (key x) as [[a1 a2] a3], (key y) as [[b1 b2] b3], (key z) as [[c1 c2] c3].
  unfold lex_le, lex_lt in *. lia.
Qed.

End FloatOrder.

(** ** The range resolver *)

Section ResolveRange.
Import PyFloat.

Lemma in_tuple_In (x : Z) (t : list Z) : in_tuple x t = true <-> In x t.
Proof.
  unfold in_tuple. rewrite existsb_exists. split.
  - intros (y & Hy & Heq). apply Z.eqb_eq in Heq. subst. assumption.
  - intros H. exists x. split; [assumption | apply Z.eqb_refl].
Qed.

Lemma possibilities_spec (self : Library) (v : float) (E : list Z) (tup : Z * float) :
  In tup (possibilities self v E) <-> In tup (PICO_VOLTAGE_RANGE self) /\ qualifies v E tup.
Proof.
  unfold possibilities, qualifies. rewrite filter_In, andb_true_iff, negb_true_iff.
  rewrite <- in_tuple_In. destruct (in_tuple (fst tup) E); intuition congruence.
Qed.

Lemma py_min_key_spec {A} (key : A -> float) (l : list A) :
  forall cur,
    (forall x, In x (cur :: l) -> is_nan (key x) = false) ->
    In (py_min_key key cur l) (cur :: l) /\
    forall x, In x (cur :: l) -> le (key (py_min_key key cur l)) (key x) = true.
Proof.
  induction l as [|item l IH]; intros cur Hnan; simpl.
  - split; [left; reflexivity|].
    intros x [<-|[]]. apply float_le_refl. apply Hnan. left. reflexivity.
  - set (cur' := if lt (key item) (key cur) then item else cur).
    assert (Hcur' : cur' = item \/ cur' = cur)
      by (unfold cur'; destruct (lt (key item) (key cur)); auto).
    destruct (IH cur') as [Hin Hmin].
    { intros x [<-|Hx].
      - destruct Hcur' as [->| ->]; apply Hnan; simpl; auto.
      - apply Hnan. simpl. auto. }
    split.
    + destruct Hin as [Hin|Hin]; [|simpl; auto].
      rewrite <- Hin. destruct Hcur' as [->| ->]; simpl; auto.
    + assert (Hcc : le (key cur') (key cur) = true /\ le (key cur') (key item) = true).
      { unfold cur'. destruct (lt (key item) (key cur)) eqn:Hlt.
        - split; [apply float_lt_le; assumption|]. apply float_le_refl. apply Hnan. simpl. auto.
        - split; [apply float_le_refl; apply Hnan; simpl; auto|].
          apply float_not_lt_le; auto; apply Hnan; simpl; auto. }
      destruct Hcc as [Hc Hi].
      assert (Hm : le (key (py_min_key key cur' l)) (key cur') = true)
        by (apply Hmin; left; reflexivity).
      intros x [<-|[<-|Hx]].
      * eapply float_le_trans; eauto.
      * eapply float_le_trans; eauto.
      * apply Hmin. right. assumption.
Qed.

Lemma qualifies_not_nan (v : float) (E : list Z) (tup : Z * float) :
  qualifies v E tup -> is_nan (snd tup) = false.
Proof. intros [H _]. apply float_ge_spec in H. tauto. Qed.

End ResolveRange.

(** C1: [_resolve_range] makes no native call; when some entry of the range
  table has a maximum voltage at least the requested peak and an identifier
  outside the exclusion tuple, it returns such an entry whose maximum
  voltage is smallest among all of them (so never an excluded identifier);
  when no entry qualifies it raises ArgumentOutOfRangeError. *)
Theorem resolve_range_tightest_fit (self : Library) (v : float) (E : list Z)
  (drv : native_driver) (h : history) :
match _resolve_range self v E drv h with
| (Ok r, h') =>
    h' = h /\ In r (PICO_VOLTAGE_RANGE self) /\ qualifies v E r /\
    forall x, In x (PICO_VOLTAGE_RANGE self) -> qualifies v E x ->
              PyFloat.le (snd r) (snd x) = true
| (Raise e, h') =>
    h' = h /\ (exists m, e = ArgumentOutOfRangeError m) /\
    forall x, In x (PICO_VOLTAGE_RANGE self) -> ~ qualifies v E x
end.
Proof.
unfold _resolve_range.
destruct (possibilities self v E) as [|first rest] eqn:Hp; simpl.
- split; [reflexivity|]. split; [eexists; reflexivity|].
  intros x Hx Hq.
  assert (Hin : In x (possibilities self v E)) by (apply possibilities_spec; auto).
  rewrite Hp in Hin. destruct Hin.
- assert (Hall : forall x, In x (first :: rest) ->
                           In x (PICO_VOLTAGE_RANGE self) /\ qualifies v E x).
  { intros x Hx. rewrite <- Hp in Hx. apply possibilities_spec. assumption. }
  destruct (py_min_key_spec snd rest first) as [Hin Hmin].
  { intros x Hx. eapply qualifies_not_nan. apply Hall. assumption. }
  split; [reflexivity|].
  destruct (Hall _ Hin) as [Ht Hq]. split; [assumption|]. split; [assumption|].
  intros x Hx Hqx. apply Hmin. rewrite <- Hp. apply possibilities_spec. auto.
Qed.


(** ** The retry loop of [set_channel] *)

Ltac unfold_monad :=
  unfold bind, ret_, raise, call, lift, try_except, getitem, channel_item, range_item,
    argtypes_of, out_of_range_message, status_check in *.

Lemma bind_ret_ {A B} (a : A) (k : A -> M B) (drv : native_driver) (h : history) :
  bind (ret_ a) k drv h = k a drv h.
Proof. reflexivity. Qed.

Lemma bind_lift {A B} (r : result A) (a : A) (k : A -> M B) (drv : native_driver)
    (h : history) :
  r = Ok a -> bind (lift r) k drv h = k a drv h.
Proof. intros ->. reflexivity. Qed.

(** ** Converting the arguments of a native call *)

(** Arguments that every constructor takes are converted one by one. *)
Lemma convert_accepted (args : list pyval) :
  (forall t arg, In arg args -> accepts t arg = true) ->
  forall tys, _convert_args tys args = Ok (converted tys args).
Proof.
  unfold converted.
  induction args as [|arg args IH]; intros Hacc tys; [destruct tys; reflexivity|].
  destruct tys as [|t tys]; [reflexivity|].
  cbn [_convert_args].
  assert (Harg : convert_arg arg t = Ok (CConv t arg)).
  { specialize (Hacc t arg (or_introl eq_refl)).
    destruct arg; cbn in *; try discriminate; try reflexivity;
      rewrite Hacc; reflexivity. }
  rewrite Harg.
  rewrite (IH (fun t' arg' Hin => Hacc t' arg' (or_intror Hin)) tys).
  destruct (_convert_args tys args); reflexivity.
Qed.

Ltac accepted :=
  let t := fresh "t" in
  let arg := fresh "arg" in
  let Hin := fresh "Hin" in
  intros t arg Hin; cbn [In] in Hin;
  repeat (destruct Hin as [<-|Hin]; [reflexivity|]); destruct Hin.

(** The arguments of the 6-parameter [set_channel]: five integers and the
    analog offset, which the sixth parameter has to take. *)
Lemma convert_six (tys : list ctype) (a0 a1 a2 a3 a4 : Z) (x : float) :
  length tys = 6%nat ->
  (forall t y, last tys = Some t -> accepts t (PyFloat y) = true) ->
  _convert_args tys [PyInt a0; PyInt a1; PyInt a2; PyInt a3; PyInt a4; PyFloat x]
  = Ok (converted tys [PyInt a0; PyInt a1; PyInt a2; PyInt a3; PyInt a4; PyFloat x]).
Proof.
  intros Hlen Hfl.
  destruct tys as [|t0 [|t1 [|t2 [|t3 [|t4 [|t5 [|t6 tys]]]]]]]; try discriminate.
  specialize (Hfl t5 x eq_refl). unfold converted. cbn in *. rewrite Hfl. reflexivity.
Qed.

Section SetChannel.

Variables (self : Library) (device : Device) (a : set_channel_args) (drv : native_driver).

(** With the channel being disabled, a driver that keeps answering
    "invalid voltage range" is asked again and again: range 0 is appended to
    the exclusion tuple, which nothing reads. *)
Lemma set_channel_loop_disabled_rejected (tys : list ctype) (ch cp ok bad : Z) (v : float) :
  enabled a = false ->
  argtypes self _set_channel = Some tys -> length tys = 6%nat ->
  PICO_CHANNEL self !! channel_name a = Some ch ->
  PICO_COUPLING self !! coupling a = Some cp ->
  PICO_STATUS self !! "PICO_OK" = Some ok ->
  PICO_STATUS self !! "PICO_INVALID_VOLTAGE_RANGE" = Some bad ->
  ok <> bad ->
  range_lookup 0 (PICO_VOLTAGE_RANGE self) = Some v ->
  (forall t y, last tys = Some t -> accepts t (PyFloat y) = true) ->
  (forall h args, ret (drv h _set_channel args) = bad) ->
  forall fuel excluded h,
    fst (set_channel_loop fuel self device a excluded drv h) = Ok OutOfFuel.
Proof.
  intros Hen Hty Hlen Hch Hcp Hok Hbad Hne Hv Hfl Hdrv.
  induction fuel as [|fuel IH]; intros excluded h; [reflexivity|].
  simpl. unfold _python_set_channel. unfold_monad.
  rewrite Hen, Hch, Hcp, Hty. cbn -[Z.eqb Nat.eqb length _convert_args]. rewrite Hlen.
  cbn -[Z.eqb _convert_args].
  rewrite (convert_six tys _ _ _ _ _ _ Hlen Hfl).
  assert (Hneq : (bad =? ok) = false) by (apply Z.eqb_neq; congruence).
  rewrite Hok. cbn -[Z.eqb]. rewrite !Hdrv, Hneq. cbn -[Z.eqb].
  rewrite Hbad. cbn -[Z.eqb]. rewrite Z.eqb_refl. unfold_monad. rewrite Hv. cbn.
  apply IH.
Qed.


(** On the legacy form the same happens when the driver answers 0. *)
Lemma set_channel_loop_disabled_rejected_legacy (tys : list ctype) (ch cp : Z) (v : float) :
  enabled a = false ->
  analog_offset a = None ->
  argtypes self _set_channel = Some tys ->
  length tys = 5%nat -> second_is tys c_int16 = true ->
  PICO_CHANNEL self !! channel_name a = Some ch ->
  PICO_COUPLING self !! coupling a = Some cp ->
  range_lookup 0 (PICO_VOLTAGE_RANGE self) = Some v ->
  (forall h args, ret (drv h _set_channel args) = 0) ->
  forall fuel excluded h,
    fst (set_channel_loop fuel self device a excluded drv h) = Ok OutOfFuel.
Proof.
  intros Hen Hoff Hty Hlen Hsnd Hch Hcp Hv Hdrv.
  induction fuel as [|fuel IH]; intros excluded h; [reflexivity|].
  simpl. unfold _python_set_channel. unfold_monad.
  rewrite Hen, Hch, Hcp, Hty. cbn -[Z.eqb Nat.eqb length].
  rewrite Hlen, Hsnd, Hoff. cbn -[Z.eqb _convert_args].
  rewrite convert_accepted by accepted.
  rewrite Hdrv. cbn. unfold_monad. rewrite Hv. cbn.
  apply IH.
Qed.

Lemma filter_length_lt {A} (f g : A -> bool) (l : list A) (x : A) :
  (forall y, f y = true -> g y = true) ->
  In x l -> g x = true -> f x = false ->
  (length (List.filter f l) < length (List.filter g l))%nat.
Proof.
  intros Hfg. induction l as [|y l IH]; intros Hin Hg Hf; [destruct Hin|].
  assert (Hle : forall l', (length (List.filter f l') <= length (List.filter g l'))%nat).
  { induction l' as [|z l' IHl']; simpl; [lia|].
    destruct (f z) eqn:Hfz.
    - rewrite (Hfg _ Hfz). simpl. lia.
    - destruct (g z); simpl; lia. }
  simpl. destruct Hin as [->|Hin].
  - rewrite Hf, Hg. simpl. specialize (Hle l). lia.
  - specialize (IH Hin Hg Hf). destruct (f y) eqn:Hfy.
    + rewrite (Hfg _ Hfy). simpl. lia.
    + destruct (g y); simpl; lia.
Qed.

Lemma in_tuple_app (x : Z) (t u : list Z) :
  in_tuple x (t ++ u) = in_tuple x t || in_tuple x u.
Proof. unfold in_tuple. apply existsb_app. Qed.

(** Excluding the identifier of a candidate leaves strictly fewer
    candidates. *)
Lemma possibilities_shrink (v : float) (E : list Z) (r : Z * float) :
  In r (possibilities self v E) ->
  (length (possibilities self v (E ++ [fst r])) < length (possibilities self v E))%nat.
Proof.
  intros Hin. unfold possibilities in *. apply filter_In in Hin as [Hin Hq].
  apply (filter_length_lt _ _ _ r); auto.
  - intros y. rewrite in_tuple_app, negb_orb, !andb_true_iff. tauto.
  - rewrite in_tuple_app. apply andb_true_iff in Hq as [_ Hq].
    simpl. rewrite Z.eqb_refl. simpl.
    rewrite orb_true_r. simpl. apply andb_false_r.
Qed.

Lemma py_min_key_In {A} (key : A -> float) (l : list A) :
  forall cur, In (py_min_key key cur l) (cur :: l).
Proof.
  induction l as [|item l IH]; intros cur; simpl; [auto|].
  destruct (IH (if PyFloat.lt (key item) (key cur) then item else cur)) as [H|H]; auto.
  destruct (PyFloat.lt (key item) (key cur)); rewrite <- H; auto.
Qed.

(** With the channel being enabled, every rejected range leaves the
    candidates, so the loop ends within one more iteration than there are
    candidates: with an accepted call, with an error of the native call, or
    with the resolver's ArgumentOutOfRangeError. *)
Lemma set_channel_loop_enabled_terminates :
  enabled a = true ->
  forall fuel excluded h,
    (length (possibilities self (range_peak a) excluded) < fuel)%nat ->
    fst (set_channel_loop fuel self device a excluded drv h) <> Ok OutOfFuel.
Proof.
  intros Hen. induction fuel as [|fuel IH]; intros excluded h Hlt; [lia|].
  simpl. rewrite Hen. unfold _resolve_range.
  destruct (possibilities self (range_peak a) excluded) as [|first rest] eqn:Hp.
  { unfold_monad. simpl. discriminate. }
  unfold bind at 1. unfold bind at 1. unfold ret_ at 1 2. cbn [fst snd].
  unfold bind at 1.
  match goal with
  | |- context [try_except ?m ?c ?k drv h] => destruct (try_except m c k drv h) as [[[]|e] h']
  end.
  - simpl. discriminate.
  - apply IH.
    assert (Hin : In (py_min_key snd first rest) (possibilities self (range_peak a) excluded))
      by (rewrite Hp; apply py_min_key_In).
    apply possibilities_shrink in Hin. rewrite Hp in Hin. lia.
  - simpl. discriminate.
Qed.

(** A run that does not stop for lack of fuel is a run of the loop itself:
    more fuel does not change it. *)
Lemma set_channel_loop_enabled_bound :
  enabled a = true ->
  forall h,
    fst (set_channel_loop (S (length (PICO_VOLTAGE_RANGE self))) self device a [] drv h)
    <> Ok OutOfFuel.
Proof.
  intros Hen h. apply set_channel_loop_enabled_terminates; [assumption|].
  unfold possibilities.
  pose proof (filter_length_le
                (fun tup => PyFloat.ge (snd tup) (range_peak a) && negb (in_tuple (fst tup) []))
                (PICO_VOLTAGE_RANGE self)).
  lia.
Qed.

End SetChannel.

(** C2: disabling channel A on [ps4000a] against a driver that answers every
    [set_channel] with PICO_INVALID_VOLTAGE_RANGE: whatever the number of
    iterations allowed, the loop has not returned. *)
Theorem set_channel_disable_rejected_never_returns (fuel : nat) :
  fst (set_channel fuel ps4000a (Obj_Device own_device)
         {| channel_name := inl "A"; enabled := false; coupling := "DC";
            range_peak := infinity; analog_offset := None |}
         (answering 15) [])
  = Ok OutOfFuel.
Proof.
  unfold set_channel, requires_device. simpl.
  eapply set_channel_loop_disabled_rejected with (ok := 0) (bad := 15);
    try reflexivity; try discriminate.
  intros t y [= <-]. reflexivity.
Qed.

(** ** [_python_set_channel]: status codes and the analog offset *)

Section PythonSetChannel.

Variables (self : Library) (handle channel_id coupling_id range_id : Z).
Variables (drv : native_driver) (h : history).

Lemma second_is_exclusive (tys : list ctype) :
  second_is tys c_int32 = true -> second_is tys c_int16 = false.
Proof.
  destruct tys as [|t0 [|t1 tys]]; simpl; try discriminate.
  intros H. apply bool_decide_eq_true in H. subst. reflexivity.
Qed.

(** What the 6-parameter form does, by the status the driver answers. *)
Lemma python_set_channel_six (tys : list ctype) (enabled : Z) (off : option float) (ok : Z) :
  argtypes self _set_channel = Some tys ->
  length tys = 6%nat ->
  (forall t y, last tys = Some t -> accepts t (PyFloat y) = true) ->
  PICO_STATUS self !! "PICO_OK" = Some ok ->
  let args := [PyInt handle; PyInt channel_id; PyInt enabled; PyInt coupling_id;
               PyInt range_id; PyFloat (default 0%float off)] in
  let ev := set_channel_event drv h tys args in
  let status := ret (ev_resp ev) in
  _python_set_channel self handle channel_id enabled coupling_id range_id off drv h =
  if status =? ok then (Ok tt, h ++ [ev])
  else
    (bad_range <- getitem (PICO_STATUS self) "PICO_INVALID_VOLTAGE_RANGE" ;;
     if status =? bad_range then
       m <- out_of_range_message self range_id ;;
       raise (ValidRangeEnumValueNotValidForThisDevice m)
     else
       bad_channel <- getitem (PICO_STATUS self) "PICO_INVALID_CHANNEL" ;;
       if (status =? bad_channel) && (enabled =? 0) then ret_ tt
       else
         tag <- lift (pico_tag self status) ;;
         raise (ArgumentOutOfRangeError
                  [Text "problem configuring channel ("; Str tag; Text ")"]))
      drv (h ++ [ev]).
Proof.
  intros Hty Hlen Hfl Hok. unfold _python_set_channel.
  unfold bind at 1. unfold argtypes_of. rewrite Hty. unfold ret_ at 1.
  rewrite Hlen. cbn -[Z.eqb _convert_args].
  unfold bind at 1. unfold getitem at 1. rewrite Hok. unfold ret_ at 1.
  unfold bind at 1. unfold bind at 1. unfold lift at 1.
  change (match off with Some x => x | None => 0%float end) with (default 0%float off).
  rewrite (convert_six tys _ _ _ _ _ _ Hlen Hfl).
  unfold bind at 1. unfold call at 1.
  unfold ret_ at 1. unfold bind at 1. unfold getitem at 1. rewrite Hok. unfold ret_ at 1.
  unfold set_channel_event. cbn -[Z.eqb converted getitem lift].
  destruct (_ =? ok); reflexivity.
Qed.

(** The same for the 5-parameter form with a 32-bit second parameter, when no
    analog offset is given. *)
Lemma python_set_channel_five32 (tys : list ctype) (enabled : Z) (ok : Z) :
  argtypes self _set_channel = Some tys ->
  length tys = 5%nat -> second_is tys c_int32 = true ->
  PICO_STATUS self !! "PICO_OK" = Some ok ->
  let args := [PyInt handle; PyInt channel_id; PyInt enabled; PyInt coupling_id;
               PyInt range_id] in
  let ev := set_channel_event drv h tys args in
  let status := ret (ev_resp ev) in
  _python_set_channel self handle channel_id enabled coupling_id range_id None drv h =
  if status =? ok then (Ok tt, h ++ [ev])
  else
    (bad_range <- getitem (PICO_STATUS self) "PICO_INVALID_VOLTAGE_RANGE" ;;
     if status =? bad_range then
       m <- out_of_range_message self range_id ;;
       raise (ValidRangeEnumValueNotValidForThisDevice m)
     else
       bad_channel <- getitem (PICO_STATUS self) "PICO_INVALID_CHANNEL" ;;
       if (status =? bad_channel) && (enabled =? 0) then ret_ tt
       else
         tag <- lift (pico_tag self status) ;;
         raise (ArgumentOutOfRangeError
                  [Text "problem configuring channel ("; Str tag; Text ")"]))
      drv (h ++ [ev]).
Proof.
  intros Hty Hlen Hsnd Hok. unfold _python_set_channel.
  unfold bind at 1. unfold argtypes_of. rewrite Hty. unfold ret_ at 1.
  rewrite Hlen, Hsnd, (second_is_exclusive _ Hsnd). cbn -[Z.eqb _convert_args].
  unfold bind at 1. unfold getitem at 1. rewrite Hok. unfold ret_ at 1.
  unfold bind at 1. unfold bind at 1. unfold lift at 1.
  rewrite convert_accepted by accepted.
  unfold bind at 1. unfold call at 1.
  unfold ret_ at 1. unfold bind at 1. unfold getitem at 1. rewrite Hok. unfold ret_ at 1.
  unfold set_channel_event. cbn -[Z.eqb converted getitem lift].
  destruct (_ =? ok); reflexivity.
Qed.

(** What follows a status other than PICO_OK, once the two statuses the
    wrapper tells apart are known. *)
Lemma status_tail_cases (enabled : Z) (status bad_range bad_channel : Z) (h' : history) :
  PICO_STATUS self !! "PICO_INVALID_VOLTAGE_RANGE" = Some bad_range ->
  PICO_STATUS self !! "PICO_INVALID_CHANNEL" = Some bad_channel ->
  bad_channel <> bad_range ->
  let tail :=
    (bad_range <- getitem (PICO_STATUS self) "PICO_INVALID_VOLTAGE_RANGE" ;;
     if status =? bad_range then
       m <- out_of_range_message self range_id ;;
       raise (ValidRangeEnumValueNotValidForThisDevice m)
     else
       bad_channel <- getitem (PICO_STATUS self) "PICO_INVALID_CHANNEL" ;;
       if (status =? bad_channel) && (enabled =? 0) then ret_ tt
       else
         tag <- lift (pico_tag self status) ;;
         raise (ArgumentOutOfRangeError
                  [Text "problem configuring channel ("; Str tag; Text ")"]))
      drv h' in
  snd tail = h' /\
  (status = bad_channel -> enabled = 0 -> fst tail = Ok tt) /\
  (status = bad_channel -> enabled <> 0 -> exists e, fst tail = Raise e) /\
  (status <> bad_channel -> exists e, fst tail = Raise e).
Proof.
  intros Hrange Hchannel Hdistinct tail. unfold tail.
  do 2 unfold_monad. rewrite Hrange, Hchannel. cbn -[Z.eqb].
  destruct (Z.eqb_spec status bad_range) as [Heq|Hneq].
  - destruct (range_lookup range_id (PICO_VOLTAGE_RANGE self)); cbn;
      (split; [reflexivity|]); (split; [intros ->; congruence|]);
      split; intros; eexists; reflexivity.
  - destruct (Z.eqb_spec status bad_channel) as [Heq'|Hneq'],
             (Z.eqb_spec enabled 0) as [Hen|Hen]; cbn -[Z.eqb];
      try (destruct (pico_tag self status)); cbn;
      (split; [reflexivity|]);
      (split; [intros; try reflexivity; congruence|]);
      (split; intros; try congruence; eexists; reflexivity).
Qed.

End PythonSetChannel.

(** C5: on the status-code forms of the native [set_channel] (6 parameters
    with a sixth that takes a float, or 5 with a 32-bit second parameter), one
    native call is made, and when that call answers a status other than
    PICO_OK: the wrapper returns normally if the status is
    PICO_INVALID_CHANNEL and the channel was being disabled; it raises if the
    status is PICO_INVALID_CHANNEL and the channel was being enabled, and for
    every other status. *)
Theorem disabling_missing_channel_is_not_an_error
    (self : Library) (handle channel_id coupling_id range_id : Z) (enabled : bool)
    (off : option float) (drv : native_driver) (h : history) (tys : list ctype)
    (ok bad_range bad_channel : Z) :
  argtypes self _set_channel = Some tys ->
  (length tys = 6%nat /\ forall t y, last tys = Some t -> accepts t (PyFloat y) = true) \/
  (length tys = 5%nat /\ second_is tys c_int32 = true /\ off = None) ->
  PICO_STATUS self !! "PICO_OK" = Some ok ->
  PICO_STATUS self !! "PICO_INVALID_VOLTAGE_RANGE" = Some bad_range ->
  PICO_STATUS self !! "PICO_INVALID_CHANNEL" = Some bad_channel ->
  bad_channel <> bad_range ->
  let run := _python_set_channel self handle channel_id (if enabled then 1 else 0)
                                 coupling_id range_id off drv h in
  exists ev,
    snd run = h ++ [ev] /\ ev_sym ev = _set_channel /\
    ev_resp ev = drv h _set_channel (ev_args ev) /\
    let status := ret (ev_resp ev) in
    status <> ok ->
    (status = bad_channel -> enabled = false -> fst run = Ok tt) /\
    (status = bad_channel -> enabled = true -> exists e, fst run = Raise e) /\
    (status <> bad_channel -> exists e, fst run = Raise e).
Proof.
  intros Hty Hform Hok Hrange Hchannel Hdistinct run.
  assert (Hrun : exists ev,
            ev_sym ev = _set_channel /\ ev_resp ev = drv h _set_channel (ev_args ev) /\
            run =
            if ret (ev_resp ev) =? ok then (Ok tt, h ++ [ev])
            else
            (bad_range' <- getitem (PICO_STATUS self) "PICO_INVALID_VOLTAGE_RANGE" ;;
             if ret (ev_resp ev) =? bad_range' then
               m <- out_of_range_message self range_id ;;
               raise (ValidRangeEnumValueNotValidForThisDevice m)
             else
               bad_channel' <- getitem (PICO_STATUS self) "PICO_INVALID_CHANNEL" ;;
               if (ret (ev_resp ev) =? bad_channel') && ((if enabled then 1 else 0) =? 0)
               then ret_ tt
               else
                 tag <- lift (pico_tag self (ret (ev_resp ev))) ;;
                 raise (ArgumentOutOfRangeError
                          [Text "problem configuring channel ("; Str tag; Text ")"]))
              drv (h ++ [ev])).
  { destruct Hform as [[Hlen Hfl]|(Hlen & Hsnd & ->)]; unfold run.
    - rewrite (python_set_channel_six _ _ _ _ _ _ _ tys _ _ ok Hty Hlen Hfl Hok).
      cbn zeta. eexists. split; [|split; [|reflexivity]]; reflexivity.
    - rewrite (python_set_channel_five32 _ _ _ _ _ _ _ tys _ ok Hty Hlen Hsnd Hok).
      cbn zeta. eexists. split; [|split; [|reflexivity]]; reflexivity. }
  destruct Hrun as (ev & Hsym & Hresp & Hrun).
  exists ev.
  pose proof (status_tail_cases self range_id drv (if enabled then 1 else 0)
                (ret (ev_resp ev)) bad_range bad_channel (h ++ [ev])
                Hrange Hchannel Hdistinct) as Htail.
  cbn zeta in Htail. destruct Htail as (Hsnd & Hdis & Hen & Hother).
  split; [|split; [assumption|split; [assumption|]]].
  - rewrite Hrun. destruct (ret (ev_resp ev) =? ok); [reflexivity|exact Hsnd].
  - intros status Hstatus. apply Z.eqb_neq in Hstatus. unfold status in *.
    rewrite Hrun, Hstatus. split; [|split].
    + intros Hbad ->. apply Hdis; [assumption|reflexivity].
    + intros Hbad ->. apply Hen; [assumption|discriminate].
    + assumption.
Qed.

Lemma disabling_missing_channel_is_not_an_error_witness :
  fst (_python_set_channel ps4000a 1 7 0 1 0 None (answering 16) []) = Ok tt.
Proof.
  set (tys := [c_int16; c_int32; c_int16; c_int32; c_int32; c_float]).
  assert (Hform : (length tys = 6%nat /\
                   forall t y, last tys = Some t -> accepts t (PyFloat y) = true) \/
                  (length tys = 5%nat /\ second_is tys c_int32 = true /\ @None float = None)).
  { left. split; [reflexivity|]. intros t y [= <-]. reflexivity. }
  assert (Hdistinct : 16 <> 15) by discriminate.
  destruct (disabling_missing_channel_is_not_an_error
              ps4000a 1 7 1 0 false None (answering 16) [] tys 0 15 16
              eq_refl Hform eq_refl eq_refl eq_refl Hdistinct)
    as (ev & _ & _ & Hresp & Hstatus).
  cbn zeta in Hstatus. rewrite Hresp in Hstatus.
  apply Hstatus; [discriminate|reflexivity|reflexivity].
Defined.

(** C9: bound to the 6-parameter form, an omitted analog offset is the offset
    0.0: the run is the one for [analog_offset = 0.0], and, the sixth
    parameter being one that takes a float, the one native call made carries
    the offset (given or defaulted) as its sixth argument.
    Bound to the 5-parameter form, with a 16-bit or a 32-bit second
    parameter, a given analog offset raises ArgumentOutOfRangeError and the
    history of native calls is unchanged. *)
Theorem analog_offset_by_arity
    (self : Library) (handle channel_id enabled coupling_id range_id : Z)
    (drv : native_driver) (h : history) (tys : list ctype) (ok : Z) :
  argtypes self _set_channel = Some tys ->
  PICO_STATUS self !! "PICO_OK" = Some ok ->
  let run off :=
    _python_set_channel self handle channel_id enabled coupling_id range_id off drv h in
  (length tys = 6%nat ->
   run None = run (Some 0%float) /\
   ((forall t y, last tys = Some t -> accepts t (PyFloat y) = true) ->
    forall off,
      let ev := set_channel_event drv h tys
                  [PyInt handle; PyInt channel_id; PyInt enabled; PyInt coupling_id;
                   PyInt range_id; PyFloat (default 0%float off)] in
      snd (run off) = h ++ [ev] /\
      exists t, last tys = Some t /\
                last (ev_args ev) = Some (CConv t (PyFloat (default 0%float off))))) /\
  (length tys = 5%nat ->
   second_is tys c_int16 = true \/ second_is tys c_int32 = true ->
   forall x, run (Some x) = (Raise (ArgumentOutOfRangeError no_offset_message), h)).
Proof.
  intros Hty Hok run. split.
  - intros Hlen. split.
    + unfold run, _python_set_channel, argtypes_of. rewrite Hty, !bind_ret_, Hlen.
      reflexivity.
    + intros Hfl off ev. split.
      * unfold run.
        rewrite (python_set_channel_six _ _ _ _ _ _ _ tys _ _ ok Hty Hlen Hfl Hok).
        cbn zeta. fold ev. destruct (ret (ev_resp ev) =? ok); [reflexivity|].
        clear. do 2 unfold_monad.
        destruct (PICO_STATUS self !! "PICO_INVALID_VOLTAGE_RANGE") as [bad_range|];
          [|reflexivity].
        destruct (_ =? bad_range).
        -- destruct (range_lookup range_id (PICO_VOLTAGE_RANGE self)); reflexivity.
        -- destruct (PICO_STATUS self !! "PICO_INVALID_CHANNEL") as [bad_channel|];
             [|reflexivity].
           destruct ((_ =? bad_channel) && (enabled =? 0)); [reflexivity|].
           destruct (pico_tag self _); reflexivity.
      * unfold ev, set_channel_event. cbn [ev_args].
        destruct tys as [|t0 [|t1 [|t2 [|t3 [|t4 [|t5 [|t6 tys]]]]]]]; try discriminate.
        exists t5. split; [reflexivity|].
        pose proof (Hfl t5 (default 0%float off) eq_refl) as Hacc.
        unfold converted. cbn in *. rewrite Hacc. reflexivity.
  - intros Hlen Hsnd x. unfold run, _python_set_channel.
    unfold bind at 1. unfold argtypes_of. rewrite Hty. unfold ret_ at 1. rewrite Hlen.
    destruct Hsnd as [Hsnd|Hsnd].
    + rewrite Hsnd. reflexivity.
    + rewrite Hsnd, (second_is_exclusive _ Hsnd). cbn -[Z.eqb _convert_args].
      unfold bind at 1. unfold getitem at 1. rewrite Hok. reflexivity.
Qed.

Lemma analog_offset_by_arity_witness :
  snd (_python_set_channel ps4000a 1 0 1 1 9 None (answering 0) []) =
    [set_channel_event (answering 0) [] [c_int16; c_int32; c_int16; c_int32; c_int32; c_float]
       [PyInt 1; PyInt 0; PyInt 1; PyInt 1; PyInt 9; PyFloat 0%float]] /\
  _python_set_channel legacy16 1 0 1 1 9 (Some 0.5%float) (answering 0) [] =
    (Raise (ArgumentOutOfRangeError no_offset_message), []) /\
  _python_set_channel legacy32 1 0 1 1 9 (Some 0.5%float) (answering 0) [] =
    (Raise (ArgumentOutOfRangeError no_offset_message), []).
Proof.
  split; [|split].
  - refine (proj1 (proj2 (proj1 (analog_offset_by_arity ps4000a 1 0 1 1 9 (answering 0) []
              [c_int16; c_int32; c_int16; c_int32; c_int32; c_float] 0 _ _) _) _ None));
      try reflexivity.
    intros t y [= <-]. reflexivity.
  - refine (proj2 (analog_offset_by_arity legacy16 1 0 1 1 9 (answering 0) []
              [c_int16; c_int16; c_int16; c_int16; c_int16] 0 _ _) _ _ _);
      try reflexivity. left. reflexivity.
  - refine (proj2 (analog_offset_by_arity legacy32 1 0 1 1 9 (answering 0) []
              [c_int16; c_int32; c_int16; c_int32; c_int32] 0 _ _) _ _ _);
      try reflexivity. right. reflexivity.
Defined.

(** ** [get_timebase] *)

Section GetTimebase.

Variables (self : Library) (d : Device) (a : get_timebase_args).
Variables (drv : native_driver) (h : history).
Hypothesis Hown : driver d = ident self.

Lemma get_timebase_legacy_eq (tys : list ctype) :
  argtypes self _get_timebase = Some tys ->
  (length tys =? 7)%nat && second_is tys c_int16 = true ->
  get_timebase self (Obj_Device d) a drv h =
  match _convert_args tys
          [PyInt (handle d); PyInt (gt_timebase_id a); PyInt (gt_no_of_samples a);
           PyCObj c_int32 "time_interval" 0; PyCObj c_int16 "time_units" 0;
           PyInt (gt_oversample a); PyCObj c_int32 "max_samples" 0] with
  | Raise e => (Raise e, h)
  | Ok args =>
      let r := drv h _get_timebase args in
      (if ret r =? 0 then Raise (InvalidTimebaseError [])
       else Ok {| timebase_id := gt_timebase_id a;
                  time_interval :=
                    (PyFloat.of_Z (int_value 32 "time_interval" 0 args r) * nano)%float;
                  time_units := Some (int_value 16 "time_units" 0 args r);
                  max_samples := int_value 32 "max_samples" 0 args r;
                  segment_id := None |},
       h ++ [{| ev_sym := _get_timebase; ev_args := args; ev_resp := r |}])
  end.
Proof.
  intros Hty Hshape. unfold get_timebase, requires_device.
  rewrite bool_decide_eq_false_2 by (intros Hne; apply Hne; exact Hown).
  unfold _python_get_timebase. unfold bind at 1. unfold bind at 1.
  unfold argtypes_of at 1. rewrite Hty. unfold ret_ at 1.
  rewrite Hshape. cbn zeta.
  unfold bind at 1. unfold lift at 1.
  destruct (_convert_args tys _) as [args|e]; [|reflexivity].
  unfold bind at 1. unfold call at 1.
  destruct (ret (drv h _get_timebase args) =? 0); reflexivity.
Qed.

Lemma get_timebase_current_eq (tys tys2 : list ctype) (ok : Z) :
  argtypes self _get_timebase = Some tys ->
  (length tys =? 7)%nat && second_is tys c_int16 = false ->
  argtypes self _get_timebase2 = Some tys2 ->
  (length tys2 =? 7)%nat && second_is tys2 c_uint32 = true ->
  PICO_STATUS self !! "PICO_OK" = Some ok ->
  get_timebase self (Obj_Device d) a drv h =
  match _convert_args tys2
          [PyInt (handle d); PyInt (gt_timebase_id a); PyInt (gt_no_of_samples a);
           PyCObj c_float "time_interval" 0; PyInt (gt_oversample a);
           PyCObj c_int32 "max_samples" 0; PyInt (gt_segment_index a)] with
  | Raise e => (Raise e, h)
  | Ok args =>
      let r := drv h _get_timebase2 args in
      (if ret r =? ok then
         Ok {| timebase_id := gt_timebase_id a;
               time_interval := (float_value "time_interval" 0%float args r * nano)%float;
               time_units := None;
               max_samples := int_value 32 "max_samples" 0 args r;
               segment_id := Some (gt_segment_index a) |}
       else
         match pico_tag self (ret r) with
         | Ok tag =>
             Raise (InvalidTimebaseError [Text "get_timebase2 failed ("; Str tag; Text ")"])
         | Raise e => Raise e
         end,
       h ++ [{| ev_sym := _get_timebase2; ev_args := args; ev_resp := r |}])
  end.
Proof.
  intros Hty Hshape Hty2 Hshape2 Hok. unfold get_timebase, requires_device.
  rewrite bool_decide_eq_false_2 by (intros Hne; apply Hne; exact Hown).
  unfold _python_get_timebase. unfold bind at 1. unfold bind at 1.
  unfold argtypes_of at 1. rewrite Hty. unfold ret_ at 1.
  rewrite Hshape, Hty2, Hshape2. cbn zeta.
  unfold bind at 1. unfold lift at 1.
  destruct (_convert_args tys2 _) as [args|e]; [|reflexivity].
  unfold bind at 1. unfold call at 1.
  unfold bind at 1. unfold getitem at 1. rewrite Hok. unfold ret_ at 1.
  destruct (ret (drv h _get_timebase2 args) =? ok); [reflexivity|].
  cbn [negb]. unfold bind, lift, raise.
  destruct (pico_tag self _); reflexivity.
Qed.

End GetTimebase.

(** X25: the constant the interval is multiplied by is the binary64 value
    nearest to 10^-9.  For a device registered to the library, [get_timebase]
    takes the legacy shape exactly when the bound [_get_timebase] has 7
    parameters, the second a [c_int16], and otherwise the timebase2 shape
    when [_get_timebase2] is bound with 7 parameters, the second a
    [c_uint32].  In both shapes a failing conversion of the arguments is the
    outcome, with no native call; otherwise one native call is made.  A zero
    return (legacy) raises InvalidTimebaseError; a status other than PICO_OK
    (timebase2) raises InvalidTimebaseError with the tag of the status when
    [constants.pico_tag] returns one, and what [pico_tag] raises when it
    raises; otherwise the interval returned is the nanoseconds the driver
    wrote, multiplied by the constant. *)
Theorem get_timebase_seconds
    (self : Library) (d : Device) (a : get_timebase_args) (drv : native_driver)
    (h : history) (tys : list ctype) :
  driver d = ident self ->
  argtypes self _get_timebase = Some tys ->
  let run := get_timebase self (Obj_Device d) a drv h in
  (Prim2SF nano = S754_finite false 4835703278458517 (-82) /\
   2 * Z.abs (4835703278458517 * 10 ^ 9 - 2 ^ 82) <= 10 ^ 9) /\
  ((length tys =? 7)%nat && second_is tys c_int16 = true ->
   let converted_args :=
     _convert_args tys
       [PyInt (handle d); PyInt (gt_timebase_id a); PyInt (gt_no_of_samples a);
        PyCObj c_int32 "time_interval" 0; PyCObj c_int16 "time_units" 0;
        PyInt (gt_oversample a); PyCObj c_int32 "max_samples" 0] in
   (forall e, converted_args = Raise e -> run = (Raise e, h)) /\
   forall args, converted_args = Ok args ->
     let r := drv h _get_timebase args in
     snd run = h ++ [{| ev_sym := _get_timebase; ev_args := args; ev_resp := r |}] /\
     (ret r = 0 -> fst run = Raise (InvalidTimebaseError [])) /\
     (ret r <> 0 ->
      exists info, fst run = Ok info /\
        time_interval info
        = (PyFloat.of_Z (int_value 32 "time_interval" 0 args r) * nano)%float)) /\
  ((length tys =? 7)%nat && second_is tys c_int16 = false ->
   forall tys2 ok,
     argtypes self _get_timebase2 = Some tys2 ->
     (length tys2 =? 7)%nat && second_is tys2 c_uint32 = true ->
     PICO_STATUS self !! "PICO_OK" = Some ok ->
     let converted_args :=
       _convert_args tys2
         [PyInt (handle d); PyInt (gt_timebase_id a); PyInt (gt_no_of_samples a);
          PyCObj c_float "time_interval" 0; PyInt (gt_oversample a);
          PyCObj c_int32 "max_samples" 0; PyInt (gt_segment_index a)] in
     (forall e, converted_args = Raise e -> run = (Raise e, h)) /\
     forall args, converted_args = Ok args ->
       let r := drv h _get_timebase2 args in
       snd run = h ++ [{| ev_sym := _get_timebase2; ev_args := args; ev_resp := r |}] /\
       (ret r <> ok ->
        forall tag, pico_tag self (ret r) = Ok tag ->
          fst run = Raise (InvalidTimebaseError
                             [Text "get_timebase2 failed ("; Str tag; Text ")"])) /\
       (ret r <> ok -> forall e, pico_tag self (ret r) = Raise e -> fst run = Raise e) /\
       (ret r = ok ->
        exists info, fst run = Ok info /\
          time_interval info
          = (float_value "time_interval" 0%float args r * nano)%float)).
Proof.
  intros Hown Hty run. split; [|split].
  - split; [reflexivity|]. vm_compute. discriminate.
  - intros Hshape converted_args. unfold run.
    rewrite (get_timebase_legacy_eq self d a drv h Hown tys Hty Hshape).
    fold converted_args. split.
    + intros e He. rewrite He. reflexivity.
    + intros args Hargs. rewrite Hargs. cbn zeta. cbn [fst snd]. split; [reflexivity|].
      destruct (Z.eqb_spec (ret (drv h _get_timebase args)) 0) as [Hz|Hnz].
      * split; [reflexivity|]. intros Hc. contradiction.
      * split; [intros Hc; contradiction|]. intros _. eexists. split; reflexivity.
  - intros Hshape tys2 ok Hty2 Hshape2 Hok converted_args. unfold run.
    rewrite (get_timebase_current_eq self d a drv h Hown tys tys2 ok Hty Hshape Hty2 Hshape2 Hok).
    fold converted_args. split.
    + intros e He. rewrite He. reflexivity.
    + intros args Hargs. rewrite Hargs. cbn zeta. cbn [fst snd]. split; [reflexivity|].
      destruct (Z.eqb_spec (ret (drv h _get_timebase2 args)) ok) as [Hz|Hnz].
      * split; [intros Hc; contradiction|]. split; [intros Hc; contradiction|].
        intros _. eexists. split; reflexivity.
      * split; [|split; [|intros Hc; contradiction]].
        -- intros _ tag ->. reflexivity.
        -- intros _ e ->. reflexivity.
Qed.

Lemma get_timebase_seconds_witness :
  (exists info,
     fst (get_timebase timebase_legacy (Obj_Device own_device)
            {| gt_timebase_id := 3; gt_no_of_samples := 100; gt_oversample := 1;
               gt_segment_index := 0 |} (timing 8) []) = Ok info /\
     time_interval info = (8 * nano)%float) /\
  (exists info,
     fst (get_timebase timebase_current (Obj_Device own_device)
            {| gt_timebase_id := 3; gt_no_of_samples := 100; gt_oversample := 1;
               gt_segment_index := 0 |} (timing 8) []) = Ok info /\
     time_interval info = (8 * nano)%float) /\
  fst (get_timebase timebase_current (Obj_Device own_device)
         {| gt_timebase_id := 3; gt_no_of_samples := 100; gt_oversample := 1;
            gt_segment_index := 0 |} (refusing 3) [])
  = Raise (InvalidTimebaseError [Text "get_timebase2 failed ("; Str "PICO_NOT_FOUND"; Text ")"]).
Proof.
  split; [|split].
  - pose proof (get_timebase_seconds timebase_legacy own_device
                  {| gt_timebase_id := 3; gt_no_of_samples := 100; gt_oversample := 1;
                     gt_segment_index := 0 |} (timing 8) []
                  [c_int16; c_int16; c_int32; c_void_p; c_void_p; c_int16; c_void_p]
                  eq_refl eq_refl) as H.
    cbn zeta in H. destruct H as (_ & Hlegacy & _).
    destruct (Hlegacy eq_refl) as [_ Hrun].
    destruct (Hrun _ eq_refl) as (_ & _ & Hok).
    apply Hok. discriminate.
  - pose proof (get_timebase_seconds timebase_current own_device
                  {| gt_timebase_id := 3; gt_no_of_samples := 100; gt_oversample := 1;
                     gt_segment_index := 0 |} (timing 8) []
                  [c_int16; c_uint32; c_int32; c_void_p; c_void_p; c_uint32]
                  eq_refl eq_refl) as H.
    cbn zeta in H. destruct H as (_ & _ & Hcurrent).
    destruct (Hcurrent eq_refl
                [c_int16; c_uint32; c_int32; c_void_p; c_int16; c_void_p; c_uint32] 0
                eq_refl eq_refl eq_refl) as [_ Hrun].
    destruct (Hrun _ eq_refl) as (_ & _ & _ & Hok).
    apply Hok. reflexivity.
  - pose proof (get_timebase_seconds timebase_current own_device
                  {| gt_timebase_id := 3; gt_no_of_samples := 100; gt_oversample := 1;
                     gt_segment_index := 0 |} (refusing 3) []
                  [c_int16; c_uint32; c_int32; c_void_p; c_void_p; c_uint32]
                  eq_refl eq_refl) as H.
    cbn zeta in H. destruct H as (_ & _ & Hcurrent).
    destruct (Hcurrent eq_refl
                [c_int16; c_uint32; c_int32; c_void_p; c_int16; c_void_p; c_uint32] 0
                eq_refl eq_refl eq_refl) as [_ Hrun].
    destruct (Hrun _ eq_refl) as (_ & Hknown & _).
    apply Hknown; [discriminate|reflexivity].
Defined.

(** C3: a status other than PICO_OK does not always raise
    InvalidTimebaseError.  On the timebase2 form, with a driver that answers
    the one native call with the status [0xFFFFFFFF], which is not PICO_OK
    and which [constants.pico_tag] does not know, what [get_timebase] raises
    is not an InvalidTimebaseError: the tag is looked up before the exception
    is built. *)
Theorem get_timebase_unknown_status :
  let run := get_timebase timebase_current (Obj_Device own_device)
               {| gt_timebase_id := 3; gt_no_of_samples := 100; gt_oversample := 1;
                  gt_segment_index := 0 |} (refusing 4294967295) [] in
  PICO_STATUS timebase_current !! "PICO_OK" = Some 0 /\
  (exists ev, snd run = [ev] /\ ev_sym ev = _get_timebase2 /\
              ret (ev_resp ev) = 4294967295) /\
  ~ exists m, fst run = Raise (InvalidTimebaseError m).
Proof.
  split; [reflexivity|]. split.
  - eexists. split; [vm_compute; reflexivity|]. split; reflexivity.
  - intros [m Hm]. vm_compute in Hm. discriminate.
Qed.

(** ** The overflow warning of [get_values] *)

Lemma land_one_shifted (overflow n : Z) :
  0 <= n -> (Z.land overflow (Z.shiftr 1 n) =? 0) = negb ((n =? 0) && Z.odd overflow).
Proof.
  intros Hn. destruct (Z.eqb_spec n 0) as [->|Hne].
  - rewrite Z.shiftr_0_r. change 1 with (Z.ones 1). rewrite Z.land_ones by lia.
    change (2 ^ 1) with 2. rewrite Zmod_odd. destruct (Z.odd overflow); reflexivity.
  - rewrite Z.shiftr_div_pow2 by lia. rewrite Z.div_small.
    + rewrite Z.land_0_r. reflexivity.
    + split; [lia|]. change 1 with (2 ^ 0). apply Z.pow_lt_mono_r; lia.
Qed.

(** The test [overflow.value & (1 >> index)] singles out the channels of
    index 0, and only when bit 0 of the overflow field is set. *)
Lemma overflow_channels_spec (channels : gmap (string + Z) Z) (overflow : Z)
    (drv : native_driver) (h : history) (keys : list (string + Z)) :
  (forall k, In k keys -> exists n, channels !! k = Some n /\ 0 <= n) ->
  overflow_channels channels overflow keys drv h =
  (Ok (List.filter (fun k => bool_decide (channels !! k = Some 0) && Z.odd overflow) keys), h).
Proof.
  induction keys as [|k keys IH]; intros Hkeys; [reflexivity|].
  destruct (Hkeys k) as (n & Hk & Hn); [left; reflexivity|].
  cbn [overflow_channels List.filter]. unfold bind at 1. unfold channel_item. rewrite Hk.
  unfold ret_ at 1. unfold bind at 1. unfold one_shifted_right.
  destruct (Z.ltb_spec n 0) as [?|_]; [lia|]. unfold ret_ at 1.
  unfold bind at 1. rewrite IH by (intros k' Hk'; apply Hkeys; right; exact Hk').
  rewrite land_one_shifted by assumption. rewrite negb_involutive.
  destruct (Z.eqb_spec n 0) as [->|Hne].
  - rewrite bool_decide_eq_true_2 by reflexivity. destruct (Z.odd overflow); reflexivity.
  - rewrite bool_decide_eq_false_2 by congruence. reflexivity.
Qed.

(** C4: channel B has index 1 and the driver sets bit 1 of the overflow
    field, yet [get_values] returns an empty overflow warning. *)
Theorem overflow_of_channel_B_is_not_reported :
  PICO_CHANNEL ps4000a !! inl "B" = Some 1 /\
  Z.testbit 2 1 = true /\
  exists v,
    fst (get_values ps4000a (Obj_Device own_device)
           {| active_channels := [inl "B"]; no_of_samples := 4; gv_segment_index := 0 |}
           (overflowing 2) []) = Ok v /\
    overflow_warning v = [].
Proof.
  split; [reflexivity|]. split; [reflexivity|].
  eexists. split; [vm_compute; reflexivity|]. reflexivity.
Qed.

(** ** Unit information *)

Section UnitInfo.

Variable self : Library.

Lemma unknown_keys_spec (keys : list string) :
  forall seen k,
    In k (unknown_keys (PICO_INFO self) keys seen) <->
    In k keys /\ PICO_INFO self !! k = None /\ ~ In k seen.
Proof.
  induction keys as [|k0 keys IH]; intros seen k; simpl; [tauto|].
  destruct (PICO_INFO self !! k0) eqn:Hk0.
  - rewrite IH. split.
    + intros (? & ? & ?). auto.
    + intros ([<-|?] & ? & ?); [congruence|auto].
  - destruct (existsb (String.eqb k0) seen) eqn:Hseen.
    + rewrite IH. apply existsb_exists in Hseen as (x & Hx & Heq).
      apply String.eqb_eq in Heq. subst x. split.
      * intros (? & ? & ?). auto.
      * intros ([<-|?] & ? & ?); [contradiction|auto].
    + assert (Hnot : ~ In k0 seen).
      { intros Hin. apply not_true_iff_false in Hseen. apply Hseen.
        apply existsb_exists. exists k0. split; [assumption|apply String.eqb_refl]. }
      simpl. rewrite IH. simpl. split.
      * intros [<-|(? & ? & ?)]; [auto|]. split; [auto|]. split; [auto|]. tauto.
      * intros ([<-|?] & ? & ?); [auto|].
        destruct (String.eqb_spec k0 k) as [->|Hne]; [auto|]. right.
        split; [assumption|]. split; [assumption|]. intros [?|?]; auto.
Qed.

Lemma unknown_keys_NoDup (keys : list string) :
  forall seen, List.NoDup (unknown_keys (PICO_INFO self) keys seen).
Proof.
  induction keys as [|k0 keys IH]; intros seen; simpl; [constructor|].
  destruct (PICO_INFO self !! k0); [apply IH|].
  destruct (existsb (String.eqb k0) seen); [apply IH|].
  constructor; [|apply IH].
  rewrite unknown_keys_spec. simpl. tauto.
Qed.

End UnitInfo.

(** C7: when some requested key is not a key of [PICO_INFO], the wrapper
    raises ArgumentOutOfRangeError, its message naming exactly the unknown
    keys (each once), and the history of native calls is unchanged; so a run
    that made a native call had only known keys. *)
Theorem unknown_info_keys_are_rejected_first
    (self : Library) (handle : Z) (keys : list string) (drv : native_driver) (h : history) :
  let run := _python_get_unit_info_wrapper self handle keys drv h in
  ((exists k, In k keys /\ PICO_INFO self !! k = None) ->
   snd run = h /\
   exists invalid,
     fst run = Raise (ArgumentOutOfRangeError
                        [Str (join "," invalid); Text " not available for ";
                         Str (name self); Text " devices"]) /\
     List.NoDup invalid /\
     forall k, In k invalid <-> In k keys /\ PICO_INFO self !! k = None) /\
  (snd run <> h -> forall k, In k keys -> is_Some (PICO_INFO self !! k)).
Proof.
  intros run.
  assert (Hfirst : (exists k, In k keys /\ PICO_INFO self !! k = None) ->
    snd run = h /\
    exists invalid,
      fst run = Raise (ArgumentOutOfRangeError
                         [Str (join "," invalid); Text " not available for ";
                          Str (name self); Text " devices"]) /\
      List.NoDup invalid /\
      forall k, In k invalid <-> In k keys /\ PICO_INFO self !! k = None).
  { intros (k & Hin & Hnone). unfold run, _python_get_unit_info_wrapper.
    pose proof (unknown_keys_spec self keys [] k) as Hk.
    pose proof (unknown_keys_NoDup self keys []) as Hnd.
    pose proof (unknown_keys_spec self keys []) as Hall.
    destruct (unknown_keys (PICO_INFO self) keys []) as [|k1 invalid] eqn:Hu.
    - exfalso. apply (proj2 Hk). simpl. tauto.
    - split; [reflexivity|]. exists (k1 :: invalid). split; [reflexivity|].
      split; [assumption|]. intros k'. rewrite Hall. simpl. tauto. }
  split; [exact Hfirst|].
  intros Hcalls k Hin. destruct (PICO_INFO self !! k) eqn:Hk; [eexists; reflexivity|].
  exfalso. apply Hcalls. apply Hfirst. exists k. auto.
Qed.

Lemma unknown_info_keys_are_rejected_first_witness :
  let run := _python_get_unit_info_wrapper ps4000a 1 ["PICO_VARIANT_INFO"; "NOT_A_KEY"]
                                           (simulated 1) [] in
  snd run = [] /\
  exists invalid,
    fst run = Raise (ArgumentOutOfRangeError
                       [Str (join "," invalid); Text " not available for ";
                        Str (name ps4000a); Text " devices"]) /\
    List.NoDup invalid /\
    forall k, In k invalid <->
              In k ["PICO_VARIANT_INFO"; "NOT_A_KEY"] /\ PICO_INFO ps4000a !! k = None.
Proof.
  apply (proj1 (unknown_info_keys_are_rejected_first ps4000a 1
                  ["PICO_VARIANT_INFO"; "NOT_A_KEY"] (simulated 1) [])).
  exists "NOT_A_KEY". split; [right; left; reflexivity|reflexivity].
Defined.

(** ** The [requires_device] guard *)

Lemma requires_device_rejects {Args A : Type} (error_message : message)
    (method : Library -> Device -> Args -> M A) (self : Library) (device : pyobj)
    (args : Args) (drv : native_driver) (h : history) :
  ~ registered self device ->
  requires_device error_message method self device args drv h
  = (Raise (TypeError error_message), h).
Proof.
  intros Hnot. unfold requires_device. destruct device as [d|v]; [|reflexivity].
  simpl in Hnot. rewrite bool_decide_eq_true_2 by assumption. reflexivity.
Qed.

Lemma requires_device_accepts {Args A : Type} (error_message : message)
    (method : Library -> Device -> Args -> M A) (self : Library) (d : Device) (args : Args) :
  driver d = ident self ->
  requires_device error_message method self (Obj_Device d) args = method self d args.
Proof.
  intros Hown. unfold requires_device.
  rewrite bool_decide_eq_false_2 by (intros Hne; apply Hne; exact Hown). reflexivity.
Qed.

(** C10: when the device argument is not a [Device], or is a [Device] of
    another driver, each of the twelve operations raises TypeError with its
    message and leaves the history of native calls as it was. *)
Theorem device_operations_reject_foreign_devices
    (self : Library) (device : pyobj) (drv : native_driver) (h : history) :
  ~ registered self device ->
  close_unit self device tt drv h
    = (Raise (TypeError (owner_message "close_unit")), h) /\
  (forall keys, get_unit_info self device keys drv h
    = (Raise (TypeError (owner_message "get_unit_info")), h)) /\
  (forall fuel a, set_channel fuel self device a drv h
    = (Raise (TypeError (owner_message "set_channel")), h)) /\
  (forall a, set_digital_port self device a drv h
    = (Raise (TypeError (owner_message "set_digital_port")), h)) /\
  (forall n, memory_segments self device n drv h
    = (Raise (TypeError (owner_message "memory_segments")), h)) /\
  (forall a, get_timebase self device a drv h
    = (Raise (TypeError (owner_message "get_timebase")), h)) /\
  set_null_trigger self device tt drv h = (Raise (TypeError default_message), h) /\
  (forall a, run_block self device a drv h = (Raise (TypeError default_message), h)) /\
  is_ready self device tt drv h = (Raise (TypeError default_message), h) /\
  maximum_value self device tt drv h = (Raise (TypeError default_message), h) /\
  (forall a, get_values self device a drv h = (Raise (TypeError default_message), h)) /\
  stop self device tt drv h = (Raise (TypeError default_message), h).
Proof.
  intros Hnot.
  repeat split; intros; apply requires_device_rejects; assumption.
Qed.

Lemma device_operations_reject_foreign_devices_witness :
  close_unit ps4000a (Obj_Device foreign_device) tt (simulated 1) []
    = (Raise (TypeError (owner_message "close_unit")), []) /\
  stop ps4000a (Obj_other PyNone) tt (simulated 1) []
    = (Raise (TypeError default_message), []).
Proof.
  split.
  - apply (device_operations_reject_foreign_devices ps4000a (Obj_Device foreign_device)).
    simpl. discriminate.
  - apply (device_operations_reject_foreign_devices ps4000a (Obj_other PyNone)).
    simpl. tauto.
Defined.

(** ** [list_units] *)

Section ListUnits.

Variables (self : Library) (drv : native_driver).

Lemma open_handles_snoc (h : history) (e : event) :
  open_handles (h ++ [e]) = open_step (open_handles h) e.
Proof. unfold open_handles. rewrite fold_left_app. reflexivity. Qed.

Lemma open_handles_other (h : history) (e : event) :
  ev_sym e <> _open_unit -> ev_sym e <> _close_unit ->
  open_handles (h ++ [e]) = open_handles h.
Proof.
  intros Ho Hc. rewrite open_handles_snoc. unfold open_step.
  destruct (ev_sym e); congruence.
Qed.

(** A query for unit information leaves the open handles as they are and
    never raises DeviceNotFoundError. *)
Lemma python_get_unit_info_open (handle info_type : Z) (h : history) :
  open_handles (snd (_python_get_unit_info self handle info_type drv h)) = open_handles h /\
  forall e, fst (_python_get_unit_info self handle info_type drv h) = Raise e ->
            is_DeviceNotFoundError e = false.
Proof.
  unfold _python_get_unit_info. unfold_monad.
  destruct (argtypes self _get_unit_info) as [tys|]; [|split; [reflexivity|]].
  2: { intros e [= <-]. reflexivity. }
  unfold_monad. cbn -[Z.ltb Z.eqb Nat.eqb].
  destruct (Nat.eqb (length tys) 4).
  - cbn -[Z.ltb]. match goal with |- context [Z.ltb 0 ?x] => destruct (Z.ltb 0 x) end; cbn;
      (split; [apply open_handles_other; discriminate|discriminate]).
  - destruct (Nat.eqb (length tys) 5); [|split; [reflexivity|discriminate]].
    cbn -[Z.ltb Z.eqb].
    destruct (PICO_STATUS self !! "PICO_OK") as [ok|]; cbn -[Z.ltb Z.eqb].
    + match goal with |- context [?x =? ok] => destruct (x =? ok) end; cbn -[Z.ltb];
        [match goal with |- context [?x <? 255] => destruct (x <? 255) end; cbn|];
        (split; [apply open_handles_other; discriminate|discriminate]).
    + split; [apply open_handles_other; discriminate|].
      intros e [= <-]. reflexivity.
Qed.

Ltac raised_here := intros ? He; cbn in He; injection He as <-; reflexivity.

Lemma wrapper_default_open (handle : Z) (h : history) :
  open_handles (snd (_python_get_unit_info_wrapper self handle [] drv h)) = open_handles h /\
  forall e, fst (_python_get_unit_info_wrapper self handle [] drv h) = Raise e ->
            is_DeviceNotFoundError e = false.
Proof.
  unfold _python_get_unit_info_wrapper. cbn [unknown_keys].
  unfold bind, getitem, raise, ret_.
  destruct (PICO_INFO self !! "PICO_VARIANT_INFO") as [variant_type|];
    [|split; [reflexivity|raised_here]].
  destruct (python_get_unit_info_open handle variant_type h) as [Hopen1 Hexn1].
  destruct (_python_get_unit_info self handle variant_type drv h) as [[variant|e1] h1];
    [|split; [exact Hopen1|intros e [= <-]; apply Hexn1; reflexivity]].
  destruct (PICO_INFO self !! "PICO_BATCH_AND_SERIAL") as [serial_type|];
    [|split; [exact Hopen1|raised_here]].
  destruct (python_get_unit_info_open handle serial_type h1) as [Hopen2 Hexn2].
  destruct (_python_get_unit_info self handle serial_type drv h1) as [[serial|e2] h2];
    cbn [fst snd] in *.
  - split; [congruence|discriminate].
  - split; [congruence|intros e [= <-]; apply Hexn2; reflexivity].
Qed.

Lemma wrap_int16 (n : Z) : int16 (wrap 16 n).
Proof.
  unfold wrap, int16. pose proof (Z.mod_pos_bound n (2 ^ 16)).
  destruct (Z.ltb_spec (n mod 2 ^ 16) (2 ^ (16 - 1))); lia.
Qed.

Lemma wrap_of_int16 (n : Z) : int16 n -> wrap 16 n = n.
Proof.
  unfold wrap, int16. intros Hn.
  destruct (Z.ltb_spec (n mod 2 ^ 16) (2 ^ (16 - 1))) as [Hlt|Hge].
  - destruct (Z.le_gt_cases 0 n).
    + apply Z.mod_small. lia.
    + exfalso. assert (Hn' : n = (n + 2 ^ 16) - 1 * 2 ^ 16) by lia.
      rewrite Hn' in Hlt.
      rewrite Zminus_mod, Z_mod_mult, Z.sub_0_r, Z.mod_mod in Hlt by lia.
      rewrite Z.mod_small in Hlt by lia. lia.
  - destruct (Z.le_gt_cases 0 n).
    + rewrite Z.mod_small in Hge by lia. lia.
    + assert (Hmod : n mod 2 ^ 16 = n + 2 ^ 16).
      { assert (Hn' : n = (n + 2 ^ 16) - 1 * 2 ^ 16) by lia.
        rewrite Hn' at 1.
        rewrite Zminus_mod, Z_mod_mult, Z.sub_0_r, Z.mod_mod by lia.
        apply Z.mod_small. lia. }
      lia.
Qed.

Lemma int_value_int16 (var : string) (args : list carg) (r : response) :
  int16 (int_value 16 var 0 args r).
Proof.
  unfold int_value. destruct (passed_by_ref var args); [|unfold int16; lia].
  destruct (assoc var (outs r)) as [[n| | |]|]; try (unfold int16; lia).
  apply wrap_int16.
Qed.

Hypothesis drv_int16 : forall h, int16 (ret (drv h _open_unit [])).

(** What one native open leaves: a handle below 1 opens nothing, another
    handle is the one handle that may be newly open. *)
Lemma python_open_any_unit_spec (resolution : option Z) (h : history) :
  match _python_open_any_unit self resolution drv h with
  | (Ok (handle, status), h') =>
      int16 handle /\
      ((handle <? 1) = true -> open_handles h' = open_handles h) /\
      ((handle <? 1) = false ->
       forall z, In z (open_handles h') -> In z (open_handles h) \/ z = handle)
  | (Raise ex, h') => h' = h /\ is_DeviceNotFoundError ex = false
  end.
Proof.
  assert (Hstep : forall args (handle : Z),
             opened_handle {| ev_sym := _open_unit; ev_args := args;
                              ev_resp := drv h _open_unit args |}
             = (if handle <? 1 then None else Some handle) ->
             ((handle <? 1) = true ->
              open_handles (h ++ [{| ev_sym := _open_unit; ev_args := args;
                                     ev_resp := drv h _open_unit args |}]) = open_handles h) /\
             ((handle <? 1) = false ->
              forall z,
                In z (open_handles (h ++ [{| ev_sym := _open_unit; ev_args := args;
                                             ev_resp := drv h _open_unit args |}])) ->
                In z (open_handles h) \/ z = handle)).
  { intros args handle Hopened. rewrite open_handles_snoc. unfold open_step.
    cbn [ev_sym]. rewrite Hopened. split; intros Hlt; rewrite Hlt; [reflexivity|].
    intros z. destruct (in_tuple handle (open_handles h)); [auto|].
    intros [<-|Hin]; auto. }
  unfold _python_open_any_unit. unfold_monad.
  destruct (argtypes self _open_unit) as [tys|]; [|split; reflexivity].
  cbn -[Z.ltb Nat.eqb int_value open_handles int16].
  destruct (Nat.eqb (length tys) 3).
  - destruct resolution as [resolution|]; [|destruct (DEFAULT_RESOLUTION self) as [resolution|]];
      cbn -[Z.ltb int_value open_handles int16]; [| |split; reflexivity].
    + split; [apply int_value_int16|]. apply Hstep. reflexivity.
    + split; [apply int_value_int16|]. apply Hstep. reflexivity.
  - destruct (Nat.eqb (length tys) 2); cbn -[Z.ltb int_value open_handles int16].
    + split; [apply int_value_int16|]. apply Hstep. reflexivity.
    + split; [apply drv_int16|]. apply Hstep. reflexivity.
Qed.

(** What one [_python_open_unit] leaves: a handle that is now open, or an
    exception with the open handles as before. *)
Lemma python_open_unit_spec (h : history) :
  match _python_open_unit self drv h with
  | (Ok handle, h') =>
      int16 handle /\
      forall z, In z (open_handles h') -> In z (open_handles h) \/ z = handle
  | (Raise ex, h') => open_handles h' = open_handles h
  end.
Proof.
  unfold _python_open_unit. unfold bind at 1.
  pose proof (python_open_any_unit_spec None h) as Hany.
  destruct (_python_open_any_unit self None drv h) as [[[handle status]|ex] h1].
  - destruct Hany as (H16 & Hlt & Hge).
    destruct (handle <? 1).
    + unfold not_found_message.
      destruct status as [st|]; unfold bind, lift, ret_, raise;
        [destruct (pico_tag self st)|]; apply Hlt; reflexivity.
    + split; [exact H16|]. apply Hge. reflexivity.
  - destruct Hany as [-> _]. reflexivity.
Qed.

Lemma list_units_open_step (fuel : nat) (handles : list Z) (infos : list UnitInfo)
    (h : history) :
  list_units_open (S fuel) self handles infos drv h =
  match _python_open_unit self drv h with
  | (Raise ex, h1) =>
      if is_DeviceNotFoundError ex then (Ok (Done (handles, infos)), h1) else (Raise ex, h1)
  | (Ok handle, h1) =>
      match _python_get_unit_info_wrapper self handle [] drv h1 with
      | (Raise ex, h2) =>
          if is_DeviceNotFoundError ex then (Ok (Done (handles, infos)), h2)
          else (Raise ex, h2)
      | (Ok info, h2) =>
          list_units_open fuel self (handles ++ [handle]) (infos ++ [info]) drv h2
      end
  end.
Proof.
  cbn [list_units_open]. unfold bind, try_except, ret_.
  destruct (_python_open_unit self drv h) as [[handle|ex] h1].
  - destruct (_python_get_unit_info_wrapper self handle [] drv h1) as [[info|ex] h2];
      [reflexivity|].
    destruct (is_DeviceNotFoundError ex); reflexivity.
  - destruct (is_DeviceNotFoundError ex); reflexivity.
Qed.

(** The handles collected by the loop are the ones it opened. *)
Lemma list_units_open_spec (fuel : nat) :
  forall handles infos h handles' infos' h',
    list_units_open fuel self handles infos drv h = (Ok (Done (handles', infos')), h') ->
    exists new,
      handles' = handles ++ new /\
      Forall int16 new /\
      forall z, In z (open_handles h') -> In z (open_handles h) \/ In z new.
Proof.
  induction fuel as [|fuel IH]; intros handles infos h handles' infos' h' Hrun;
    [discriminate|].
  rewrite list_units_open_step in Hrun.
  pose proof (python_open_unit_spec h) as Hopen.
  destruct (_python_open_unit self drv h) as [[handle|ex] h1].
  - destruct Hopen as [H16 Hopen].
    destruct (wrapper_default_open handle h1) as [Hsame Hexn].
    destruct (_python_get_unit_info_wrapper self handle [] drv h1) as [[info|ex] h2];
      cbn [fst snd] in *.
    + apply IH in Hrun as (new & -> & Hnew & Hin).
      exists (handle :: new). split; [rewrite <- app_assoc; reflexivity|].
      split; [constructor; assumption|].
      intros z Hz. apply Hin in Hz as [Hz|Hz]; [|right; right; exact Hz].
      rewrite Hsame in Hz. apply Hopen in Hz as [Hz| ->]; [left; exact Hz|right; left; reflexivity].
    + rewrite (Hexn ex eq_refl) in Hrun. discriminate.
  - destruct (is_DeviceNotFoundError ex) eqn:Hdnf; [|discriminate].
    injection Hrun as <- <- <-. exists []. split; [rewrite app_nil_r; reflexivity|].
    split; [constructor|]. intros z Hz. left. rewrite <- Hopen. exact Hz.
Qed.

(** Closing a list of handles removes them from the open handles. *)
Lemma close_all_spec (handles : list Z) :
  forall h h',
    close_all self handles drv h = (Ok tt, h') ->
    forall z, In z (open_handles h') ->
              In z (open_handles h) /\ ~ In z (map (wrap 16) handles).
Proof.
  induction handles as [|handle handles IH]; intros h h' Hrun z Hz.
  - injection Hrun as <-. auto.
  - cbn [close_all] in Hrun. unfold bind at 1 in Hrun.
    unfold _python_close_unit in Hrun. unfold_monad.
    destruct (argtypes self _close_unit); [|discriminate].
    cbn in Hrun. destruct (IH _ _ Hrun z Hz) as [Hin Hnot].
    rewrite open_handles_snoc in Hin. unfold open_step in Hin. cbn in Hin.
    apply filter_In in Hin as [Hin Hne]. split; [exact Hin|].
    intros [Heq|Hin']; [|contradiction].
    rewrite Heq, Z.eqb_refl in Hne. discriminate.
Qed.

Lemma list_units_closes_what_it_opened (fuel : nat) (h h' : history) (infos : list UnitInfo) :
  list_units fuel self drv h = (Ok (Done infos), h') ->
  forall z, In z (open_handles h') -> In z (open_handles h).
Proof.
  unfold list_units. unfold bind at 1.
  destruct (list_units_open fuel self [] [] drv h) as [[[[handles infos']|]|ex] h1] eqn:Hopen;
    try discriminate.
  apply list_units_open_spec in Hopen as (new & Hnew & H16 & Hin). simpl in Hnew. subst new.
  unfold bind, ret_.
  destruct (close_all self handles drv h1) as [[[]|ex] h2] eqn:Hclose; [|discriminate].
  intros [= <- <-] z Hz.
  destruct (close_all_spec _ _ _ Hclose z Hz) as [Hz1 Hnot].
  apply Hin in Hz1 as [Hz1|Hz1]; [exact Hz1|].
  exfalso. apply Hnot. apply in_map_iff. exists z. split; [|exact Hz1].
  apply wrap_of_int16. rewrite List.Forall_forall in H16. apply H16. exact Hz1.
Qed.

End ListUnits.

(** X26: against a driver whose parameterless [open_unit] returns 16-bit
    values (the handle is an [int16_t]), whenever [list_units] returns its
    list, every handle open in the driver afterwards was already open before
    the call: what the run opened, it has closed, the loop having ended on
    the DeviceNotFoundError of the last open. *)
Theorem list_units_leaves_no_handle_open
    (self : Library) (drv : native_driver) (fuel : nat) (h h' : history)
    (infos : list UnitInfo) :
  (forall h0, int16 (ret (drv h0 _open_unit []))) ->
  list_units fuel self drv h = (Ok (Done infos), h') ->
  forall z, In z (open_handles h') -> In z (open_handles h).
Proof.
  intros Hdrv Hrun. exact (list_units_closes_what_it_opened self drv Hdrv fuel h h' infos Hrun).
Qed.

Lemma simulated_int16 (units : nat) (h : history) (args : list carg) :
  int16 (ret (simulated units h _open_unit args)).
Proof.
  unfold simulated. destruct (length (open_handles h) <? units)%nat; unfold int16; simpl; lia.
Defined.

Lemma list_units_leaves_no_handle_open_witness :
  fst (list_units 3 ps4000a (simulated 2) [])
    = Ok (Done [DefaultInfo 1 "4824" "4824"; DefaultInfo 1 "4824" "4824"]) /\
  forall z, In z (open_handles (snd (list_units 3 ps4000a (simulated 2) []))) -> In z [].
Proof.
  split; [vm_compute; reflexivity|].
  apply (list_units_leaves_no_handle_open ps4000a (simulated 2) 3 []
           (snd (list_units 3 ps4000a (simulated 2) []))
           [DefaultInfo 1 "4824" "4824"; DefaultInfo 1 "4824" "4824"]).
  - intros h0. apply simulated_int16.
  - vm_compute. reflexivity.
Defined.

(** C6: a run of [list_units] can end with handles open.  With no handle
    open before, two units attached and a driver that reports, once both are
    open, a status [constants.pico_tag] does not know, building the message of
    the DeviceNotFoundError raises UnknownConstantError; it is not caught, the
    closing loop is not reached, and [list_units] ends with both handles
    open. *)
Theorem list_units_unknown_status_leaves_handles_open :
  let run := list_units 3 ps4000a (simulated_reporting 4294967295 2) [] in
  open_handles ([] : history) = [] /\
  (exists m, fst run = Raise (UnknownConstantError m)) /\
  open_handles (snd run) = [2; 1].
Proof.
  split; [reflexivity|]. split; [eexists|]; vm_compute; reflexivity.
Qed.

(** The same on the simulated driver, run after run: with three units
    attached each run lists three units and leaves none open. *)
Example list_units_twice :
  let first := list_units 4 ps4000a (simulated 3) [] in
  let second := list_units 4 ps4000a (simulated 3) (snd first) in
  open_handles (snd first) = [] /\ open_handles (snd second) = [] /\
  (exists infos, fst second = Ok (Done infos) /\ length infos = 3%nat).
Proof.
  vm_compute. split; [reflexivity|]. split; [reflexivity|].
  eexists. split; reflexivity.
Qed.

(** ** Rounding to nearest even, on integers *)


Lemma rne_bounds (a n : Z) : 0 <= n -> a / 2 ^ n <= rne a n <= a / 2 ^ n + 1.
Proof.
  intros Hn. unfold rne.
  destruct (2 * (a mod 2 ^ n) <? 2 ^ n); [lia|].
  destruct (2 ^ n <? 2 * (a mod 2 ^ n)); [lia|].
  destruct (Z.even (a / 2 ^ n)); lia.
Qed.

Lemma rne_mono (a b n : Z) : 0 <= n -> a <= b -> rne a n <= rne b n.
Proof.
  intros Hn Hab.
  assert (Hp : 0 < 2 ^ n) by (apply Z.pow_pos_nonneg; lia).
  assert (Hq : a / 2 ^ n <= b / 2 ^ n) by (apply Z.div_le_mono; lia).
  destruct (Z.eq_dec (a / 2 ^ n) (b / 2 ^ n)) as [Heq|Hne].
  - pose proof (Z.div_mod a (2 ^ n) ltac:(lia)) as Ha.
    pose proof (Z.div_mod b (2 ^ n) ltac:(lia)) as Hb.
    assert (Hr : a mod 2 ^ n <= b mod 2 ^ n) by nia.
    unfold rne. rewrite <- Heq.
    destruct (Z.ltb_spec (2 * (a mod 2 ^ n)) (2 ^ n)),
             (Z.ltb_spec (2 * (b mod 2 ^ n)) (2 ^ n)),
             (Z.ltb_spec (2 ^ n) (2 * (a mod 2 ^ n))),
             (Z.ltb_spec (2 ^ n) (2 * (b mod 2 ^ n))),
             (Z.even (a / 2 ^ n)); lia.
  - pose proof (rne_bounds a n Hn). pose proof (rne_bounds b n Hn). lia.
Qed.

Lemma rne_exact (q n : Z) : 0 <= n -> rne (q * 2 ^ n) n = q.
Proof.
  intros Hn. assert (Hp : 0 < 2 ^ n) by (apply Z.pow_pos_nonneg; lia).
  unfold rne. rewrite Z.div_mul by lia. rewrite Z.mod_mul by lia.
  destruct (Z.ltb_spec (2 * 0) (2 ^ n)); lia.
Qed.

Lemma rne_scale (a n t : Z) : 0 <= n -> 0 <= t -> rne (a * 2 ^ t) (n + t) = rne a n.
Proof.
  intros Hn Ht.
  assert (Hp : 0 < 2 ^ n) by (apply Z.pow_pos_nonneg; lia).
  assert (Hpt : 0 < 2 ^ t) by (apply Z.pow_pos_nonneg; lia).
  unfold rne. rewrite Z.pow_add_r by lia.
  rewrite Z.div_mul_cancel_r by lia.
  rewrite Z.mul_mod_distr_r by lia.
  destruct (Z.ltb_spec (2 * (a mod 2 ^ n)) (2 ^ n)),
           (Z.ltb_spec (2 * (a mod 2 ^ n * 2 ^ t)) (2 ^ n * 2 ^ t)),
           (Z.ltb_spec (2 ^ n) (2 * (a mod 2 ^ n))),
           (Z.ltb_spec (2 ^ n * 2 ^ t) (2 * (a mod 2 ^ n * 2 ^ t)));
    try reflexivity; nia.
Qed.

Lemma digits2_pos_bounds (p : positive) :
  2 ^ (Zpos (digits2_pos p) - 1) <= Zpos p < 2 ^ Zpos (digits2_pos p).
Proof.
  induction p as [p IH|p IH|]; cbn [digits2_pos].
  - rewrite Pos2Z.inj_succ. replace (Z.succ (Zpos (digits2_pos p)) - 1) with
      (Z.succ (Zpos (digits2_pos p) - 1)) by lia.
    rewrite !Z.pow_succ_r by lia. lia.
  - rewrite Pos2Z.inj_succ. replace (Z.succ (Zpos (digits2_pos p)) - 1) with
      (Z.succ (Zpos (digits2_pos p) - 1)) by lia.
    rewrite !Z.pow_succ_r by lia. lia.
  - simpl. lia.
Qed.

Lemma Zdigits2_bounds (a : Z) : 0 < a -> 2 ^ (Zdigits2 a - 1) <= a < 2 ^ Zdigits2 a.
Proof. destruct a as [|p|p]; try lia. intros _. apply digits2_pos_bounds. Qed.

Lemma Zdigits2_pos (a : Z) : 0 < a -> 0 < Zdigits2 a.
Proof. destruct a as [|p|p]; try lia. intros _. simpl. lia. Qed.

Lemma Zdigits2_unique (a k : Z) : 2 ^ (k - 1) <= a < 2 ^ k -> 0 < k -> Zdigits2 a = k.
Proof.
  intros [Hlo Hhi] Hk.
  assert (Ha : 0 < a) by (pose proof (Z.pow_pos_nonneg 2 (k - 1)); lia).
  pose proof (Zdigits2_bounds a Ha) as [Hlo' Hhi'].
  pose proof (Zdigits2_pos a Ha).
  destruct (Z.lt_trichotomy (Zdigits2 a) k) as [Hlt|[Heq|Hgt]]; [|exact Heq|].
  - exfalso. assert (2 ^ Zdigits2 a <= 2 ^ (k - 1)) by (apply Z.pow_le_mono_r; lia). lia.
  - exfalso. assert (2 ^ k <= 2 ^ (Zdigits2 a - 1)) by (apply Z.pow_le_mono_r; lia). lia.
Qed.

Lemma Zdigits2_mono (a b : Z) : 0 < a -> a <= b -> Zdigits2 a <= Zdigits2 b.
Proof.
  intros Ha Hab.
  pose proof (Zdigits2_bounds a Ha) as [Hlo _].
  pose proof (Zdigits2_bounds b ltac:(lia)) as [_ Hhi].
  pose proof (Zdigits2_pos a Ha). pose proof (Zdigits2_pos b ltac:(lia)).
  destruct (Z.le_gt_cases (Zdigits2 a) (Zdigits2 b)) as [|Hgt]; [assumption|].
  exfalso. assert (2 ^ Zdigits2 b <= 2 ^ (Zdigits2 a - 1)) by (apply Z.pow_le_mono_r; lia). lia.
Qed.

Lemma Zdigits2_ge (a k : Z) : 0 <= k -> 2 ^ k <= a -> k + 1 <= Zdigits2 a.
Proof.
  intros Hk Ha. assert (Hpos : 0 < a) by (pose proof (Z.pow_pos_nonneg 2 k); lia).
  pose proof (Zdigits2_bounds a Hpos) as [_ Hhi].
  pose proof (Zdigits2_pos a Hpos).
  destruct (Z.le_gt_cases (k + 1) (Zdigits2 a)) as [|Hgt]; [assumption|].
  exfalso. assert (2 ^ Zdigits2 a <= 2 ^ k) by (apply Z.pow_le_mono_r; lia). lia.
Qed.

Lemma Zdigits2_shift (a t : Z) : 0 < a -> 0 <= t -> Zdigits2 (a * 2 ^ t) = Zdigits2 a + t.
Proof.
  intros Ha Ht. pose proof (Zdigits2_bounds a Ha) as [Hlo Hhi].
  pose proof (Zdigits2_pos a Ha).
  assert (Hp : 0 < 2 ^ t) by (apply Z.pow_pos_nonneg; lia).
  apply Zdigits2_unique; [|lia].
  replace (Zdigits2 a + t - 1) with (Zdigits2 a - 1 + t) by lia.
  rewrite !Z.pow_add_r by lia. nia.
Qed.

Lemma rounded_mono (V1 V2 : Z) : 2 ^ 40 <= V1 -> V1 <= V2 -> rounded V1 <= rounded V2.
Proof.
  intros Hlo Hle. assert (Hpos : 0 < V1) by (pose proof (Z.pow_pos_nonneg 2 40); lia).
  pose proof (Zdigits2_mono V1 V2 Hpos Hle) as Hd.
  pose proof (Zdigits2_ge V1 40 ltac:(lia) Hlo) as Hd1.
  unfold rounded, grid.
  destruct (Z.eq_dec (Z.max (Zdigits2 V1 - 53) 40) (Z.max (Zdigits2 V2 - 53) 40)) as [Heq|Hne].
  - rewrite <- Heq. apply Z.mul_le_mono_nonneg_r; [apply Z.pow_nonneg; lia|].
    apply rne_mono; lia.
  - set (d1 := Zdigits2 V1) in *. set (d2 := Zdigits2 V2) in *.
    set (g1 := Z.max (d1 - 53) 40) in *. set (g2 := Z.max (d2 - 53) 40) in *.
    assert (Hdlt : d1 < d2) by lia.
    pose proof (Zdigits2_bounds V1 Hpos) as [_ Hhi1]. fold d1 in Hhi1.
    pose proof (Zdigits2_bounds V2 ltac:(lia)) as [Hlo2 _]. fold d2 in Hlo2.
    assert (H1 : rne V1 g1 * 2 ^ g1 <= 2 ^ d1).
    { replace (2 ^ d1) with (2 ^ (d1 - g1) * 2 ^ g1)
        by (rewrite <- Z.pow_add_r by lia; f_equal; lia).
      apply Z.mul_le_mono_nonneg_r; [apply Z.pow_nonneg; lia|].
      rewrite <- (rne_exact (2 ^ (d1 - g1)) g1) by lia.
      apply rne_mono; [lia|].
      rewrite <- Z.pow_add_r by lia. replace (d1 - g1 + g1) with d1 by lia. lia. }
    assert (H2 : 2 ^ (d2 - 1) <= rne V2 g2 * 2 ^ g2).
    { replace (2 ^ (d2 - 1)) with (2 ^ (d2 - 1 - g2) * 2 ^ g2)
        by (rewrite <- Z.pow_add_r by lia; f_equal; lia).
      apply Z.mul_le_mono_nonneg_r; [apply Z.pow_nonneg; lia|].
      rewrite <- (rne_exact (2 ^ (d2 - 1 - g2)) g2) at 1 by lia.
      apply rne_mono; [lia|].
      rewrite <- Z.pow_add_r by lia. replace (d2 - 1 - g2 + g2) with (d2 - 1) by lia. lia. }
    assert (2 ^ d1 <= 2 ^ (d2 - 1)) by (apply Z.pow_le_mono_r; lia).
    lia.
Qed.

(** ** The rounding of [SpecFloat] *)


Lemma iter_pos_nat {A} (f : A -> A) (p : positive) :
  forall x, iter_pos f p x = Nat.iter (Pos.to_nat p) f x.
Proof.
  induction p as [p IH|p IH|]; intros x; cbn [iter_pos].
  - rewrite !IH, Pos2Nat.inj_xI.
    replace (S (2 * Pos.to_nat p)) with (Pos.to_nat p + (Pos.to_nat p + 1))%nat by lia.
    rewrite !Nat.iter_add. reflexivity.
  - rewrite !IH, Pos2Nat.inj_xO.
    replace (2 * Pos.to_nat p)%nat with (Pos.to_nat p + Pos.to_nat p)%nat by lia.
    rewrite Nat.iter_add. reflexivity.
  - reflexivity.
Qed.

(** One step of the shift: halve, remember the bit shifted out, and keep
    track of whether anything below it was set. *)
Lemma shr_1_spec (m : Z) (r s : bool) :
  0 <= m ->
  shr_1 {| shr_m := m; shr_r := r; shr_s := s |} =
  {| shr_m := m / 2; shr_r := Z.odd m; shr_s := r || s |}.
Proof.
  intros Hm. rewrite <- Z.div2_div.
  destruct m as [|[p|p|]|p]; try lia; reflexivity.
Qed.

Lemma shr_iter_spec (m : Z) (j : nat) :
  0 <= m ->
  Nat.iter (S j) shr_1 {| shr_m := m; shr_r := false; shr_s := false |} =
  {| shr_m := m / 2 ^ Z.of_nat (S j);
     shr_r := Z.testbit m (Z.of_nat j);
     shr_s := negb (m mod 2 ^ Z.of_nat j =? 0) |}.
Proof.
  intros Hm. induction j as [|j IH].
  - cbn [Nat.iter]. rewrite shr_1_spec by assumption.
    change (Z.of_nat 1) with 1. change (Z.of_nat 0) with 0.
    rewrite Z.pow_1_r, Z.pow_0_r, Z.mod_1_r, Z.bit0_odd. reflexivity.
  - rewrite Nat.iter_succ, IH.
    assert (Hp : 0 < 2 ^ Z.of_nat (S j)) by (apply Z.pow_pos_nonneg; lia).
    rewrite shr_1_spec by (apply Z.div_pos; lia).
    f_equal.
    + rewrite Z.div_div by lia. f_equal.
      rewrite (Nat2Z.inj_succ (S j)), Z.pow_succ_r by lia. lia.
    + rewrite Z.testbit_odd, Z.shiftr_div_pow2 by lia. reflexivity.
    + rewrite Nat2Z.inj_succ, Z.pow_succ_r by lia.
      rewrite (Z.mul_comm 2). rewrite Z.rem_mul_r by lia.
      rewrite Z.testbit_odd, Z.shiftr_div_pow2 by lia. rewrite Zmod_odd.
      pose proof (Z.mod_pos_bound m (2 ^ Z.of_nat j) ltac:(apply Z.pow_pos_nonneg; lia)).
      assert (Hpj : 0 < 2 ^ Z.of_nat j) by (apply Z.pow_pos_nonneg; lia).
      destruct (Z.odd (m / 2 ^ Z.of_nat j)), (Z.eqb_spec (m mod 2 ^ Z.of_nat j) 0);
        cbn [orb negb];
        match goal with |- _ = negb (?x =? 0) => destruct (Z.eqb_spec x 0) end;
        try reflexivity; lia.
Qed.

(** Rounding the shifted mantissa by its round and sticky bits is rounding
    to the nearest even. *)
Lemma round_shr_rne (m n : Z) :
  0 <= m -> 0 < n ->
  round_nearest_even
    (m / 2 ^ n)
    (loc_of_shr_record {| shr_m := m / 2 ^ n; shr_r := Z.testbit m (n - 1);
                          shr_s := negb (m mod 2 ^ (n - 1) =? 0) |})
  = rne m n.
Proof.
  intros Hm Hn. unfold rne.
  assert (Hpn : 0 < 2 ^ (n - 1)) by (apply Z.pow_pos_nonneg; lia).
  assert (Hsplit : m mod 2 ^ n = m mod 2 ^ (n - 1)
                                 + 2 ^ (n - 1) * Z.b2z (Z.testbit m (n - 1))).
  { replace n with (Z.succ (n - 1)) at 1 by lia. rewrite Z.pow_succ_r by lia.
    rewrite (Z.mul_comm 2). rewrite Z.rem_mul_r by lia.
    rewrite Z.testbit_odd, Z.shiftr_div_pow2 by lia. rewrite Zmod_odd.
    destruct (Z.odd (m / 2 ^ (n - 1))); reflexivity. }
  assert (Hpow : 2 ^ n = 2 * 2 ^ (n - 1)).
  { replace n with (Z.succ (n - 1)) at 1 by lia. rewrite Z.pow_succ_r by lia. reflexivity. }
  pose proof (Z.mod_pos_bound m (2 ^ (n - 1)) Hpn) as Hlow.
  rewrite Hsplit, Hpow.
  destruct (Z.testbit m (n - 1)), (Z.eqb_spec (m mod 2 ^ (n - 1)) 0) as [Hz|Hnz];
    cbn [negb loc_of_shr_record round_nearest_even Z.b2z].
  - rewrite Hz.
    destruct (Z.ltb_spec (2 * (0 + 2 ^ (n - 1) * 1)) (2 * 2 ^ (n - 1))); [lia|].
    destruct (Z.ltb_spec (2 * 2 ^ (n - 1)) (2 * (0 + 2 ^ (n - 1) * 1))); [lia|].
    rewrite <- Hpow. reflexivity.
  - destruct (Z.ltb_spec (2 * (m mod 2 ^ (n - 1) + 2 ^ (n - 1) * 1)) (2 * 2 ^ (n - 1))); [lia|].
    destruct (Z.ltb_spec (2 * 2 ^ (n - 1)) (2 * (m mod 2 ^ (n - 1) + 2 ^ (n - 1) * 1))); [|lia].
    rewrite <- Hpow. reflexivity.
  - rewrite Hz.
    destruct (Z.ltb_spec (2 * (0 + 2 ^ (n - 1) * 0)) (2 * 2 ^ (n - 1))); [|lia].
    rewrite <- Hpow. reflexivity.
  - destruct (Z.ltb_spec (2 * (m mod 2 ^ (n - 1) + 2 ^ (n - 1) * 0)) (2 * 2 ^ (n - 1))); [|lia].
    rewrite <- Hpow. reflexivity.
Qed.


Lemma fexp_fexp64 (k : Z) : fexp prec emax k = fexp64 k.
Proof. reflexivity. Qed.

Lemma shr_fexp_eq (m e : Z) :
  0 < m -> e <= fexp64 (Zdigits2 m + e) ->
  shr_fexp prec emax m e loc_Exact =
  (let n := fexp64 (Zdigits2 m + e) - e in
   if n =? 0 then {| shr_m := m; shr_r := false; shr_s := false |}
   else {| shr_m := m / 2 ^ n; shr_r := Z.testbit m (n - 1);
           shr_s := negb (m mod 2 ^ (n - 1) =? 0) |},
   fexp64 (Zdigits2 m + e)).
Proof.
  intros Hm He. unfold shr_fexp. rewrite fexp_fexp64.
  set (n := fexp64 (Zdigits2 m + e) - e). cbn zeta.
  unfold shr, shr_record_of_loc.
  destruct n as [|p|p] eqn:Hn; [|clear He|lia].
  - cbn [Z.eqb]. f_equal. lia.
  - cbn [Z.eqb]. f_equal; [|lia].
    rewrite iter_pos_nat.
    destruct (Pos2Nat.is_succ p) as [j Hj]. rewrite Hj.
    rewrite shr_iter_spec by lia.
    assert (Hp : Z.of_nat (S j) = Zpos p) by (rewrite <- Hj; apply positive_nat_Z).
    rewrite Hp. replace (Z.of_nat j) with (Zpos p - 1) by lia. reflexivity.
Qed.

Lemma rne_zero_shift (m : Z) : rne m 0 = m.
Proof.
  unfold rne. rewrite Z.pow_0_r, Z.div_1_r, Z.mod_1_r. reflexivity.
Qed.

(** The first stage of [binary_round_aux]: shift to the target exponent and
    round to nearest even. *)
Lemma round_shr_fexp (m e : Z) :
  0 < m -> e <= fexp64 (Zdigits2 m + e) ->
  let '(mrs, e') := shr_fexp prec emax m e loc_Exact in
  e' = fexp64 (Zdigits2 m + e) /\
  round_nearest_even (shr_m mrs) (loc_of_shr_record mrs) = rne m (e' - e).
Proof.
  intros Hm He. rewrite shr_fexp_eq by assumption. cbn zeta.
  split; [reflexivity|].
  destruct (Z.eqb_spec (fexp64 (Zdigits2 m + e) - e) 0) as [Hz|Hnz].
  - rewrite Hz, rne_zero_shift. reflexivity.
  - cbn [shr_m]. apply round_shr_rne; lia.
Qed.

(** The second stage: a mantissa of at most 53 bits stays; the mantissa 2^53
    is renormalised; the value is the same. *)
Lemma renormalise (m e : Z) :
  0 < m <= 2 ^ 53 -> -1074 <= e ->
  let '(mrs, e') := shr_fexp prec emax m e loc_Exact in
  0 < shr_m mrs /\ e <= e' <= e + 1 /\ shr_m mrs * 2 ^ (e' - e) = m.
Proof.
  intros [Hm Hhi] He.
  destruct (Z.eq_dec m (2 ^ 53)) as [->|Hne].
  - assert (Hd : Zdigits2 (2 ^ 53) = 54) by reflexivity.
    rewrite shr_fexp_eq; rewrite ?Hd; unfold fexp64; try lia.
    cbn zeta. replace (Z.max (54 + e - 53) (-1074) - e) with 1 by lia.
    cbn [Z.eqb shr_m]. replace (Z.max (54 + e - 53) (-1074)) with (e + 1) by lia.
    replace (e + 1 - e) with 1 by lia. split; [reflexivity|]. split; [lia|reflexivity].
  - assert (Hd : Zdigits2 m <= 53).
    { pose proof (Zdigits2_bounds m Hm) as [Hlo _]. pose proof (Zdigits2_pos m Hm).
      destruct (Z.le_gt_cases (Zdigits2 m) 53) as [|Hgt]; [assumption|].
      exfalso. assert (2 ^ 53 <= 2 ^ (Zdigits2 m - 1)) by (apply Z.pow_le_mono_r; lia). lia. }
    unfold shr_fexp. rewrite fexp_fexp64. unfold fexp64, shr.
    destruct (Z.max (Zdigits2 m + e - 53) (-1074) - e) as [|p|p] eqn:Hn; try lia;
      cbn [shr_record_of_loc shr_m]; (split; [assumption|]);
      rewrite Z.sub_diag, Z.pow_0_r; lia.
Qed.

(** [binary_round_aux] on a product: the result is finite and its scaled
    value is the rounded scaled value of the product. *)
Lemma binary_round_aux_rounded (sx : bool) (mx : positive) (ex : Z) :
  -1114 <= ex -> 53 <= Zdigits2 (Zpos mx) -> Zdigits2 (Zpos mx) + ex <= 1000 ->
  exists m' e',
    binary_round_aux prec emax sx (Zpos mx) ex loc_Exact = S754_finite sx m' e' /\
    -1074 <= e' /\
    Zpos m' * 2 ^ (e' + 1114) = rounded (Zpos mx * 2 ^ (ex + 1114)).
Proof.
  intros Hex Hd Hmax.
  set (d := Zdigits2 (Zpos mx)) in *.
  set (E := fexp64 (d + ex)).
  assert (HE : E = Z.max (d + ex - 53) (-1074)) by reflexivity.
  assert (Hn : 0 <= E - ex) by lia.
  pose proof (Zdigits2_bounds (Zpos mx) ltac:(lia)) as [Hlo Hhi]. fold d in Hlo, Hhi.
  (* the rounded mantissa *)
  assert (Hm2lo : 0 < rne (Zpos mx) (E - ex)).
  { pose proof (rne_mono (2 ^ (d - 1 - (E - ex)) * 2 ^ (E - ex)) (Zpos mx) (E - ex) Hn) as Hmono.
    rewrite rne_exact in Hmono by lia.
    assert (0 < 2 ^ (d - 1 - (E - ex))) by (apply Z.pow_pos_nonneg; lia).
    rewrite <- Z.pow_add_r in Hmono by lia.
    replace (d - 1 - (E - ex) + (E - ex)) with (d - 1) in Hmono by lia. lia. }
  assert (Hm2hi : rne (Zpos mx) (E - ex) <= 2 ^ 53).
  { pose proof (rne_mono (Zpos mx) (2 ^ (d - (E - ex)) * 2 ^ (E - ex)) (E - ex) Hn) as Hmono.
    rewrite rne_exact in Hmono by lia.
    rewrite <- Z.pow_add_r in Hmono by lia.
    replace (d - (E - ex) + (E - ex)) with d in Hmono by lia.
    assert (2 ^ (d - (E - ex)) <= 2 ^ 53) by (apply Z.pow_le_mono_r; lia). lia. }
  unfold binary_round_aux.
  pose proof (round_shr_fexp (Zpos mx) ex ltac:(lia) ltac:(fold d; fold E; lia)) as H1.
  destruct (shr_fexp prec emax (Zpos mx) ex loc_Exact) as [mrs' e'].
  fold d in H1. fold E in H1. destruct H1 as [-> H1]. rewrite H1.
  pose proof (renormalise (rne (Zpos mx) (E - ex)) E ltac:(lia) ltac:(lia)) as H2.
  destruct (shr_fexp prec emax (rne (Zpos mx) (E - ex)) E loc_Exact) as [mrs'' e''].
  destruct H2 as (Hpos & He'' & Hval).
  destruct (shr_m mrs'') as [|m'|m'] eqn:Hm; try lia.
  assert (Hle : (e'' <=? emax - prec) = true)
    by (apply Z.leb_le; change (emax - prec) with 971; lia).
  rewrite Hle. exists m', e''. split; [reflexivity|]. split; [lia|].
  unfold rounded, grid.
  rewrite Zdigits2_shift by lia. fold d.
  replace (Z.max (d + (ex + 1114) - 53) 40) with (E - ex + (ex + 1114)) by lia.
  rewrite rne_scale by lia. rewrite <- Hval.
  rewrite <- Z.mul_assoc, <- Z.pow_add_r by lia. f_equal. f_equal. lia.
Qed.

(** ** [voltage_to_logic_level] *)

Section LogicLevel.
Import PyFloat.

Lemma factor_spec : Prim2SF (32767 / 5)%float = S754_finite false factor_mantissa factor_exponent.
Proof. vm_compute. reflexivity. Qed.

(** What [valid_binary] says of a finite value. *)
Lemma valid_finite (x : float) (s : bool) (m : positive) (e : Z) :
  Prim2SF x = S754_finite s m e ->
  -1074 <= e /\ Zpos m < 2 ^ 53 /\ (e = -1074 \/ 2 ^ 52 <= Zpos m).
Proof.
  intros Hx. pose proof (Prim2SF_valid x) as Hv. rewrite Hx in Hv.
  unfold SpecFloat.valid_binary, bounded, canonical_mantissa in Hv.
  apply andb_true_iff in Hv as [Hc _]. apply Z.eqb_eq in Hc.
  rewrite fexp_fexp64 in Hc. unfold fexp64 in Hc.
  pose proof (digits2_pos_bounds m) as [Hlo Hhi].
  assert (Hd : Zpos (digits2_pos m) <= 53) by lia.
  split; [lia|]. split.
  - assert (2 ^ Zpos (digits2_pos m) <= 2 ^ 53) by (apply Z.pow_le_mono_r; lia). lia.
  - destruct (Z.eq_dec e (-1074)) as [|Hne]; [left; assumption|right].
    assert (Zpos (digits2_pos m) = 53) by lia.
    replace 52 with (Zpos (digits2_pos m) - 1) by lia. exact Hlo.
Qed.

(** The order of finite positive values is the order of their magnitudes. *)
Lemma product_mono (x1 x2 : float) (s1 s2 : bool) (m1 m2 : positive) (e1 e2 : Z) :
  Prim2SF x1 = S754_finite s1 m1 e1 -> Prim2SF x2 = S754_finite s2 m2 e2 ->
  e1 < e2 \/ (e1 = e2 /\ Zpos m1 <= Zpos m2) ->
  product m1 e1 <= product m2 e2.
Proof.
  intros H1 H2 Hle.
  destruct (valid_finite _ _ _ _ H1) as (He1 & Hm1 & _).
  destruct (valid_finite _ _ _ _ H2) as (He2 & _ & Hm2).
  unfold product, factor_exponent. rewrite !Pos2Z.inj_mul.
  assert (Hf : 0 < Zpos factor_mantissa) by lia.
  assert (Hval : Zpos m1 * 2 ^ (e1 + -40 + 1114) <= Zpos m2 * 2 ^ (e2 + -40 + 1114)).
  { destruct Hle as [Hlt|[-> Hm]].
    - destruct Hm2 as [->|Hm2]; [lia|].
      replace (e2 + -40 + 1114) with (e2 - e1 - 1 + (1 + (e1 + -40 + 1114))) by lia.
      rewrite (Z.pow_add_r 2 (e2 - e1 - 1)) by lia.
      rewrite (Z.pow_add_r 2 1) by lia.
      assert (HP : 0 < 2 ^ (e1 + -40 + 1114)) by (apply Z.pow_pos_nonneg; lia).
      assert (HA : 1 <= 2 ^ (e2 - e1 - 1))
        by (pose proof (Z.pow_pos_nonneg 2 (e2 - e1 - 1)); lia).
      assert (H2m : Zpos m1 <= 2 * Zpos m2) by lia.
      change (2 ^ 1) with 2.
      generalize dependent (2 ^ (e1 + -40 + 1114)). generalize dependent (2 ^ (e2 - e1 - 1)).
      intros A HA P HP. clear - HA HP H2m.
      assert (H1 : Zpos m1 * P <= 2 * Zpos m2 * P) by nia.
      assert (H2 : (2 * Zpos m2 * P) * 1 <= (2 * Zpos m2 * P) * A)
        by (apply Z.mul_le_mono_nonneg_l; lia).
      lia.
    - apply Z.mul_le_mono_nonneg_r; [apply Z.pow_nonneg; lia|assumption]. }
  nia.
Qed.

Lemma product_large (x : float) (s : bool) (m : positive) (e : Z) :
  Prim2SF x = S754_finite s m e -> 2 ^ 40 <= product m e.
Proof.
  intros Hx. destruct (valid_finite _ _ _ _ Hx) as (He & _ & _).
  unfold product, factor_exponent. rewrite Pos2Z.inj_mul.
  assert (1 <= 2 ^ (e + -40 + 1114)) by (pose proof (Z.pow_pos_nonneg 2 (e + -40 + 1114)); lia).
  assert (2 ^ 40 <= Zpos factor_mantissa) by (vm_compute; discriminate).
  nia.
Qed.

Lemma level_mono (x1 x2 : float) (s1 s2 : bool) (m1 m2 : positive) (e1 e2 : Z) :
  Prim2SF x1 = S754_finite s1 m1 e1 -> Prim2SF x2 = S754_finite s2 m2 e2 ->
  e1 < e2 \/ (e1 = e2 /\ Zpos m1 <= Zpos m2) ->
  level m1 e1 <= level m2 e2.
Proof.
  intros H1 H2 Hle. unfold level. apply Z.div_le_mono; [lia|].
  apply rounded_mono; [eapply product_large; eassumption|eapply product_mono; eassumption].
Qed.

Lemma level_nonneg (m : positive) (e : Z) : 0 <= level m e.
Proof.
  unfold level. apply Z.div_pos; [|lia].
  unfold rounded. apply Z.mul_nonneg_nonneg; [|apply Z.pow_nonneg; lia].
  pose proof (rne_bounds (product m e) (grid (product m e))) as Hb.
  assert (0 <= grid (product m e)) by (unfold grid; lia).
  assert (0 <= product m e / 2 ^ grid (product m e)).
  { apply Z.div_pos; [|apply Z.pow_pos_nonneg; lia].
    unfold product. apply Z.mul_nonneg_nonneg; [lia|apply Z.pow_nonneg; lia]. }
  lia.
Qed.

(** The logic level of a finite voltage of magnitude at most 5 V. *)
Lemma trunc_mul_finite (x : float) (s : bool) (m : positive) (e : Z) :
  Prim2SF x = S754_finite s m e -> e <= -50 ->
  trunc (x * (32767 / 5))%float = Some (if s then - level m e else level m e).
Proof.
  intros Hx He. destruct (valid_finite _ _ _ _ Hx) as (Hlo & Hm & _).
  unfold trunc. rewrite mul_spec, Hx, factor_spec.
  unfold SF64mul, SFmul. rewrite xorb_false_r.
  assert (Hf52 : 2 ^ 52 <= Zpos factor_mantissa) by (vm_compute; discriminate).
  assert (Hf53 : Zpos factor_mantissa < 2 ^ 53) by (vm_compute; reflexivity).
  destruct (binary_round_aux_rounded s (m * factor_mantissa) (e + factor_exponent))
    as (m' & e' & Hround & He' & Hval).
  - unfold factor_exponent. lia.
  - pose proof (Zdigits2_ge (Zpos (m * factor_mantissa)) 52 ltac:(lia)) as Hd.
    rewrite Pos2Z.inj_mul in *. assert (2 ^ 52 <= Zpos m * Zpos factor_mantissa) by nia. lia.
  - assert (Hd : Zdigits2 (Zpos (m * factor_mantissa)) <= 106).
    { pose proof (Zdigits2_bounds (Zpos (m * factor_mantissa)) ltac:(lia)) as [Hdlo _].
      pose proof (Zdigits2_pos (Zpos (m * factor_mantissa)) ltac:(lia)).
      destruct (Z.le_gt_cases (Zdigits2 (Zpos (m * factor_mantissa))) 106) as [|Hgt];
        [assumption|exfalso].
      assert (2 ^ 106 <= 2 ^ (Zdigits2 (Zpos (m * factor_mantissa)) - 1))
        by (apply Z.pow_le_mono_r; lia).
      rewrite Pos2Z.inj_mul in *.
      assert (Zpos m * Zpos factor_mantissa < 2 ^ 53 * 2 ^ 53) by nia.
      change (2 ^ 53 * 2 ^ 53) with (2 ^ 106) in *. lia. }
    unfold factor_exponent. lia.
  - rewrite Hround. cbn [sf_trunc]. f_equal.
    assert (Hlevel : (if 0 <=? e' then Zpos m' * 2 ^ e' else Zpos m' / 2 ^ (- e')) = level m e).
    { unfold level. fold (product m e) in Hval. rewrite <- Hval.
      destruct (Z.leb_spec 0 e') as [Hpos|Hneg].
      - rewrite Z.pow_add_r by lia. rewrite Z.mul_assoc. rewrite Z.div_mul; [reflexivity|].
        pose proof (Z.pow_pos_nonneg 2 1114). lia.
      - replace 1114 with (- e' + (e' + 1114)) at 2 by lia.
        rewrite (Z.pow_add_r 2 (- e')) by lia.
        rewrite Z.div_mul_cancel_r; [reflexivity| |];
          [pose proof (Z.pow_pos_nonneg 2 (- e')); lia
          |pose proof (Z.pow_pos_nonneg 2 (e' + 1114)); lia]. }
    rewrite Hlevel. reflexivity.
Qed.

Lemma trunc_mul_zero (x : float) (s : bool) :
  Prim2SF x = S754_zero s -> trunc (x * (32767 / 5))%float = Some 0.
Proof.
  intros Hx. unfold trunc. rewrite mul_spec, Hx, factor_spec. reflexivity.
Qed.

Lemma key_five : key 5%float = (1, -50, 5629499534213120).
Proof. vm_compute. reflexivity. Qed.

Lemma key_minus_five : key (-5)%float = (-1, 50, -5629499534213120).
Proof. vm_compute. reflexivity. Qed.

Lemma in_range_shape (x : float) :
  in_range x ->
  match Prim2SF x with
  | S754_zero _ => True
  | S754_finite _ _ e => e <= -50
  | _ => False
  end.
Proof.
  intros [Hlo Hhi]. apply float_le_spec in Hlo as (_ & Hnan & Hlo).
  apply float_le_spec in Hhi as (_ & _ & Hhi).
  rewrite key_minus_five in Hlo. rewrite key_five in Hhi.
  unfold is_nan, key in *.
  destruct (Prim2SF x) as [s|s| |s m e]; cbn in *; try discriminate; try exact I.
  - destruct s; lia.
  - destruct s; cbn in *; lia.
Qed.

(** On the voltages between -5 V and 5 V the logic level is defined and
    does not decrease with the voltage. *)
Lemma trunc_mul_mono (x1 x2 : float) :
  in_range x1 -> in_range x2 -> le x1 x2 = true ->
  exists n1 n2,
    trunc (x1 * (32767 / 5))%float = Some n1 /\
    trunc (x2 * (32767 / 5))%float = Some n2 /\ n1 <= n2.
Proof.
  intros Hr1 Hr2 Hle.
  apply in_range_shape in Hr1. apply in_range_shape in Hr2.
  apply float_le_spec in Hle as (_ & _ & Hle). unfold key in Hle.
  destruct (Prim2SF x1) as [s1|s1| |s1 m1 e1] eqn:H1; try contradiction;
    destruct (Prim2SF x2) as [s2|s2| |s2 m2 e2] eqn:H2; try contradiction.
  - exists 0, 0. rewrite (trunc_mul_zero _ _ H1), (trunc_mul_zero _ _ H2). auto with zarith.
  - rewrite (trunc_mul_zero _ _ H1), (trunc_mul_finite _ _ _ _ H2 Hr2).
    pose proof (level_nonneg m2 e2).
    destruct s2; cbn in Hle; [lia|]. eexists _, _. repeat split. lia.
  - rewrite (trunc_mul_finite _ _ _ _ H1 Hr1), (trunc_mul_zero _ _ H2).
    pose proof (level_nonneg m1 e1).
    destruct s1; cbn in Hle; [|lia]. eexists _, _. repeat split. lia.
  - rewrite (trunc_mul_finite _ _ _ _ H1 Hr1), (trunc_mul_finite _ _ _ _ H2 Hr2).
    pose proof (level_nonneg m1 e1). pose proof (level_nonneg m2 e2).
    destruct s1, s2; cbn in Hle; eexists _, _; (split; [reflexivity|]);
      (split; [reflexivity|]); try lia.
    + assert (level m2 e2 <= level m1 e1);
        [eapply level_mono; [exact H2|exact H1|lia]|lia].
    + eapply level_mono; [exact H1|exact H2|lia].
Qed.

Lemma clamp_in_range (v : float) : in_range (clamp v).
Proof.
  unfold clamp, py_max, py_min, in_range, gt.
  change (PrimFloat.ltb (-5) v) with (lt (-5) v).
  destruct (lt (-5) v) eqn:Ha.
  - destruct (lt 5 v) eqn:Hb.
    + split; reflexivity.
    + split; [apply float_lt_le; exact Ha|].
      apply float_lt_spec in Ha as (_ & Hv & _).
      apply float_not_lt_le; [reflexivity|exact Hv|exact Hb].
  - replace (lt 5 (-5)) with false by reflexivity. split; reflexivity.
Qed.

Lemma clamp_mono (v1 v2 : float) : le v1 v2 = true -> le (clamp v1) (clamp v2) = true.
Proof.
  intros Hle. pose proof (clamp_in_range v1) as [Hlo1 Hhi1].
  pose proof (clamp_in_range v2) as [Hlo2 Hhi2].
  unfold clamp, py_max, py_min, gt in *.
  change (PrimFloat.ltb (-5) v1) with (lt (-5) v1) in *.
  change (PrimFloat.ltb (-5) v2) with (lt (-5) v2) in *.
  destruct (lt (-5) v1) eqn:Ha1.
  - assert (Ha2 : lt (-5) v2 = true) by (eapply float_lt_le_trans; eassumption).
    rewrite Ha2 in *.
    destruct (lt 5 v1) eqn:Hb1.
    + assert (Hb2 : lt 5 v2 = true) by (eapply float_lt_le_trans; eassumption).
      rewrite Hb2. reflexivity.
    + destruct (lt 5 v2) eqn:Hb2; [exact Hhi1|exact Hle].
  - replace (lt 5 (-5)) with false in * by reflexivity. exact Hlo2.
Qed.

Lemma logic_level_of_clamp (v : float) :
  voltage_to_logic_level v = trunc (clamp v * (32767 / 5))%float.
Proof. reflexivity. Qed.

End LogicLevel.

(** C8: 0 V gives 0, 5 V gives 32767, -5 V gives -32767 and 10 V gives
    32767; every voltage above 5 V gives 32767 and every voltage below -5 V
    gives -32767; the level is defined for every float and lies between
    -32767 and 32767; and it does not decrease when the voltage increases. *)
Theorem voltage_to_logic_level_clamps_and_is_monotone :
  voltage_to_logic_level 0%float = Some 0 /\
  voltage_to_logic_level 5%float = Some 32767 /\
  voltage_to_logic_level (-5)%float = Some (-32767) /\
  voltage_to_logic_level 10%float = Some 32767 /\
  (forall v, PyFloat.lt 5%float v = true -> voltage_to_logic_level v = Some 32767) /\
  (forall v, PyFloat.lt v (-5)%float = true -> voltage_to_logic_level v = Some (-32767)) /\
  (forall v, exists n, voltage_to_logic_level v = Some n /\ -32767 <= n <= 32767) /\
  (forall v1 v2,
     PyFloat.le v1 v2 = true ->
     exists n1 n2,
       voltage_to_logic_level v1 = Some n1 /\ voltage_to_logic_level v2 = Some n2 /\
       n1 <= n2).
Proof.
  assert (H5 : voltage_to_logic_level 5%float = Some 32767) by (vm_compute; reflexivity).
  assert (Hm5 : voltage_to_logic_level (-5)%float = Some (-32767))
    by (vm_compute; reflexivity).
  split; [vm_compute; reflexivity|]. split; [exact H5|]. split; [exact Hm5|].
  split; [vm_compute; reflexivity|].
  split; [|split; [|split]].
  - intros v Hv. rewrite logic_level_of_clamp.
    assert (Hc : clamp v = 5%float).
    { unfold clamp, py_max, py_min, PyFloat.gt.
      change (PrimFloat.ltb (-5) v) with (PyFloat.lt (-5) v).
      assert (Ha : PyFloat.lt (-5) v = true).
      { eapply float_le_lt_trans; [|exact Hv]. reflexivity. }
      rewrite Ha, Hv. reflexivity. }
    rewrite Hc. exact H5.
  - intros v Hv. rewrite logic_level_of_clamp.
    assert (Hc : clamp v = (-5)%float).
    { unfold clamp, py_max, py_min, PyFloat.gt.
      change (PrimFloat.ltb (-5) v) with (PyFloat.lt (-5) v).
      assert (Ha : PyFloat.lt (-5) v = false).
      { destruct (PyFloat.lt (-5) v) eqn:Ha; [|reflexivity].
        apply float_lt_spec in Ha as (_ & _ & Ha). apply float_lt_spec in Hv as (_ & _ & Hv).
        exfalso. eapply lex_lt_asym; eassumption. }
      rewrite Ha. reflexivity. }
    rewrite Hc. exact Hm5.
  - intros v. rewrite logic_level_of_clamp.
    pose proof (clamp_in_range v) as Hr. pose proof Hr as [Hlo Hhi].
    assert (Hr5 : in_range 5%float) by (split; reflexivity).
    assert (Hrm5 : in_range (-5)%float) by (split; reflexivity).
    destruct (trunc_mul_mono _ _ Hrm5 Hr Hlo) as (a & n & Ha & Hn & Hle1).
    destruct (trunc_mul_mono _ _ Hr Hr5 Hhi) as (n' & b & Hn' & Hb & Hle2).
    assert (Ha' : PyFloat.trunc (-5 * (32767 / 5))%float = Some (-32767))
      by (vm_compute; reflexivity).
    assert (Hb' : PyFloat.trunc (5 * (32767 / 5))%float = Some 32767)
      by (vm_compute; reflexivity).
    exists n. split; [exact Hn|].
    assert (n' = n) by congruence. subst n'.
    assert (a = -32767) by congruence.
    assert (b = 32767) by congruence.
    lia.
  - intros v1 v2 Hle. rewrite !logic_level_of_clamp.
    apply trunc_mul_mono; [apply clamp_in_range|apply clamp_in_range|].
    apply clamp_mono. exact Hle.
Qed.

Lemma voltage_to_logic_level_clamps_and_is_monotone_witness :
  voltage_to_logic_level 7%float = Some 32767 /\
  voltage_to_logic_level (-7)%float = Some (-32767) /\
  exists n1 n2,
    voltage_to_logic_level 1.5%float = Some n1 /\
    voltage_to_logic_level 2.5%float = Some n2 /\ n1 <= n2.
Proof.
  pose proof voltage_to_logic_level_clamps_and_is_monotone
    as (_ & _ & _ & _ & Hhigh & Hlow & _ & Hmono).
  split; [apply Hhigh; reflexivity|].
  split; [apply Hlow; reflexivity|].
  apply Hmono. reflexivity.
Defined.

(** A few levels inside the range. *)
Example logic_levels :
  voltage_to_logic_level 1.5%float = Some 9830 /\
  voltage_to_logic_level 2.5%float = Some 16383 /\
  voltage_to_logic_level (-2.5)%float = Some (-16383) /\
  voltage_to_logic_level nan = Some (-32767).
Proof. vm_compute. repeat split. Qed.

(** ** [list_units] does not raise *)

Section ListUnitsReturns.

Variables (self : Library) (drv : native_driver).
Hypothesis Hconf : can_list_units self.
Hypothesis Htag :
  forall h args, exists tag, pico_tag self (ret (drv h _open_unit args)) = Ok tag.

Ltac known_tag :=
  unfold not_found_message; unfold_monad;
  try match goal with
      | |- context [pico_tag self (ret (drv ?h0 _open_unit ?args))] =>
          let tag := fresh "tag" in
          let Hknown := fresh "Hknown" in
          destruct (Htag h0 args) as [tag Hknown]; rewrite Hknown
      end;
  cbn; auto.

Lemma python_open_unit_outcome (h : history) :
  match fst (_python_open_unit self drv h) with
  | Ok _ => True
  | Raise ex => is_DeviceNotFoundError ex = true
  end.
Proof.
  destruct Hconf as ((tys & Hty & Hres) & _).
  unfold _python_open_unit, _python_open_any_unit. unfold_monad. rewrite Hty.
  unfold_monad. cbn -[Z.ltb Nat.eqb int_value not_found_message].
  destruct (Nat.eqb_spec (length tys) 3) as [H3|_].
  - destruct (Hres H3) as [resolution ->]. cbn -[Z.ltb int_value not_found_message].
    match goal with |- context [?x <? 1] => destruct (x <? 1) end; known_tag.
  - destruct (Nat.eqb (length tys) 2); cbn -[Z.ltb int_value not_found_message];
      match goal with |- context [?x <? 1] => destruct (x <? 1) end; known_tag.
Qed.

Lemma python_get_unit_info_returns (handle info_type : Z) (h : history) :
  exists s, fst (_python_get_unit_info self handle info_type drv h) = Ok s.
Proof.
  destruct Hconf as (_ & (tys & Hty & Hok) & _).
  unfold _python_get_unit_info. unfold_monad. rewrite Hty.
  unfold_monad. cbn -[Z.ltb Z.eqb Nat.eqb].
  destruct (Nat.eqb (length tys) 4).
  - cbn -[Z.ltb]. match goal with |- context [Z.ltb 0 ?x] => destruct (Z.ltb 0 x) end;
      cbn; eexists; reflexivity.
  - destruct (Nat.eqb_spec (length tys) 5) as [H5|_]; [|eexists; reflexivity].
    destruct (Hok H5) as [ok Hok']. cbn -[Z.ltb Z.eqb]. rewrite Hok'. cbn -[Z.ltb Z.eqb].
    match goal with |- context [?x =? ok] => destruct (x =? ok) end; cbn -[Z.ltb];
      [match goal with |- context [?x <? 255] => destruct (x <? 255) end; cbn|];
      eexists; reflexivity.
Qed.

Lemma wrapper_default_returns (handle : Z) (h : history) :
  exists info, fst (_python_get_unit_info_wrapper self handle [] drv h) = Ok info.
Proof.
  destruct Hconf as (_ & _ & _ & [variant_type Hv] & [serial_type Hs]).
  unfold _python_get_unit_info_wrapper. cbn [unknown_keys].
  unfold bind, getitem, ret_. rewrite Hv, Hs.
  destruct (python_get_unit_info_returns handle variant_type h) as [variant Hvariant].
  destruct (_python_get_unit_info self handle variant_type drv h) as [r1 h1].
  cbn [fst] in Hvariant. subst r1.
  destruct (python_get_unit_info_returns handle serial_type h1) as [serial Hserial].
  destruct (_python_get_unit_info self handle serial_type drv h1) as [r2 h2].
  cbn [fst] in Hserial. subst r2. eexists. reflexivity.
Qed.

Lemma list_units_open_returns (fuel : nat) :
  forall handles infos h,
    exists r, fst (list_units_open fuel self handles infos drv h) = Ok r.
Proof.
  induction fuel as [|fuel IH]; intros handles infos h; [eexists; reflexivity|].
  rewrite list_units_open_step.
  pose proof (python_open_unit_outcome h) as Hopen.
  destruct (_python_open_unit self drv h) as [[handle|ex] h1]; cbn [fst] in Hopen.
  - destruct (wrapper_default_returns handle h1) as [info Hinfo].
    destruct (_python_get_unit_info_wrapper self handle [] drv h1) as [r2 h2].
    cbn [fst] in Hinfo. subst r2. apply IH.
  - rewrite Hopen. eexists. reflexivity.
Qed.

Lemma close_all_returns (handles : list Z) :
  forall h, fst (close_all self handles drv h) = Ok tt.
Proof.
  destruct Hconf as (_ & _ & [tys Hty] & _).
  induction handles as [|handle handles IH]; intros h; [reflexivity|].
  cbn [close_all]. unfold bind at 1. unfold _python_close_unit. unfold_monad.
  rewrite Hty. cbn. apply IH.
Qed.


End ListUnitsReturns.

Lemma ps4000a_can_list_units : can_list_units ps4000a.
Proof.
  repeat split; try (eexists; reflexivity).
  - eexists. split; [reflexivity|]. discriminate.
  - eexists. split; [reflexivity|]. intros _. eexists. reflexivity.
Qed.


(** ** More on the range resolver *)

Section ResolveRangeOrder.
Import PyFloat.

Variable self : Library.

Lemma resolve_range_raises_iff (v : float) (E : list Z) (drv : native_driver) (h : history) :
  possibilities self v E = [] <->
  exists e, fst (_resolve_range self v E drv h) = Raise e.
Proof.
  unfold _resolve_range. destruct (possibilities self v E); cbn; split.
  - intros _. eexists. reflexivity.
  - reflexivity.
  - discriminate.
  - intros [e He]. discriminate.
Qed.

(** What a returned entry is: a candidate whose maximum voltage no candidate
    undercuts. *)
Lemma resolve_range_returns (v : float) (E : list Z) (drv : native_driver) (h : history)
    (r : Z * float) :
  fst (_resolve_range self v E drv h) = Ok r ->
  In r (PICO_VOLTAGE_RANGE self) /\ qualifies v E r /\
  forall x, In x (PICO_VOLTAGE_RANGE self) -> qualifies v E x -> le (snd r) (snd x) = true.
Proof.
  unfold _resolve_range.
  destruct (possibilities self v E) as [|first rest] eqn:Hp; cbn; [discriminate|].
  intros [= <-].
  assert (Hall : forall x, In x (first :: rest) ->
                           In x (PICO_VOLTAGE_RANGE self) /\ qualifies v E x).
  { intros x Hx. rewrite <- Hp in Hx. apply possibilities_spec. assumption. }
  destruct (py_min_key_spec snd rest first) as [Hin Hmin].
  { intros x Hx. eapply qualifies_not_nan. apply Hall. assumption. }
  destruct (Hall _ Hin) as [Ht Hq]. split; [assumption|]. split; [assumption|].
  intros x Hx Hqx. apply Hmin. rewrite <- Hp. apply possibilities_spec. auto.
Qed.

Lemma resolve_range_finds (v : float) (E : list Z) (drv : native_driver) (h : history)
    (x : Z * float) :
  In x (PICO_VOLTAGE_RANGE self) -> qualifies v E x ->
  exists r, fst (_resolve_range self v E drv h) = Ok r.
Proof.
  intros Hin Hq. unfold _resolve_range.
  destruct (possibilities self v E) as [|first rest] eqn:Hp; cbn; [|eexists; reflexivity].
  assert (Hx : In x (possibilities self v E)) by (apply possibilities_spec; auto).
  rewrite Hp in Hx. destruct Hx.
Qed.

End ResolveRangeOrder.

(** X1: a less demanding request never yields a wider range.  When
    [_resolve_range] finds a range for the peak [v2] under the exclusions
    [E2], it also finds one for every peak [v1 <= v2] under every exclusion
    tuple [E1] contained in [E2], and the maximum voltage of that one is at
    most the maximum voltage found before. *)
Theorem resolve_range_is_monotone
    (self : Library) (v1 v2 : float) (E1 E2 : list Z) (drv : native_driver) (h : history)
    (r2 : Z * float) :
  PyFloat.le v1 v2 = true ->
  (forall id, In id E1 -> In id E2) ->
  fst (_resolve_range self v2 E2 drv h) = Ok r2 ->
  exists r1, fst (_resolve_range self v1 E1 drv h) = Ok r1 /\
             PyFloat.le (snd r1) (snd r2) = true.
Proof.
  intros Hv HE H2.
  apply resolve_range_returns in H2 as (Hin2 & [Hge2 Hex2] & _).
  assert (Hq : qualifies v1 E1 r2).
  { split; [|intros Hc; apply Hex2, HE, Hc].
    unfold PyFloat.ge in *. change (PrimFloat.leb v1 (snd r2)) with (PyFloat.le v1 (snd r2)).
    eapply float_le_trans; [exact Hv|exact Hge2]. }
  destruct (resolve_range_finds self v1 E1 drv h r2 Hin2 Hq) as [r1 H1].
  exists r1. split; [exact H1|].
  apply resolve_range_returns in H1 as (_ & _ & Hmin). apply Hmin; assumption.
Qed.

Lemma resolve_range_is_monotone_witness :
  exists r1, fst (_resolve_range ps4000a 0.25%float [] (answering 0) []) = Ok r1 /\
             PyFloat.le (snd r1) (snd (8, 5%float)) = true.
Proof.
  apply (resolve_range_is_monotone ps4000a 0.25%float 3%float [] [6] (answering 0) []
           (8, 5%float)).
  - reflexivity.
  - intros id [].
  - vm_compute. reflexivity.
Defined.

Section FirstMinimum.
Import PyFloat.

Lemma float_lt_trans (x y z : float) : lt x y = true -> lt y z = true -> lt x z = true.
Proof. intros Hxy Hyz. eapply float_lt_le_trans; [exact Hxy|apply float_lt_le; exact Hyz]. Qed.

(** [min] returns the first of the items of smallest key: every item before
    the one returned has a strictly greater key. *)
Lemma py_min_key_first {A} (key : A -> float) (l : list A) :
  forall cur,
    (forall x, In x (cur :: l) -> is_nan (key x) = false) ->
    exists p1 p2,
      cur :: l = p1 ++ py_min_key key cur l :: p2 /\
      forall x, In x p1 -> lt (key (py_min_key key cur l)) (key x) = true.
Proof.
  induction l as [|item l IH]; intros cur Hnan.
  - exists [], []. split; [reflexivity|]. intros x [].
  - cbn [py_min_key]. destruct (lt (key item) (key cur)) eqn:Hlt.
    + destruct (IH item) as (p1 & p2 & Heq & Hbefore).
      { intros x Hx. apply Hnan. right. exact Hx. }
      exists (cur :: p1), p2. split; [cbn; rewrite Heq; reflexivity|].
      intros x [<-|Hx]; [|apply Hbefore; exact Hx].
      destruct p1 as [|y p1].
      * injection Heq as Heq _. rewrite <- Heq. exact Hlt.
      * injection Heq as Heq _. subst y.
        eapply float_lt_trans; [|exact Hlt]. apply Hbefore. left. reflexivity.
    + destruct (IH cur) as (p1 & p2 & Heq & Hbefore).
      { intros x [<-|Hx]; apply Hnan; [left; reflexivity|right; right; exact Hx]. }
      destruct p1 as [|y p1].
      * injection Heq as Heq Hl. exists [], (item :: l). split; [cbn; rewrite <- Heq; reflexivity|].
        intros x [].
      * injection Heq as Hy Hl. subst y.
        exists (cur :: item :: p1), p2. split; [cbn; do 2 f_equal; exact Hl|].
        assert (Hcur : lt (key (py_min_key key cur l)) (key cur) = true)
          by (apply Hbefore; left; reflexivity).
        intros x [<-|[<-|Hx]]; [exact Hcur| |apply Hbefore; right; exact Hx].
        eapply float_lt_le_trans; [exact Hcur|].
        apply float_not_lt_le; [apply Hnan; right; left; reflexivity
                               |apply Hnan; left; reflexivity|exact Hlt].
Qed.

Lemma filter_split {A} (f : A -> bool) (l : list A) :
  forall p1 y p2,
    List.filter f l = p1 ++ y :: p2 ->
    exists l1 l2, l = l1 ++ y :: l2 /\ List.filter f l1 = p1.
Proof.
  induction l as [|x l IH]; intros p1 y p2 Heq; [destruct p1; discriminate|].
  cbn in Heq. destruct (f x) eqn:Hfx.
  - destruct p1 as [|z p1].
    + injection Heq as Hxy _. subst y. exists [], l. split; reflexivity.
    + injection Heq as Hxz Heq. subst z. destruct (IH _ _ _ Heq) as (l1 & l2 & -> & Hf).
      exists (x :: l1), l2. split; [reflexivity|]. cbn. rewrite Hfx, Hf. reflexivity.
  - destruct (IH _ _ _ Heq) as (l1 & l2 & -> & Hf).
    exists (x :: l1), l2. split; [reflexivity|]. cbn. rewrite Hfx. exact Hf.
Qed.

End FirstMinimum.

(** X2: among the candidates of smallest maximum voltage, [_resolve_range]
    returns the one that comes first in the range table: every candidate
    listed before the returned entry has a strictly greater maximum
    voltage. *)
Theorem resolve_range_prefers_the_first
    (self : Library) (v : float) (E : list Z) (drv : native_driver) (h : history)
    (r : Z * float) :
  fst (_resolve_range self v E drv h) = Ok r ->
  exists before after,
    PICO_VOLTAGE_RANGE self = before ++ r :: after /\
    forall x, In x before -> qualifies v E x -> PyFloat.lt (snd r) (snd x) = true.
Proof.
  unfold _resolve_range.
  destruct (possibilities self v E) as [|first rest] eqn:Hp; cbn; [discriminate|].
  intros [= <-].
  destruct (py_min_key_first snd rest first) as (p1 & p2 & Heq & Hbefore).
  { intros x Hx. rewrite <- Hp in Hx. apply possibilities_spec in Hx as [_ Hq].
    eapply qualifies_not_nan. exact Hq. }
  rewrite <- Hp in Heq. unfold possibilities in Heq.
  destruct (filter_split _ _ _ _ _ Heq) as (before & after & Htable & Hf).
  exists before, after. split; [exact Htable|].
  intros x Hx [Hge Hex]. apply Hbefore. rewrite <- Hf. apply filter_In. split; [exact Hx|].
  rewrite Hge. cbn. apply negb_true_iff.
  destruct (in_tuple (fst x) E) eqn:Hin; [|reflexivity].
  apply in_tuple_In in Hin. contradiction.
Qed.

Lemma resolve_range_prefers_the_first_witness :
  exists before after,
    PICO_VOLTAGE_RANGE ps4000a = before ++ (8, 5%float) :: after /\
    forall x, In x before -> qualifies 3%float [6] x -> PyFloat.lt (snd (8, 5%float)) (snd x) = true.
Proof.
  apply (resolve_range_prefers_the_first ps4000a 3%float [6] (answering 0) []).
  vm_compute. reflexivity.
Defined.

(** ** [set_channel] with the channel enabled *)

Section SetChannelEnabled.

Variables (self : Library) (device : Device) (a : set_channel_args) (drv : native_driver).
Hypothesis Hen : enabled a = true.

(** The voltage a finished loop returns is the maximum voltage of a range of
    the table that covers the requested peak. *)
Lemma set_channel_loop_result (fuel : nat) :
  forall excluded h max_voltage,
    fst (set_channel_loop fuel self device a excluded drv h) = Ok (Done max_voltage) ->
    exists r, In r (PICO_VOLTAGE_RANGE self) /\
              PyFloat.ge (snd r) (range_peak a) = true /\
              max_voltage = Some (snd r).
Proof.
  induction fuel as [|fuel IH]; intros excluded h max_voltage; [discriminate|].
  cbn [set_channel_loop]. rewrite Hen.
  unfold bind at 1. unfold bind at 1.
  pose proof (resolve_range_returns self (range_peak a) excluded drv h) as Hres.
  destruct (_resolve_range self (range_peak a) excluded drv h) as [[r|e] h1];
    [|discriminate].
  destruct (Hres r eq_refl) as (Hin & [Hge _] & _).
  unfold ret_ at 1. cbn [fst snd]. unfold bind at 1.
  match goal with
  | |- context [try_except ?m ?c ?k drv h1] => destruct (try_except m c k drv h1) as [[[]|e] h']
  end.
  - cbn. intros [= <-]. exists r. auto.
  - apply IH.
  - discriminate.
Qed.

End SetChannelEnabled.

(** X3: enabling a channel on a device of this library.  The retry loop ends
    within one more iteration than the range table has entries, and the
    voltage [set_channel] returns is the maximum voltage of an entry of the
    table that is at least the requested peak. *)
Theorem set_channel_enabled_settles
    (self : Library) (d : Device) (a : set_channel_args) (drv : native_driver) (h : history) :
  driver d = ident self ->
  enabled a = true ->
  let run := set_channel (S (length (PICO_VOLTAGE_RANGE self))) self (Obj_Device d) a drv h in
  fst run <> Ok OutOfFuel /\
  forall max_voltage,
    fst run = Ok (Done max_voltage) ->
    exists r, In r (PICO_VOLTAGE_RANGE self) /\
              PyFloat.ge (snd r) (range_peak a) = true /\
              max_voltage = Some (snd r).
Proof.
  intros Hown Hen run. unfold run, set_channel, requires_device.
  rewrite bool_decide_eq_false_2 by (intros Hne; apply Hne; exact Hown).
  split.
  - apply set_channel_loop_enabled_bound. exact Hen.
  - apply set_channel_loop_result. exact Hen.
Qed.

Lemma set_channel_enabled_settles_witness :
  let run := set_channel (S (length (PICO_VOLTAGE_RANGE ps4000a))) ps4000a
               (Obj_Device own_device)
               {| channel_name := inl "A"; enabled := true; coupling := "DC";
                  range_peak := 3%float; analog_offset := None |}
               (answering 0) [] in
  fst run <> Ok OutOfFuel /\
  forall max_voltage,
    fst run = Ok (Done max_voltage) ->
    exists r, In r (PICO_VOLTAGE_RANGE ps4000a) /\
              PyFloat.ge (snd r) 3%float = true /\
              max_voltage = Some (snd r).
Proof.
  apply (set_channel_enabled_settles ps4000a own_device
           {| channel_name := inl "A"; enabled := true; coupling := "DC";
              range_peak := 3%float; analog_offset := None |} (answering 0) []);
    reflexivity.
Defined.

(** X4: the default peak.  [range_peak] defaults to [float('inf')]; when every
    maximum voltage of the range table is below infinity, enabling a channel
    with that peak raises ArgumentOutOfRangeError before any native call,
    whatever the other arguments are. *)
Theorem set_channel_infinite_peak_is_refused
    (self : Library) (d : Device) (a : set_channel_args) (drv : native_driver) (h : history)
    (fuel : nat) :
  driver d = ident self ->
  enabled a = true ->
  range_peak a = infinity ->
  (forall r, In r (PICO_VOLTAGE_RANGE self) -> PyFloat.lt (snd r) infinity = true) ->
  set_channel (S fuel) self (Obj_Device d) a drv h =
  (Raise (ArgumentOutOfRangeError
            [Str (name self); Text " device doesn't support a range as wide as ";
             Flt infinity; Text "V"]), h).
Proof.
  intros Hown Hen Hpeak Hfinite. unfold set_channel, requires_device.
  rewrite bool_decide_eq_false_2 by (intros Hne; apply Hne; exact Hown).
  cbn [set_channel_loop]. rewrite Hen, Hpeak. unfold _resolve_range.
  destruct (possibilities self infinity []) as [|first rest] eqn:Hp; [reflexivity|].
  exfalso.
  assert (Hin : In first (possibilities self infinity [])) by (rewrite Hp; left; reflexivity).
  apply possibilities_spec in Hin as [Hin [Hge _]].
  specialize (Hfinite _ Hin).
  apply float_ge_spec in Hge as (_ & _ & Hle). apply float_lt_spec in Hfinite as (_ & _ & Hlt).
  destruct (PyFloat.key infinity) as [[a1 a2] a3], (PyFloat.key (snd first)) as [[b1 b2] b3].
  unfold PyFloat.lex_le, PyFloat.lex_lt in *. lia.
Qed.

Lemma set_channel_infinite_peak_is_refused_witness :
  set_channel 1 ps4000a (Obj_Device own_device)
    {| channel_name := inl "A"; enabled := true; coupling := "DC";
       range_peak := infinity; analog_offset := None |} (answering 0) [] =
  (Raise (ArgumentOutOfRangeError
            [Str (name ps4000a); Text " device doesn't support a range as wide as ";
             Flt infinity; Text "V"]), []).
Proof.
  apply (set_channel_infinite_peak_is_refused ps4000a own_device
           {| channel_name := inl "A"; enabled := true; coupling := "DC";
              range_peak := infinity; analog_offset := None |} (answering 0) [] 0);
    try reflexivity.
  intros r Hin. cbn in Hin.
  repeat (destruct Hin as [<-|Hin]; [vm_compute; reflexivity|]). destruct Hin.
Defined.

(** ** The logic level of the opposite voltage *)

Section LogicLevelSymmetry.
Import PyFloat.

Lemma key_opp (v : float) :
  key (- v) = let '(a, b, c) := key v in (- a, - b, - c).
Proof.
  unfold key. rewrite opp_spec.
  destruct (Prim2SF v) as [s|s| |s m e]; try destruct s; cbn;
    rewrite ?Z.opp_involutive; reflexivity.
Qed.

Lemma is_nan_opp (v : float) : is_nan (- v) = is_nan v.
Proof. unfold is_nan. rewrite opp_spec. destruct (Prim2SF v); reflexivity. Qed.

Lemma lt_false_spec (x y : float) :
  is_nan x = false -> is_nan y = false -> lt x y = false -> lex_le (key y) (key x).
Proof.
  intros Hx Hy H. apply (float_not_lt_le _ _ Hx Hy) in H.
  apply float_le_spec in H. tauto.
Qed.

Lemma sf_key_positive (x : spec_float) (e k : Z) :
  sf_key x = (1, e, k) -> exists m, k = Zpos m /\ x = S754_finite false m e.
Proof.
  destruct x as [s|s| |s m e']; try destruct s; cbn; intros [= <- <-] || intros [=].
  exists m. split; reflexivity.
Qed.

Lemma sf_key_negative (x : spec_float) (e k : Z) :
  sf_key x = (-1, e, k) -> exists m, k = - Zpos m /\ x = S754_finite true m (- e).
Proof.
  destruct x as [s|s| |s m e']; try destruct s; cbn; intros [= <- <-] || intros [=].
  exists m. rewrite Z.opp_involutive. split; reflexivity.
Qed.

Lemma clamp_eq (v : float) :
  clamp v = if lt (-5) v then (if lt 5 v then 5%float else v) else (-5)%float.
Proof.
  unfold clamp, py_max, py_min, gt. change (PrimFloat.ltb (-5) v) with (lt (-5) v).
  destruct (lt (-5) v); reflexivity.
Qed.

Lemma lt_cases (x y : float) :
  is_nan x = false -> is_nan y = false ->
  (lt x y = true /\ lex_lt (key x) (key y)) \/ (lt x y = false /\ lex_le (key y) (key x)).
Proof.
  intros Hx Hy. destruct (lt x y) eqn:H.
  - left. split; [reflexivity|]. apply float_lt_spec in H. tauto.
  - right. split; [reflexivity|]. apply lt_false_spec; assumption.
Qed.

(** Clamping commutes with taking the opposite. *)
Lemma clamp_opp (v : float) :
  is_nan v = false -> Prim2SF (clamp (- v)) = SFopp (Prim2SF (clamp v)).
Proof.
  intros Hnan. assert (Hnan' : is_nan (- v) = false) by (rewrite is_nan_opp; exact Hnan).
  pose proof (key_opp v) as Hko. destruct (key v) as [[k1 k2] k3] eqn:Hk.
  rewrite !clamp_eq.
  destruct (lt_cases (-5) v eq_refl Hnan) as [[A HA]|[A HA]];
    destruct (lt_cases 5 v eq_refl Hnan) as [[B HB]|[B HB]];
    destruct (lt_cases (-5) (- v) eq_refl Hnan') as [[A' HA']|[A' HA']];
    destruct (lt_cases 5 (- v) eq_refl Hnan') as [[B' HB']|[B' HB']];
    rewrite ?key_five, ?key_minus_five, ?Hko, ?Hk in HA;
    rewrite ?key_five, ?key_minus_five, ?Hko, ?Hk in HB;
    rewrite ?key_five, ?key_minus_five, ?Hko, ?Hk in HA';
    rewrite ?key_five, ?key_minus_five, ?Hko, ?Hk in HB';
    unfold lex_lt, lex_le in HA, HB, HA', HB';
    try (exfalso; lia);
    rewrite ?A, ?B, ?A', ?B'; try reflexivity; try apply opp_spec.
  - assert (Hks : k1 = 1 /\ k2 = -50 /\ k3 = 5629499534213120) by lia.
    destruct Hks as (-> & -> & ->). unfold key in Hk.
    apply sf_key_positive in Hk as (m & Hm & ->). injection Hm as <-. reflexivity.
  - assert (Hks : k1 = -1 /\ k2 = 50 /\ k3 = -5629499534213120) by lia.
    destruct Hks as (-> & -> & ->). unfold key in Hk. rewrite opp_spec. f_equal.
    apply sf_key_negative in Hk as (m & Hm & ->).
    assert (Hm' : Zpos m = 5629499534213120) by lia. injection Hm' as ->. reflexivity.
Qed.

(** The levels of two voltages in range that are opposite to each other. *)
Lemma trunc_mul_opp (x y : float) :
  in_range x -> Prim2SF y = SFopp (Prim2SF x) ->
  exists n, trunc (x * (32767 / 5))%float = Some n /\
            trunc (y * (32767 / 5))%float = Some (- n).
Proof.
  intros Hr Hy. apply in_range_shape in Hr.
  destruct (Prim2SF x) as [s|s| |s m e] eqn:Hx; try contradiction; cbn in Hy.
  - exists 0. rewrite (trunc_mul_zero _ _ Hx), (trunc_mul_zero _ _ Hy). auto.
  - rewrite (trunc_mul_finite _ _ _ _ Hx Hr), (trunc_mul_finite _ _ _ _ Hy Hr).
    eexists. split; [reflexivity|]. destruct s; cbn; rewrite ?Z.opp_involutive; reflexivity.
Qed.

End LogicLevelSymmetry.

(** X5: the conversion is odd.  For every voltage that is not a NaN, the
    logic level of the opposite voltage is the opposite logic level. *)
Theorem voltage_to_logic_level_is_odd (v : float) :
  PyFloat.is_nan v = false ->
  exists n, voltage_to_logic_level v = Some n /\
            voltage_to_logic_level (- v) = Some (- n).
Proof.
  intros Hnan. rewrite !logic_level_of_clamp.
  apply trunc_mul_opp; [apply clamp_in_range|apply clamp_opp; exact Hnan].
Qed.

Lemma voltage_to_logic_level_is_odd_witness :
  exists n, voltage_to_logic_level 1.5%float = Some n /\
            voltage_to_logic_level (- 1.5)%float = Some (- n).
Proof. apply (voltage_to_logic_level_is_odd 1.5%float). reflexivity. Defined.

(** ** [set_digital_port] *)

Lemma logic_level_bounded (v : float) :
  exists n, voltage_to_logic_level v = Some n /\ -32767 <= n <= 32767.
Proof.
  rewrite logic_level_of_clamp.
  pose proof (clamp_in_range v) as Hr. pose proof Hr as [Hlo Hhi].
  assert (Hr5 : in_range 5%float) by (split; reflexivity).
  assert (Hrm5 : in_range (-5)%float) by (split; reflexivity).
  destruct (trunc_mul_mono _ _ Hrm5 Hr Hlo) as (a & n & Ha & Hn & Hle1).
  destruct (trunc_mul_mono _ _ Hr Hr5 Hhi) as (n' & b & Hn' & Hb & Hle2).
  assert (Ha' : PyFloat.trunc (-5 * (32767 / 5))%float = Some (-32767))
    by (vm_compute; reflexivity).
  assert (Hb' : PyFloat.trunc (5 * (32767 / 5))%float = Some 32767)
    by (vm_compute; reflexivity).
  exists n. split; [exact Hn|].
  assert (n' = n) by congruence. subst n'.
  assert (a = -32767) by congruence.
  assert (b = 32767) by congruence.
  lia.
Qed.

(** X6: on a binding with a 4-parameter [set_digital_port] and a table of
    digital ports that lists the requested port, [set_digital_port] makes
    exactly one native call, for every threshold voltage (infinities and NaN
    included): its arguments are the handle, the identifier of the port, the
    enable flag and a logic level between -32767 and 32767.  The call
    succeeds exactly when the driver answers PICO_OK; otherwise it raises
    PicoError with the tag of the status when [constants.pico_tag] returns
    one, and what [pico_tag] raises when it raises. *)
Theorem set_digital_port_sends_a_level_in_range
    (self : Library) (d : Device) (a : set_digital_port_args) (drv : native_driver)
    (h : history) (tys : list ctype) (ports : list (string * Z)) (port_id ok : Z) :
  driver d = ident self ->
  argtypes self _set_digital_port = Some tys -> length tys = 4%nat ->
  tables self !! (upper (name self) +:+ "_DIGITAL_PORT") = Some ports ->
  assoc (upper (name self) +:+ "_DIGITAL_PORT" +:+ str_of_int (port_number a)) ports
    = Some port_id ->
  PICO_STATUS self !! "PICO_OK" = Some ok ->
  let run := set_digital_port self (Obj_Device d) a drv h in
  exists level ev,
    voltage_to_logic_level (voltage_level a) = Some level /\
    -32767 <= level <= 32767 /\
    ev_sym ev = _set_digital_port /\
    _convert_args tys [PyInt (handle d); PyInt port_id;
                       PyBool (port_enabled a); PyInt level] = Ok (ev_args ev) /\
    ev_resp ev = drv h _set_digital_port (ev_args ev) /\
    snd run = h ++ [ev] /\
    (ret (ev_resp ev) = ok -> fst run = Ok tt) /\
    (ret (ev_resp ev) <> ok ->
     match pico_tag self (ret (ev_resp ev)) with
     | Ok tag =>
         fst run = Raise (PicoError [Text "set_digital_port failed ("; Str tag; Text ")"])
     | Raise e => fst run = Raise e
     end).
Proof.
  intros Hown Hty Hlen Htable Hport Hok run.
  destruct (logic_level_bounded (voltage_level a)) as (level & Hlevel & Hbound).
  exists level. unfold run, set_digital_port, requires_device.
  rewrite bool_decide_eq_false_2 by (intros Hne; apply Hne; exact Hown).
  rewrite Hty, Hlen, Hlevel. cbn [Nat.eqb].
  unfold nonempty_table, table_item, status_check, getitem. rewrite Htable.
  destruct ports as [|entry ports']; [discriminate|]. rewrite Hport, Hok.
  assert (Hargs : _convert_args tys [PyInt (handle d); PyInt port_id;
                                     PyBool (port_enabled a); PyInt level]
                  = Ok (converted tys [PyInt (handle d); PyInt port_id;
                                       PyBool (port_enabled a); PyInt level]))
    by (apply convert_accepted; accepted).
  set (args := converted tys [PyInt (handle d); PyInt port_id; PyBool (port_enabled a);
                              PyInt level]) in *.
  exists {| ev_sym := _set_digital_port; ev_args := args;
            ev_resp := drv h _set_digital_port args |}.
  split; [reflexivity|]. split; [exact Hbound|].
  split; [reflexivity|]. split; [exact Hargs|]. split; [reflexivity|].
  unfold bind, ret_, call, raise, lift. rewrite Hargs. cbn -[Z.eqb].
  destruct (Z.eqb_spec (ret (drv h _set_digital_port args)) ok) as [Heq|Hne];
    cbn [negb fst snd].
  - split; [reflexivity|]. split; [reflexivity|]. intros Hc. contradiction.
  - destruct (pico_tag self _); cbn [fst snd];
      (split; [reflexivity|]); (split; [intros Hc; contradiction|]); reflexivity.
Qed.

Lemma set_digital_port_sends_a_level_in_range_witness :
  let a := {| port_number := 1; port_enabled := true; voltage_level := infinity |} in
  let run := set_digital_port mixed_signal (Obj_Device own_device) a (refusing 3) [] in
  snd run =
    [{| ev_sym := _set_digital_port;
        ev_args := [CConv c_int16 (PyInt 1); CConv c_int32 (PyInt 129);
                    CConv c_int16 (PyBool true); CConv c_int16 (PyInt 32767)];
        ev_resp := {| ret := 3; outs := [] |} |}] /\
  fst run = Raise (PicoError [Text "set_digital_port failed ("; Str "PICO_NOT_FOUND";
                              Text ")"]).
Proof.
  intros a run.
  destruct (set_digital_port_sends_a_level_in_range mixed_signal own_device a
              (refusing 3) [] [c_int16; c_int32; c_int16; c_int16]
              [("PS4000A_DIGITAL_PORT0", 128); ("PS4000A_DIGITAL_PORT1", 129)] 129 0
              eq_refl eq_refl eq_refl eq_refl eq_refl eq_refl)
    as (level & ev & Hlevel & _ & Hsym & Hargs & Hresp & Hsnd & _ & Hraise).
  fold run in Hsnd, Hraise.
  assert (level = 32767) by (vm_compute in Hlevel; congruence). subst level.
  destruct ev as [sym args resp]. cbn [ev_sym ev_args ev_resp] in *.
  injection Hargs as <-. subst sym resp. split; [exact Hsnd|].
  apply Hraise. discriminate.
Defined.

(** ** [get_values]: what is returned *)

(** A run of [m] followed by [k] that returns has run both. *)
Lemma bind_Ok {A B} (m : M A) (k : A -> M B) (drv : native_driver) (h : history) (b : B) :
  fst (bind m k drv h) = Ok b ->
  exists a h1, m drv h = (Ok a, h1) /\ fst (k a drv h1) = Ok b.
Proof.
  unfold bind. destruct (m drv h) as [[a|e] h1]; [|discriminate].
  intros Hk. exists a, h1. split; [reflexivity|exact Hk].
Qed.

Lemma key_eqb_eq (a b : string + Z) : key_eqb a b = true <-> a = b.
Proof.
  destruct a as [s|n], b as [t|m]; cbn.
  - rewrite String.eqb_eq. split; congruence.
  - split; discriminate.
  - split; discriminate.
  - rewrite Z.eqb_eq. split; congruence.
Qed.

Lemma existsb_key_eqb (k : string + Z) (seen : list (string + Z)) :
  existsb (key_eqb k) seen = true <-> In k seen.
Proof.
  rewrite existsb_exists. split.
  - intros (x & Hx & Heq). apply key_eqb_eq in Heq. subst. exact Hx.
  - intros Hin. exists k. split; [exact Hin|apply key_eqb_eq; reflexivity].
Qed.

Lemma dict_keys_spec (l : list (string + Z)) :
  forall seen k, In k (dict_keys l seen) <-> In k l /\ ~ In k seen.
Proof.
  induction l as [|k0 l IH]; intros seen k; cbn; [tauto|].
  destruct (existsb (key_eqb k0) seen) eqn:Hseen.
  - apply existsb_key_eqb in Hseen. rewrite IH. split.
    + intros [? ?]. auto.
    + intros [[<-|?] ?]; [contradiction|auto].
  - assert (Hnot : ~ In k0 seen).
    { intros Hin. apply existsb_key_eqb in Hin. congruence. }
    cbn. rewrite IH. cbn. split.
    + intros [<-|[? ?]]; [auto|]. split; [auto|]. tauto.
    + intros [[<-|?] ?]; [auto|].
      destruct (decide (k0 = k)) as [->|Hne]; [auto|]. right.
      split; [assumption|]. intros [?|?]; auto.
Qed.

Lemma dict_keys_NoDup (l : list (string + Z)) :
  forall seen, List.NoDup (dict_keys l seen).
Proof.
  induction l as [|k0 l IH]; intros seen; cbn; [constructor|].
  destruct (existsb (key_eqb k0) seen); [apply IH|].
  constructor; [|apply IH]. rewrite dict_keys_spec. cbn. tauto.
Qed.

(** X7: whenever [get_values] returns, its results hold exactly one entry per
    distinct channel of [active_channels]: a channel listed twice gets one
    buffer, and no other channel appears. *)
Theorem get_values_one_result_per_channel
    (self : Library) (device : pyobj) (a : get_values_args) (drv : native_driver)
    (h : history) (v : values) :
  fst (get_values self device a drv h) = Ok v ->
  List.NoDup (map fst (results v)) /\
  forall channel, In channel (map fst (results v)) <-> In channel (active_channels a).
Proof.
  unfold get_values, requires_device.
  destruct device as [d|other]; [|discriminate].
  destruct (bool_decide (driver d <> ident self)); [discriminate|].
  intros Hrun.
  apply bind_Ok in Hrun as (allocated & h0 & _ & Hrun).
  apply bind_Ok in Hrun as (legacy & h1 & _ & Hrun).
  apply bind_Ok in Hrun as ([[channels r] overflow] & h2 & _ & Hrun).
  apply bind_Ok in Hrun as (warning & h3 & _ & Hrun).
  cbn in Hrun. injection Hrun as <-. cbn [results].
  rewrite map_map. cbn [fst]. rewrite map_id. split.
  - apply dict_keys_NoDup.
  - intros channel. rewrite dict_keys_spec. cbn. tauto.
Qed.

Lemma get_values_one_result_per_channel_witness :
  exists v,
    fst (get_values ps4000a (Obj_Device own_device)
           {| active_channels := [inl "A"; inl "B"; inl "A"]; no_of_samples := 4;
              gv_segment_index := 0 |} (overflowing 0) []) = Ok v /\
    List.NoDup (map fst (results v)) /\
    forall channel, In channel (map fst (results v)) <-> In channel [inl "A"; inl "B"; inl "A"].
Proof.
  eexists. split; [vm_compute; reflexivity|].
  apply (get_values_one_result_per_channel ps4000a (Obj_Device own_device)
           {| active_channels := [inl "A"; inl "B"; inl "A"]; no_of_samples := 4;
              gv_segment_index := 0 |} (overflowing 0) []).
  vm_compute. reflexivity.
Defined.

(** X8: a driver whose [get_values] does not take 7 parameters, or whose
    [get_timebase] has a second parameter that is neither a [c_int16] nor a
    [c_uint32], is not recognised: once the buffers are allocated (the number
    of samples is not negative, or no channel is asked for), [get_values]
    makes no native call and raises nothing; it returns the buffers as they
    were allocated, never written, with an empty overflow warning.  With a
    negative number of samples and a channel to allocate for, the allocation
    raises ValueError, again without a native call. *)
Theorem get_values_unknown_shape_returns_no_data
    (self : Library) (d : Device) (a : get_values_args) (drv : native_driver)
    (h : history) (tys : list ctype) :
  driver d = ident self ->
  argtypes self _get_values = Some tys ->
  (length tys <> 7%nat \/
   exists t0 t1 rest,
     argtypes self _get_timebase = Some (t0 :: t1 :: rest) /\
     t1 <> c_int16 /\ t1 <> c_uint32) ->
  (0 <= no_of_samples a \/ active_channels a = [] ->
   get_values self (Obj_Device d) a drv h =
   (Ok {| results := map (fun channel => (channel, None)) (dict_keys (active_channels a) []);
          overflow_warning := [];
          channels_after := PICO_CHANNEL self |}, h)) /\
  (no_of_samples a < 0 -> active_channels a <> [] ->
   exists m, get_values self (Obj_Device d) a drv h = (Raise (ValueError m), h)).
Proof.
  intros Hown Hty Hshape. unfold get_values, requires_device.
  rewrite bool_decide_eq_false_2 by (intros Hne; apply Hne; exact Hown).
  split.
  2: { intros Hneg Hsome. unfold bind at 1.
       destruct (active_channels a) as [|channel channels]; [contradiction|].
       destruct (Z.ltb_spec (no_of_samples a) 0); [|lia]. eexists. reflexivity. }
  intros Hsamples.
  assert (Halloc : (match active_channels a with
                    | _ :: _ =>
                        if no_of_samples a <? 0
                        then raise (ValueError [Text "negative dimensions are not allowed"])
                        else ret_ tt
                    | [] => ret_ tt
                    end) drv h = (Ok tt, h)).
  { destruct (active_channels a) as [|channel channels]; [reflexivity|].
    destruct Hsamples as [Hsamples|Hsamples]; [|discriminate].
    destruct (Z.ltb_spec (no_of_samples a) 0); [lia|reflexivity]. }
  unfold bind at 1. rewrite Halloc.
  assert (Hnone : forall ty, ty = c_int16 \/ ty = c_uint32 ->
                             values_shape self ty drv h = (Ok false, h)).
  { intros ty Hcase. unfold values_shape, bind, argtypes_of. rewrite Hty. unfold ret_ at 1.
    destruct Hshape as [Hlen|(t0 & t1 & rest & Htb & Hn16 & Hn32)].
    - apply Nat.eqb_neq in Hlen. rewrite Hlen. reflexivity.
    - destruct (length tys =? 7)%nat; [|reflexivity].
      rewrite Htb. cbn. rewrite bool_decide_eq_false_2; [reflexivity|].
      destruct Hcase; congruence. }
  unfold bind at 1. rewrite (Hnone c_int16) by auto.
  unfold bind at 1. unfold bind at 1. rewrite (Hnone c_uint32) by auto.
  reflexivity.
Qed.

Lemma get_values_unknown_shape_returns_no_data_witness :
  get_values (rebind _get_values [c_int16; c_void_p] ps4000a) (Obj_Device own_device)
    {| active_channels := [inl "A"]; no_of_samples := 4; gv_segment_index := 0 |}
    (overflowing 0) [] =
  (Ok {| results := map (fun channel => (channel, None)) (dict_keys [inl "A"] []);
         overflow_warning := [];
         channels_after := PICO_CHANNEL (rebind _get_values [c_int16; c_void_p] ps4000a) |},
   []).
Proof.
  apply (fun Hown Hty Hshape => proj1 (get_values_unknown_shape_returns_no_data
           (rebind _get_values [c_int16; c_void_p] ps4000a) own_device
           {| active_channels := [inl "A"]; no_of_samples := 4; gv_segment_index := 0 |}
           (overflowing 0) [] [c_int16; c_void_p] Hown Hty Hshape)).
  - reflexivity.
  - reflexivity.
  - left. discriminate.
  - left. discriminate.
Defined.

(** ** What [get_unit_info] returns *)

Section UnitInfoFields.

Variable self : Library.

Lemma string_take_prefix (n : nat) :
  forall s, String.prefix (string_take n s) s = true.
Proof.
  induction n as [|n IH]; intros [|c s]; cbn; try reflexivity.
  rewrite IH. destruct (Ascii.ascii_dec c c); [reflexivity|contradiction].
Qed.

Lemma prefix_empty (s : string) : String.prefix EmptyString s = true.
Proof. destruct s; reflexivity. Qed.

Lemma py_slice_to_prefix (s : string) (n : Z) : String.prefix (py_slice_to s n) s = true.
Proof. unfold py_slice_to. destruct (0 <=? n); apply string_take_prefix. Qed.

Lemma info_lines_fields (handle : Z) (keys : list string) :
  forall drv h lines,
    fst (info_lines self handle keys drv h) = Ok lines -> map fst lines = keys.
Proof.
  induction keys as [|line keys IH]; intros drv h lines; cbn [info_lines].
  - intros [= <-]. reflexivity.
  - intros Hrun.
    apply bind_Ok in Hrun as (info_type & h1 & _ & Hrun).
    apply bind_Ok in Hrun as (v & h2 & _ & Hrun).
    apply bind_Ok in Hrun as (rest & h3 & Hrest & Hrun).
    cbn in Hrun. injection Hrun as <-. cbn. f_equal.
    apply (IH drv h2). rewrite Hrest. reflexivity.
Qed.

Lemma no_repeat_NoDup (l : list string) : no_repeat l = true -> List.NoDup l.
Proof.
  induction l as [|x l IH]; cbn; [constructor|].
  intros H. apply andb_true_iff in H as [Hx Hl]. constructor; [|apply IH; exact Hl].
  intros Hin. apply negb_true_iff in Hx.
  assert (Hex : existsb (String.eqb x) l = true).
  { apply existsb_exists. exists x. split; [exact Hin|apply String.eqb_refl]. }
  congruence.
Qed.

End UnitInfoFields.

(** X9: what a successful [get_unit_info] returns.  With no key it is the
    triple of the library, the variant and the serial number.  With keys it
    holds one field per key, in the order of the request; this happens only
    when every key is a key of [PICO_INFO] and no key was given twice. *)
Theorem get_unit_info_returns_the_requested_fields
    (self : Library) (device : pyobj) (keys : list string) (drv : native_driver)
    (h : history) (info : UnitInfo) :
  fst (get_unit_info self device keys drv h) = Ok info ->
  match keys with
  | [] => exists variant serial, info = DefaultInfo (ident self) variant serial
  | _ :: _ =>
      exists fields,
        info = KeyedInfo fields /\ map fst fields = keys /\
        List.NoDup keys /\ forall k, In k keys -> is_Some (PICO_INFO self !! k)
  end.
Proof.
  unfold get_unit_info, requires_device.
  destruct device as [d|other]; [|discriminate].
  destruct (bool_decide (driver d <> ident self)); [discriminate|].
  unfold _python_get_unit_info_wrapper.
  pose proof (unknown_keys_spec self keys []) as Hunknown.
  destruct (unknown_keys (PICO_INFO self) keys []) as [|k0 invalid]; [|discriminate].
  destruct keys as [|key keys].
  - intros Hrun.
    apply bind_Ok in Hrun as (variant_type & h1 & _ & Hrun).
    apply bind_Ok in Hrun as (variant & h2 & _ & Hrun).
    apply bind_Ok in Hrun as (serial_type & h3 & _ & Hrun).
    apply bind_Ok in Hrun as (serial & h4 & _ & Hrun).
    cbn in Hrun. injection Hrun as <-. eexists _, _. reflexivity.
  - destruct (namedtuple_ok (key :: keys)) eqn:Hnames; [|discriminate].
    intros Hrun.
    apply bind_Ok in Hrun as (lines & h1 & Hlines & Hrun).
    cbn in Hrun. injection Hrun as <-. exists lines.
    split; [reflexivity|]. split.
    { apply (info_lines_fields self (handle d) (key :: keys) drv h). rewrite Hlines. reflexivity. }
    split.
    { unfold namedtuple_ok in Hnames. apply andb_true_iff in Hnames as [_ Hnames].
      apply no_repeat_NoDup. exact Hnames. }
    intros k Hk. destruct (PICO_INFO self !! k) eqn:Hlook; [eexists; reflexivity|].
    exfalso. apply (proj2 (Hunknown k)). auto.
Qed.

Lemma get_unit_info_returns_the_requested_fields_witness :
  exists info,
    fst (get_unit_info ps4000a (Obj_Device own_device)
           ["PICO_BATCH_AND_SERIAL"; "PICO_VARIANT_INFO"] (simulated 1) []) = Ok info /\
    exists fields,
      info = KeyedInfo fields /\
      map fst fields = ["PICO_BATCH_AND_SERIAL"; "PICO_VARIANT_INFO"] /\
      List.NoDup ["PICO_BATCH_AND_SERIAL"; "PICO_VARIANT_INFO"] /\
      forall k, In k ["PICO_BATCH_AND_SERIAL"; "PICO_VARIANT_INFO"] ->
                is_Some (PICO_INFO ps4000a !! k).
Proof.
  eexists. split; [vm_compute; reflexivity|].
  apply (get_unit_info_returns_the_requested_fields ps4000a (Obj_Device own_device)
           ["PICO_BATCH_AND_SERIAL"; "PICO_VARIANT_INFO"] (simulated 1) []).
  vm_compute. reflexivity.
Defined.



(** ** Drivers the wrappers do not support *)

(** X11: when the bound [get_timebase] is not the legacy form (7 parameters,
    the second a [c_int16]) and [get_timebase2] is unbound or is not the
    current form (7 parameters, the second a [c_uint32]), [get_timebase]
    raises NotImplementedError and makes no native call.  The binding of
    [ps4000a.py], whose two timebase functions take 6 parameters, is such a
    driver. *)
Theorem get_timebase_without_a_known_form
    (self : Library) (d : Device) (a : get_timebase_args) (drv : native_driver)
    (h : history) (tys : list ctype) :
  driver d = ident self ->
  argtypes self _get_timebase = Some tys ->
  (length tys =? 7)%nat && second_is tys c_int16 = false ->
  match argtypes self _get_timebase2 with
  | Some tys2 => (length tys2 =? 7)%nat && second_is tys2 c_uint32 = false
  | None => True
  end ->
  get_timebase self (Obj_Device d) a drv h = (Raise (NotImplementedError not_done_message), h).
Proof.
  intros Hown Hty Hshape Hshape2. unfold get_timebase, requires_device.
  rewrite bool_decide_eq_false_2 by (intros Hne; apply Hne; exact Hown).
  unfold _python_get_timebase, bind, argtypes_of. rewrite Hty. unfold ret_ at 1.
  rewrite Hshape. destruct (argtypes self _get_timebase2) as [tys2|]; [|reflexivity].
  rewrite Hshape2. reflexivity.
Qed.

Lemma get_timebase_without_a_known_form_witness :
  get_timebase ps4000a (Obj_Device own_device)
    {| gt_timebase_id := 3; gt_no_of_samples := 100; gt_oversample := 1;
       gt_segment_index := 0 |} (timing 8) [] =
  (Raise (NotImplementedError not_done_message), []).
Proof.
  apply (get_timebase_without_a_known_form ps4000a own_device
           {| gt_timebase_id := 3; gt_no_of_samples := 100; gt_oversample := 1;
              gt_segment_index := 0 |} (timing 8) []
           [c_int16; c_uint32; c_int32; c_void_p; c_void_p; c_uint32]);
    reflexivity.
Defined.

(** X12: the other operations that depend on the signature of a native
    function refuse a driver they do not know before calling it.  For a
    device of the library: [run_block] raises NotImplementedError when
    [run_block] has neither 5, 8 nor 9 parameters; [is_ready] when there is
    neither a 1-parameter [ready] nor a 2-parameter [is_ready];
    [set_null_trigger] when there is neither a 6-parameter [set_trigger] nor a
    7-parameter [set_simple_trigger]; [set_digital_port] when there is no
    4-parameter [set_digital_port]; and [memory_segments] raises
    DeviceCannotSegmentMemoryError when [memory_segments] is unbound.  In all
    these cases the history of native calls is unchanged. *)
Theorem unsupported_drivers_are_refused_before_any_call
    (self : Library) (d : Device) (drv : native_driver) (h : history) :
  driver d = ident self ->
  (forall a tys,
     argtypes self _run_block = Some tys ->
     length tys <> 5%nat -> length tys <> 8%nat -> length tys <> 9%nat ->
     run_block self (Obj_Device d) a drv h = (Raise (NotImplementedError not_done_message), h)) /\
  (has_arity self _ready 1 = None -> has_arity self _is_ready 2 = None ->
   is_ready self (Obj_Device d) tt drv h = (Raise (NotImplementedError not_done_message), h)) /\
  (has_arity self _set_trigger 6 = None -> has_arity self _set_simple_trigger 7 = None ->
   set_null_trigger self (Obj_Device d) tt drv h
   = (Raise (NotImplementedError not_done_message), h)) /\
  (forall a,
     has_arity self _set_digital_port 4 = None ->
     set_digital_port self (Obj_Device d) a drv h
     = (Raise (NotImplementedError
                 [Text "This device doesn't support digital ports or is not implemented yet"]),
        h)) /\
  (forall number_segments,
     argtypes self _memory_segments = None ->
     memory_segments self (Obj_Device d) number_segments drv h
     = (Raise (DeviceCannotSegmentMemoryError []), h)).
Proof.
  intros Hown.
  assert (Hguard : bool_decide (driver d <> ident self) = false)
    by (apply bool_decide_eq_false_2; intros Hne; apply Hne; exact Hown).
  repeat split.
  - intros a tys Hty H5 H8 H9. unfold run_block, requires_device. rewrite Hguard.
    unfold _python_run_block, bind, argtypes_of. rewrite Hty. unfold ret_ at 1.
    apply Nat.eqb_neq in H5, H8, H9. rewrite H5, H8, H9. reflexivity.
  - intros H1 H2. unfold is_ready, requires_device. rewrite Hguard, H1, H2. reflexivity.
  - intros H1 H2. unfold set_null_trigger, requires_device. rewrite Hguard, H1, H2. reflexivity.
  - intros a Hnone. unfold set_digital_port, requires_device. rewrite Hguard.
    unfold has_arity in Hnone. destruct (argtypes self _set_digital_port) as [tys|]; [|reflexivity].
    destruct (length tys =? 4)%nat; [discriminate|reflexivity].
  - intros number_segments Hnone. unfold memory_segments, requires_device, hasattr.
    rewrite Hguard, Hnone. reflexivity.
Qed.

Lemma unsupported_drivers_are_refused_before_any_call_witness :
  is_ready (rebind _is_ready [c_int16] ps4000a) (Obj_Device own_device) tt (answering 0) []
  = (Raise (NotImplementedError not_done_message), []) /\
  set_digital_port ps4000a (Obj_Device own_device)
    {| port_number := 0; port_enabled := true; voltage_level := 1.5 |} (answering 0) []
  = (Raise (NotImplementedError
              [Text "This device doesn't support digital ports or is not implemented yet"]),
     []).
Proof.
  pose proof (unsupported_drivers_are_refused_before_any_call
                (rebind _is_ready [c_int16] ps4000a) own_device (answering 0) [] eq_refl)
    as (_ & Hready & _).
  pose proof (unsupported_drivers_are_refused_before_any_call
                ps4000a own_device (answering 0) [] eq_refl)
    as (_ & _ & _ & Hport & _).
  split; [apply Hready; reflexivity|apply Hport; reflexivity].
Defined.

(** ** [maximum_value] and [stop] *)





(** ** [open_unit] *)

Lemma bind_run {A B} (m : M A) (k : A -> M B) (drv : native_driver) (h : history)
    (b : B) (h' : history) :
  bind m k drv h = (Ok b, h') ->
  exists a h1, m drv h = (Ok a, h1) /\ k a drv h1 = (Ok b, h').
Proof.
  unfold bind. destruct (m drv h) as [[a|e] h1]; [|discriminate].
  intros Hk. exists a, h1. split; [reflexivity|exact Hk].
Qed.

(** X15: a device [open_unit] returns belongs to this library and has a
    handle of at least 1, whichever way it was opened; so it passes the guard
    of every operation that takes a device. *)
Theorem open_unit_returns_a_device_of_the_library
    (fuel : nat) (self : Library) (serial : option string) (resolution : option Z)
    (drv : native_driver) (h : history) (device : Device) :
  fst (open_unit fuel self serial resolution drv h) = Ok (Done device) ->
  registered self (Obj_Device device) /\ 1 <= handle device.
Proof.
  unfold open_unit. intros Hrun.
  apply bind_Ok in Hrun as ([[handle status]|] & h1 & _ & Hrun); [|discriminate].
  destruct (Z.ltb_spec handle 1) as [Hlt|Hge].
  { apply bind_Ok in Hrun as (message & h2 & _ & Hrun). discriminate. }
  cbn in Hrun. injection Hrun as <-. split; [reflexivity|exact Hge].
Qed.

Lemma open_unit_returns_a_device_of_the_library_witness :
  exists device,
    fst (open_unit 0 ps4000a None None (simulated 1) []) = Ok (Done device) /\
    registered ps4000a (Obj_Device device) /\ 1 <= handle device.
Proof.
  eexists. split; [vm_compute; reflexivity|].
  apply (open_unit_returns_a_device_of_the_library 0 ps4000a None None (simulated 1) []).
  vm_compute. reflexivity.
Defined.

Section OpenBySerial.

Variables (self : Library) (drv : native_driver) (serial : string).
Hypothesis drv_int16 : forall h, int16 (ret (drv h _open_unit [])).

(** What a call of the parameterless [open_unit] leaves open. *)
Lemma open_call_handles (h : history) (z : Z) :
  let r := drv h _open_unit [] in
  In z (open_handles (h ++ [{| ev_sym := _open_unit; ev_args := []; ev_resp := r |}])) ->
  In z (open_handles h) \/ (z = ret r /\ 0 < ret r).
Proof.
  intros r. rewrite open_handles_snoc. unfold open_step, opened_handle. cbn.
  destruct (Z.ltb_spec (ret r) 1) as [Hlt|Hge]; [auto|].
  destruct (in_tuple (ret r) (open_handles h)); [auto|].
  intros [<-|Hin]; [right; split; [reflexivity|lia]|auto].
Qed.

(** The search keeps in [open_handles] every unit it opened and did not
    return; no DeviceNotFoundError comes out of it. *)
Lemma search_serial_spec (fuel : nat) :
  forall temp_handle opened h before,
    (forall z, In z (open_handles h) -> In z before \/ (z = temp_handle /\ 0 < temp_handle)) ->
    int16 temp_handle ->
    match search_serial fuel self serial temp_handle opened drv h with
    | (Ok (Done (handle, opened')), h') =>
        exists new,
          opened' = opened ++ new /\ Forall int16 new /\ int16 handle /\
          forall z, In z (open_handles h') ->
                    In z before \/ In z new \/ (z = handle /\ 0 < handle)
    | (Ok OutOfFuel, _) => True
    | (Raise e, _) => is_DeviceNotFoundError e = false
    end.
Proof.
  induction fuel as [|fuel IH]; intros temp_handle opened h before Hopen H16; [exact I|].
  cbn [search_serial]. destruct (Z.ltb_spec 0 temp_handle) as [Hpos|Hneg].
  - unfold bind at 1. unfold getitem.
    destruct (PICO_INFO self !! "PICO_BATCH_AND_SERIAL") as [serial_type|]; [|reflexivity].
    unfold ret_ at 1. unfold bind at 1.
    destruct (python_get_unit_info_open self drv temp_handle serial_type h) as [Hsame Hexn].
    destruct (_python_get_unit_info self temp_handle serial_type drv h) as [[this_serial|e] h1];
      cbn [fst snd] in *; [|apply Hexn; reflexivity].
    destruct (String.eqb this_serial serial).
    + exists []. split; [rewrite app_nil_r; reflexivity|]. split; [constructor|].
      split; [exact H16|].
      intros z Hz. rewrite Hsame in Hz. apply Hopen in Hz as [Hz|Hz]; auto.
    + unfold bind at 1. unfold call at 1.
      specialize (IH (ret (drv h1 _open_unit [])) (opened ++ [temp_handle])
                     (h1 ++ [{| ev_sym := _open_unit; ev_args := [];
                                ev_resp := drv h1 _open_unit [] |}])
                     (before ++ [temp_handle])).
      destruct (search_serial fuel self serial (ret (drv h1 _open_unit []))
                  (opened ++ [temp_handle]) drv
                  (h1 ++ [{| ev_sym := _open_unit; ev_args := [];
                             ev_resp := drv h1 _open_unit [] |}]))
        as [[[[handle opened']|]|e] h'].
      * destruct IH as (new & -> & Hnew & Hhandle & Hin).
        { intros z Hz. apply open_call_handles in Hz as [Hz|Hz]; [|auto].
          rewrite Hsame in Hz. left. apply in_or_app.
          apply Hopen in Hz as [Hz|[-> _]]; [left; exact Hz|right; left; reflexivity]. }
        { apply drv_int16. }
        exists (temp_handle :: new). split; [rewrite <- app_assoc; reflexivity|].
        split; [constructor; assumption|]. split; [exact Hhandle|].
        intros z Hz. apply Hin in Hz as [Hz|[Hz|Hz]]; [|right; left; right; exact Hz|auto].
        apply in_app_or in Hz as [Hz|[<-|[]]]; [left; exact Hz|right; left; left; reflexivity].
      * exact I.
      * apply IH; [|apply drv_int16].
        intros z Hz. apply open_call_handles in Hz as [Hz|Hz]; [|auto].
        rewrite Hsame in Hz. left. apply in_or_app.
        apply Hopen in Hz as [Hz|[-> _]]; [left; exact Hz|right; left; reflexivity].
  - exists []. split; [rewrite app_nil_r; reflexivity|]. split; [constructor|].
    split; [unfold int16; lia|].
    intros z Hz. apply Hopen in Hz as [Hz|[_ Hz]]; [auto|lia].
Qed.

Lemma close_all_raises (handles : list Z) :
  forall h e h', close_all self handles drv h = (Raise e, h') -> is_DeviceNotFoundError e = false.
Proof.
  induction handles as [|handle handles IH]; intros h e h'; [discriminate|].
  cbn [close_all]. unfold bind at 1. unfold _python_close_unit, bind, argtypes_of.
  destruct (argtypes self _close_unit); [|intros [= <- _]; reflexivity].
  cbn. apply IH.
Qed.

(** On a driver whose [open_unit] takes no parameter: the units opened while
    looking for [serial] are closed again, the one returned apart. *)
Lemma open_specific_unit_spec (fuel : nat) (resolution : option Z) (h : history)
    (tys : list ctype) :
  argtypes self _open_unit = Some tys ->
  length tys <> 2%nat -> length tys <> 3%nat ->
  match _python_open_specific_unit fuel self serial resolution drv h with
  | (Ok (Done (handle, status)), h') =>
      status = None /\ int16 handle /\
      forall z, In z (open_handles h') -> In z (open_handles h) \/ (z = handle /\ 0 < handle)
  | (Ok OutOfFuel, _) => True
  | (Raise e, _) => is_DeviceNotFoundError e = false
  end.
Proof.
  intros Hty H2 H3. unfold _python_open_specific_unit.
  unfold bind at 1. unfold argtypes_of. rewrite Hty. unfold ret_ at 1.
  apply Nat.eqb_neq in H2, H3. rewrite H2, H3.
  unfold bind at 1. unfold call at 1. unfold bind at 1.
  pose proof (search_serial_spec fuel (ret (drv h _open_unit [])) []
                (h ++ [{| ev_sym := _open_unit; ev_args := []; ev_resp := drv h _open_unit [] |}])
                (open_handles h)) as Hsearch.
  destruct (search_serial fuel self serial (ret (drv h _open_unit [])) [] drv
              (h ++ [{| ev_sym := _open_unit; ev_args := []; ev_resp := drv h _open_unit [] |}]))
    as [[[[handle opened]|]|e] h1].
  - destruct Hsearch as (new & Hnew & H16 & Hhandle & Hin).
    { intros z Hz. apply open_call_handles in Hz. exact Hz. }
    { apply drv_int16. }
    cbn in Hnew. subst opened. unfold bind, ret_.
    pose proof (close_all_spec self drv new h1) as Hclose.
    pose proof (close_all_raises new h1) as Hraise.
    destruct (close_all self new drv h1) as [[[]|e] h2].
    + split; [reflexivity|]. split; [exact Hhandle|]. intros z Hz.
      destruct (Hclose h2 eq_refl z Hz) as [Hz1 Hnot].
      apply Hin in Hz1 as [Hz1|[Hz1|Hz1]]; [auto| |auto].
      exfalso. apply Hnot. apply in_map_iff. exists z. split; [|exact Hz1].
      apply wrap_of_int16. rewrite List.Forall_forall in H16. apply H16. exact Hz1.
    + eapply Hraise. reflexivity.
  - exact I.
  - apply Hsearch; [|apply drv_int16].
    intros z Hz. apply open_call_handles in Hz. exact Hz.
Qed.

End OpenBySerial.

(** X16: opening a unit by its serial number on a driver whose [open_unit]
    takes no parameter and returns 16-bit handles.  When [open_unit] returns,
    every handle open afterwards was open before or is the handle of the
    device returned; when it raises DeviceNotFoundError, every handle open
    afterwards was open before: the units tried on the way have been
    closed. *)
Theorem open_unit_by_serial_closes_the_other_units
    (fuel : nat) (self : Library) (serial : string) (resolution : option Z)
    (drv : native_driver) (h : history) (tys : list ctype) :
  argtypes self _open_unit = Some tys ->
  length tys <> 2%nat -> length tys <> 3%nat ->
  (forall h0, int16 (ret (drv h0 _open_unit []))) ->
  serial <> EmptyString ->
  match open_unit fuel self (Some serial) resolution drv h with
  | (Ok (Done device), h') =>
      forall z, In z (open_handles h') -> In z (open_handles h) \/ z = handle device
  | (Ok OutOfFuel, _) => True
  | (Raise e, h') =>
      is_DeviceNotFoundError e = true ->
      forall z, In z (open_handles h') -> In z (open_handles h)
  end.
Proof.
  intros Hty H2 H3 H16 _. unfold open_unit. unfold bind.
  pose proof (open_specific_unit_spec self drv serial H16 fuel resolution h tys Hty H2 H3)
    as Hspec.
  destruct (_python_open_specific_unit fuel self serial resolution drv h)
    as [[[[handle status]|]|e] h1].
  - destruct Hspec as (-> & _ & Hin). destruct (Z.ltb_spec handle 1) as [Hlt|Hge]; cbn.
    + intros _ z Hz. apply Hin in Hz as [Hz|[_ Hz]]; [exact Hz|lia].
    + intros z Hz. apply Hin in Hz as [Hz|[Hz _]]; auto.
  - exact I.
  - intros Hdnf. congruence.
Qed.

Lemma legacy_driver_int16 (units : nat) (serial_of : Z -> string) (h : history)
    (args : list carg) :
  int16 (ret (legacy_driver units serial_of h _open_unit args)).
Proof.
  unfold legacy_driver, int16.
  destruct (length (open_handles h) <? units)%nat; cbn [ret]; [|lia].
  pose proof (Z.mod_pos_bound (count_opens h) 32767). lia.
Qed.

Lemma open_unit_by_serial_closes_the_other_units_witness :
  let serial_of := fun n => if n =? 3 then "GQ903" else "AB123" in
  exists device h',
    open_unit 5 legacy_library (Some "GQ903") None (legacy_driver 4 serial_of) []
    = (Ok (Done device), h') /\
    handle device = 3 /\
    forall z, In z (open_handles h') -> In z (open_handles []) \/ z = handle device.
Proof.
  intros serial_of. eexists _, _. split; [vm_compute; reflexivity|].
  split; [reflexivity|].
  exact (open_unit_by_serial_closes_the_other_units 5 legacy_library "GQ903" None
           (legacy_driver 4 serial_of) [] [] eq_refl ltac:(discriminate)
           ltac:(discriminate) (fun h0 => legacy_driver_int16 4 serial_of h0 [])
           ltac:(discriminate)).
Defined.

(** ** [get_values] on the current drivers *)

Section GetValuesCurrent.

Variables (self : Library) (drv : native_driver).

Lemma add_digital_ports_pure (prefix : string) (ports : list (string * Z)) :
  forall channels h, snd (add_digital_ports prefix ports channels drv h) = h.
Proof.
  induction ports as [|[digital_port value] ports IH]; intros channels h; [reflexivity|].
  cbn [add_digital_ports]. destruct (String.prefix prefix digital_port); [|apply IH].
  unfold bind, last_digit. destruct (last_char digital_port) as [c|]; [|reflexivity].
  destruct (is_digit c); [|reflexivity]. cbn. apply IH.
Qed.

(** The registration loop calls [set_data_buffer] once per channel and goes
    on only while the driver answers PICO_OK. *)
Lemma register_buffers_spec (handle : Z) (a : get_values_args)
    (available_channels : gmap (string + Z) Z) (ok : Z) (keys : list (string + Z)) :
  PICO_STATUS self !! "PICO_OK" = Some ok ->
  forall h h',
    register_buffers self handle a available_channels keys drv h = (Ok tt, h') ->
    exists buffers,
      h' = h ++ buffers /\ length buffers = length keys /\
      Forall (fun e => ev_sym e = _set_data_buffer /\ ret (ev_resp e) = ok) buffers.
Proof.
  intros Hok. induction keys as [|channel keys IH]; intros h h' Hrun.
  - injection Hrun as <-. exists []. rewrite app_nil_r. repeat split. constructor.
  - cbn [register_buffers] in Hrun.
    apply bind_run in Hrun as (channel_id & h1 & Hch & Hrun).
    assert (h1 = h) as ->.
    { unfold channel_item in Hch. destruct (available_channels !! channel); [|discriminate].
      injection Hch as _ <-. reflexivity. }
    apply bind_run in Hrun as (none & h1 & Hnone & Hrun).
    assert (h1 = h) as ->.
    { unfold getitem in Hnone. destruct (PICO_RATIO_MODE self !! "NONE"); [|discriminate].
      injection Hnone as _ <-. reflexivity. }
    apply bind_run in Hrun as (tys & h1 & Htys & Hrun).
    assert (h1 = h) as ->.
    { unfold argtypes_of in Htys. destruct (argtypes self _set_data_buffer); [|discriminate].
      injection Htys as _ <-. reflexivity. }
    apply bind_run in Hrun as (converted_args & h1 & Hconv & Hrun).
    assert (h1 = h) as ->.
    { unfold lift in Hconv. injection Hconv as _ <-. reflexivity. }
    apply bind_run in Hrun as (r & h1 & Hcall & Hrun).
    unfold call in Hcall. injection Hcall as <- <-.
    apply bind_run in Hrun as ([] & h2 & Hstatus & Hrun).
    unfold status_check, bind, getitem in Hstatus. rewrite Hok in Hstatus.
    unfold ret_ at 1 in Hstatus.
    match type of Hstatus with
    | context [negb (?x =? ok)] => destruct (Z.eqb_spec x ok) as [Heq|Hne]
    end; [|unfold lift, raise in Hstatus; destruct (pico_tag self _); discriminate].
    injection Hstatus as <-.
    apply IH in Hrun as (buffers & -> & Hlen & Hall).
    eexists (_ :: buffers). split; [rewrite <- app_assoc; reflexivity|].
    split; [cbn; rewrite Hlen; reflexivity|].
    constructor; [|exact Hall]. split; [reflexivity|exact Heq].
Qed.

Lemma overflow_channels_pure (channels : gmap (string + Z) Z) (overflow : Z)
    (keys : list (string + Z)) :
  forall h, snd (overflow_channels channels overflow keys drv h) = h.
Proof.
  induction keys as [|channel keys IH]; intros h; [reflexivity|].
  cbn [overflow_channels]. unfold bind at 1. unfold channel_item.
  destruct (channels !! channel) as [index|]; [|reflexivity].
  unfold ret_ at 1. unfold bind at 1. unfold one_shifted_right.
  destruct (index <? 0); [reflexivity|]. unfold ret_ at 1. unfold bind at 1.
  specialize (IH h). destruct (overflow_channels channels overflow keys drv h) as [[w|e] h1];
    cbn [snd] in IH; subst h1; [|reflexivity].
  destruct (negb _); reflexivity.
Qed.

End GetValuesCurrent.

(** X18: on a driver of the current form ([get_values] with 7 parameters,
    [get_timebase] with a [c_uint32] second parameter), a [get_values] that
    returns has made one [set_data_buffer] call per distinct channel, each
    answered with PICO_OK, and after them exactly one [get_values] call, also
    answered with PICO_OK; it made no other native call. *)
Theorem get_values_registers_every_buffer_first
    (self : Library) (d : Device) (a : get_values_args) (drv : native_driver)
    (h h' : history) (tys : list ctype) (t0 : ctype) (rest : list ctype) (ok : Z)
    (v : values) :
  driver d = ident self ->
  argtypes self _get_values = Some tys -> length tys = 7%nat ->
  argtypes self _get_timebase = Some (t0 :: c_uint32 :: rest) ->
  PICO_STATUS self !! "PICO_OK" = Some ok ->
  get_values self (Obj_Device d) a drv h = (Ok v, h') ->
  exists buffers ev,
    h' = h ++ buffers ++ [ev] /\
    length buffers = length (results v) /\
    Forall (fun e => ev_sym e = _set_data_buffer /\ ret (ev_resp e) = ok) buffers /\
    ev_sym ev = _get_values /\ ret (ev_resp ev) = ok.
Proof.
  intros Hown Hty Hlen Htb Hok. unfold get_values, requires_device.
  rewrite bool_decide_eq_false_2 by (intros Hne; apply Hne; exact Hown).
  assert (Hshape16 : forall h0, values_shape self c_int16 drv h0 = (Ok false, h0)).
  { intros h0. unfold values_shape, bind, argtypes_of. rewrite Hty. unfold ret_ at 1.
    rewrite Hlen. cbn [Nat.eqb]. rewrite Htb. reflexivity. }
  assert (Hshape32 : forall h0, values_shape self c_uint32 drv h0 = (Ok true, h0)).
  { intros h0. unfold values_shape, bind, argtypes_of. rewrite Hty. unfold ret_ at 1.
    rewrite Hlen. cbn [Nat.eqb]. rewrite Htb. reflexivity. }
  intros Hrun.
  apply bind_run in Hrun as ([] & h0 & Halloc & Hrun).
  assert (h0 = h) as ->.
  { destruct (active_channels a); [injection Halloc as <-; reflexivity|].
    destruct (no_of_samples a <? 0); [discriminate|].
    injection Halloc as <-. reflexivity. }
  apply bind_run in Hrun as (legacy & h1 & Hlegacy & Hrun).
  rewrite Hshape16 in Hlegacy. injection Hlegacy as <- <-.
  apply bind_run in Hrun as ([[channels r] overflow] & h2 & Hstate & Hrun).
  apply bind_run in Hstate as (current & h1 & Hcurrent & Hstate).
  rewrite Hshape32 in Hcurrent. injection Hcurrent as <- <-.
  apply bind_run in Hstate as (available_channels & h1 & Havail & Hstate).
  assert (h1 = h) as ->.
  { destruct (nonempty_table self (upper (name self) +:+ "_DIGITAL_PORT")) as [ports|].
    - pose proof (add_digital_ports_pure drv (upper (name self) +:+ "_DIGITAL_PORT") ports
                    (PICO_CHANNEL self) h) as Hpure.
      rewrite Havail in Hpure. exact Hpure.
    - injection Havail as _ <-. reflexivity. }
  apply bind_run in Hstate as ([] & h1 & Hreg & Hstate).
  apply (register_buffers_spec self drv _ _ _ ok _ Hok) in Hreg as (buffers & -> & Hbuffers & Hall).
  apply bind_run in Hstate as (none & h1 & Hnone & Hstate).
  assert (h1 = h ++ buffers) as ->.
  { unfold getitem in Hnone. destruct (PICO_RATIO_MODE self !! "NONE"); [|discriminate].
    injection Hnone as _ <-. reflexivity. }
  apply bind_run in Hstate as (tys' & h1 & Htys & Hstate).
  unfold argtypes_of in Htys. rewrite Hty in Htys. injection Htys as <- <-.
  apply bind_run in Hstate as (converted_args & h1 & Hconv & Hstate).
  unfold lift in Hconv. injection Hconv as Hconv <-.
  apply bind_run in Hstate as (r' & h1 & Hcall & Hstate).
  unfold call in Hcall. injection Hcall as <- <-.
  apply bind_run in Hstate as ([] & h2' & Hstatus & Hstate).
  unfold status_check, bind, getitem in Hstatus. rewrite Hok in Hstatus.
  unfold ret_ at 1 in Hstatus.
  match type of Hstatus with
  | context [negb (?x =? ok)] => destruct (Z.eqb_spec x ok) as [Heq|Hne]
  end; [|unfold lift, raise in Hstatus; destruct (pico_tag self _); discriminate].
  injection Hstatus as <-. injection Hstate as <- <- <- <-.
  apply bind_run in Hrun as (warning & h3 & Hwarn & Hrun).
  assert (Hh3 : h3 = (h ++ buffers) ++
                       [{| ev_sym := _get_values;
                           ev_args := converted_args;
                           ev_resp := drv (h ++ buffers) _get_values converted_args |}]).
  { destruct (negb _) in Hwarn.
    - match type of Hwarn with
      | overflow_channels ?c ?o ?k drv ?h0 = _ =>
          pose proof (overflow_channels_pure drv c o k h0) as Hpure
      end.
      rewrite Hwarn in Hpure. exact Hpure.
    - injection Hwarn as _ <-. reflexivity. }
  subst h3. unfold ret_ in Hrun. injection Hrun as <- <-.
  eexists buffers, _. split; [rewrite <- app_assoc; reflexivity|].
  cbn [results ev_sym ev_resp]. rewrite length_map.
  split; [exact Hbuffers|]. split; [exact Hall|]. split; [reflexivity|exact Heq].
Qed.

Lemma get_values_registers_every_buffer_first_witness :
  exists v h' buffers ev,
    get_values ps4000a (Obj_Device own_device)
      {| active_channels := [inl "A"; inl "C"]; no_of_samples := 4; gv_segment_index := 0 |}
      (overflowing 0) [] = (Ok v, h') /\
    h' = [] ++ buffers ++ [ev] /\
    length buffers = length (results v) /\
    Forall (fun e => ev_sym e = _set_data_buffer /\ ret (ev_resp e) = 0) buffers /\
    ev_sym ev = _get_values /\ ret (ev_resp ev) = 0.
Proof.
  eexists _, _.
  assert (Hrun : get_values ps4000a (Obj_Device own_device)
                   {| active_channels := [inl "A"; inl "C"]; no_of_samples := 4;
                      gv_segment_index := 0 |} (overflowing 0) [] = (_, _))
    by (vm_compute; reflexivity).
  destruct (get_values_registers_every_buffer_first ps4000a own_device _ (overflowing 0) [] _
              [c_int16; c_uint32; c_void_p; c_uint32; c_int32; c_uint32; c_void_p]
              c_int16 [c_int32; c_void_p; c_void_p; c_uint32] 0 _
              eq_refl eq_refl eq_refl eq_refl eq_refl Hrun) as (buffers & ev & H).
  exists buffers, ev. split; [exact Hrun|exact H].
Defined.

Section DigitalPorts.

Variables (drv : native_driver) (prefix : string).

Lemma last_digit_run (digital_port : string) (h : history) (n : Z) (h' : history) :
  last_digit digital_port drv h = (Ok n, h') ->
  h' = h /\ exists c, last_char digital_port = Some c /\ n = Z.of_nat (nat_of_ascii c) - 48.
Proof.
  unfold last_digit. destruct (last_char digital_port) as [c|]; [|discriminate].
  destruct (is_digit c); [|discriminate]. intros [= <- <-]. split; [reflexivity|].
  exists c. split; reflexivity.
Qed.

Lemma digit_injective (c c' : ascii) :
  Z.of_nat (nat_of_ascii c) - 48 = Z.of_nat (nat_of_ascii c') - 48 -> c = c'.
Proof.
  intros H. assert (Hn : nat_of_ascii c = nat_of_ascii c') by lia.
  rewrite <- (ascii_nat_embedding c), <- (ascii_nat_embedding c'), Hn. reflexivity.
Qed.

(** The loop leaves the channels known by name as they are. *)
Lemma add_digital_ports_names (ports : list (string * Z)) :
  forall channels channels' h h',
    add_digital_ports prefix ports channels drv h = (Ok channels', h') ->
    forall s : string, channels' !! (inl s : string + Z) = channels !! (inl s : string + Z).
Proof.
  induction ports as [|[digital_port value] ports IH]; intros channels channels' h h' Hrun s.
  - injection Hrun as <- _. reflexivity.
  - cbn [add_digital_ports] in Hrun. destruct (String.prefix prefix digital_port).
    + apply bind_run in Hrun as (n & h1 & _ & Hrun).
      rewrite (IH _ _ _ _ Hrun s). apply lookup_insert_ne. discriminate.
    + apply (IH _ _ _ _ Hrun s).
Qed.

(** A number is left as it was or holds the value of a port ending in it. *)
Lemma add_digital_ports_numbers (ports : list (string * Z)) :
  forall channels channels' h h',
    add_digital_ports prefix ports channels drv h = (Ok channels', h') ->
    forall n : Z,
      channels' !! (inr n : string + Z) = channels !! (inr n : string + Z) \/
      exists port value c,
        In (port, value) ports /\ String.prefix prefix port = true /\
        last_char port = Some c /\ n = Z.of_nat (nat_of_ascii c) - 48 /\
        channels' !! (inr n : string + Z) = Some value.
Proof.
  induction ports as [|[digital_port value] ports IH]; intros channels channels' h h' Hrun n.
  - injection Hrun as <- _. left. reflexivity.
  - cbn [add_digital_ports] in Hrun. destruct (String.prefix prefix digital_port) eqn:Hprefix.
    + apply bind_run in Hrun as (n0 & h1 & Hdigit & Hrun).
      apply last_digit_run in Hdigit as (-> & c & Hlast & ->).
      destruct (IH _ _ _ _ Hrun n) as [Hsame|(port & value' & c' & Hin & Hp & Hl & Hn & Hv)].
      * destruct (decide (n = Z.of_nat (nat_of_ascii c) - 48)) as [->|Hne].
        -- right. exists digital_port, value, c. rewrite Hsame, lookup_insert_eq.
           repeat split; auto. left. reflexivity.
        -- left. rewrite Hsame. apply lookup_insert_ne. congruence.
      * right. exists port, value', c'. repeat split; auto. right. exact Hin.
    + destruct (IH _ _ _ _ Hrun n) as [Hsame|(port & value' & c' & Hin & Hp & Hl & Hn & Hv)].
      * left. exact Hsame.
      * right. exists port, value', c'. repeat split; auto. right. exact Hin.
Qed.

(** A port whose final digit no port of another value shares is found under
    that digit. *)
Lemma add_digital_ports_entry (ports : list (string * Z)) :
  forall channels channels' h h',
    add_digital_ports prefix ports channels drv h = (Ok channels', h') ->
    forall port value c,
      In (port, value) ports -> String.prefix prefix port = true ->
      last_char port = Some c ->
      (forall port' value',
         In (port', value') ports -> String.prefix prefix port' = true ->
         last_char port' = Some c -> value' = value) ->
      channels' !! (inr (Z.of_nat (nat_of_ascii c) - 48) : string + Z) = Some value.
Proof.
  induction ports as [|[digital_port value0] ports IH];
    intros channels channels' h h' Hrun port value c Hin Hprefix Hlast Hunique; [destruct Hin|].
  cbn [add_digital_ports] in Hrun.
  destruct Hin as [Heq|Hin].
  - injection Heq as -> ->. rewrite Hprefix in Hrun.
    apply bind_run in Hrun as (n0 & h1 & Hdigit & Hrun).
    apply last_digit_run in Hdigit as (-> & c0 & Hlast0 & ->).
    assert (c0 = c) as -> by congruence.
    destruct (add_digital_ports_numbers _ _ _ _ _ Hrun (Z.of_nat (nat_of_ascii c) - 48))
      as [Hsame|(port' & value' & c' & Hin' & Hp' & Hl' & Hn' & Hv')].
    + rewrite Hsame. apply lookup_insert_eq.
    + apply digit_injective in Hn'. subst c'. rewrite Hv'. f_equal.
      apply (Hunique port' value'); auto. right. exact Hin'.
  - assert (Hunique' : forall port' value',
               In (port', value') ports -> String.prefix prefix port' = true ->
               last_char port' = Some c -> value' = value).
    { intros port' value' Hin'. apply Hunique. right. exact Hin'. }
    destruct (String.prefix prefix digital_port).
    + apply bind_run in Hrun as (n0 & h1 & _ & Hrun).
      apply (IH _ _ _ _ Hrun port value c); assumption.
    + apply (IH _ _ _ _ Hrun port value c); assumption.
Qed.

End DigitalPorts.

(** X19: [get_values] writes into the library's own channel table.  On a
    driver of the current form with a table of digital ports, after a
    [get_values] that returns, [PICO_CHANNEL] still maps every channel name as
    before, and it maps the final digit of each port named
    [<NAME>_DIGITAL_PORT...] to that port's identifier (when no port of
    another identifier ends in the same digit). *)
Theorem get_values_adds_the_digital_ports_to_PICO_CHANNEL
    (self : Library) (d : Device) (a : get_values_args) (drv : native_driver)
    (h : history) (tys : list ctype) (t0 : ctype) (rest : list ctype)
    (ports : list (string * Z)) (v : values) :
  driver d = ident self ->
  argtypes self _get_values = Some tys -> length tys = 7%nat ->
  argtypes self _get_timebase = Some (t0 :: c_uint32 :: rest) ->
  tables self !! (upper (name self) +:+ "_DIGITAL_PORT") = Some ports ->
  fst (get_values self (Obj_Device d) a drv h) = Ok v ->
  (forall s : string,
     channels_after v !! (inl s : string + Z) = PICO_CHANNEL self !! (inl s : string + Z)) /\
  forall port value c,
    In (port, value) ports ->
    String.prefix (upper (name self) +:+ "_DIGITAL_PORT") port = true ->
    last_char port = Some c ->
    (forall port' value',
       In (port', value') ports ->
       String.prefix (upper (name self) +:+ "_DIGITAL_PORT") port' = true ->
       last_char port' = Some c -> value' = value) ->
    channels_after v !! (inr (Z.of_nat (nat_of_ascii c) - 48) : string + Z) = Some value.
Proof.
  intros Hown Hty Hlen Htb Htable. unfold get_values, requires_device.
  rewrite bool_decide_eq_false_2 by (intros Hne; apply Hne; exact Hown).
  assert (Hshape16 : forall h0, values_shape self c_int16 drv h0 = (Ok false, h0)).
  { intros h0. unfold values_shape, bind, argtypes_of. rewrite Hty. unfold ret_ at 1.
    rewrite Hlen. cbn [Nat.eqb]. rewrite Htb. reflexivity. }
  assert (Hshape32 : forall h0, values_shape self c_uint32 drv h0 = (Ok true, h0)).
  { intros h0. unfold values_shape, bind, argtypes_of. rewrite Hty. unfold ret_ at 1.
    rewrite Hlen. cbn [Nat.eqb]. rewrite Htb. reflexivity. }
  intros Hrun.
  apply bind_Ok in Hrun as (allocated & h0 & _ & Hrun).
  apply bind_Ok in Hrun as (legacy & h1 & Hlegacy & Hrun).
  rewrite Hshape16 in Hlegacy. injection Hlegacy as <- <-.
  apply bind_Ok in Hrun as ([[channels r] overflow] & h2 & Hstate & Hrun).
  apply bind_run in Hstate as (current & h1 & Hcurrent & Hstate).
  rewrite Hshape32 in Hcurrent. injection Hcurrent as <- <-.
  apply bind_run in Hstate as (available_channels & h1 & Havail & Hstate).
  apply bind_run in Hstate as ([] & h3 & _ & Hstate).
  apply bind_run in Hstate as (none & h4 & _ & Hstate).
  apply bind_run in Hstate as (tys' & h5 & _ & Hstate).
  apply bind_run in Hstate as (converted_args & h5' & _ & Hstate).
  apply bind_run in Hstate as (r' & h6 & _ & Hstate).
  apply bind_run in Hstate as ([] & h7 & _ & Hstate).
  injection Hstate as <- _ _ _.
  apply bind_Ok in Hrun as (warning & h8 & _ & Hrun).
  cbn in Hrun. injection Hrun as <-. cbn [channels_after].
  unfold nonempty_table in Havail. rewrite Htable in Havail.
  destruct ports as [|entry ports'].
  - injection Havail as <- _. split; [reflexivity|]. intros port value c [].
  - split.
    + intros s. eapply add_digital_ports_names. exact Havail.
    + intros port value c. eapply add_digital_ports_entry. exact Havail.
Qed.

Lemma get_values_adds_the_digital_ports_to_PICO_CHANNEL_witness :
  exists v,
    fst (get_values mixed_signal (Obj_Device own_device)
           {| active_channels := [inl "A"; inr 1]; no_of_samples := 4; gv_segment_index := 0 |}
           (overflowing 0) []) = Ok v /\
    PICO_CHANNEL mixed_signal !! (inr 1 : string + Z) = None /\
    channels_after v !! (inr 1 : string + Z) = Some 129.
Proof.
  eexists. split; [vm_compute; reflexivity|]. split; [reflexivity|].
  refine (proj2 (get_values_adds_the_digital_ports_to_PICO_CHANNEL mixed_signal own_device
                   {| active_channels := [inl "A"; inr 1]; no_of_samples := 4;
                      gv_segment_index := 0 |} (overflowing 0) []
                   [c_int16; c_uint32; c_void_p; c_uint32; c_int32; c_uint32; c_void_p]
                   c_int16 [c_int32; c_void_p; c_void_p; c_uint32]
                   [("PS4000A_DIGITAL_PORT0", 128); ("PS4000A_DIGITAL_PORT1", 129)] _
                   eq_refl eq_refl eq_refl eq_refl eq_refl _)
                "PS4000A_DIGITAL_PORT1" 129 "1"%char _ eq_refl eq_refl _).
  - vm_compute. reflexivity.
  - right. left. reflexivity.
  - intros port' value' [Heq|[Heq|[]]] _ Hlast; injection Heq as <- <-;
      [discriminate|reflexivity].
Defined.

(** ** The names [make_symbol] binds *)

Section MakeSymbol.

Lemma lower_char_not_upper (c : ascii) :
  (nat_of_ascii c < 128)%nat -> is_upper (lower_char c) = false.
Proof.
  intros Hc. unfold lower_char. destruct (is_upper c) eqn:Hup; [|exact Hup].
  unfold is_upper in *. apply andb_true_iff in Hup as [Hlo Hhi].
  apply Nat.leb_le in Hlo, Hhi.
  rewrite nat_ascii_embedding by lia.
  apply andb_false_iff. right. apply Nat.leb_gt. lia.
Qed.

Lemma prefix_head (a b : ascii) (s : string) :
  String.prefix (String a EmptyString) (String b s) = true -> a = b.
Proof. cbn. destruct (Ascii.ascii_dec a b); [auto|discriminate]. Qed.

Lemma underscored_no_upper (s : string) :
  is_ascii s = true -> all_chars (fun c => negb (is_upper c)) (underscored s) = true.
Proof.
  induction s as [|c s IH]; cbn; [reflexivity|].
  intros H. apply andb_true_iff in H as [Hc Hs]. apply Nat.leb_le in Hc.
  destruct (is_upper c) eqn:Hup; cbn.
  - rewrite (lower_char_not_upper c) by lia. cbn. apply IH. exact Hs.
  - rewrite Hup. cbn. apply IH. exact Hs.
Qed.

Lemma lstrip_is_ascii (s : string) : is_ascii s = true -> is_ascii (lstrip_underscores s) = true.
Proof.
  induction s as [|c s IH]; cbn; [reflexivity|].
  intros H. destruct (is_underscore c); [|exact H].
  apply andb_true_iff in H as [_ Hs]. apply IH. exact Hs.
Qed.

Lemma lower_fixed (s : string) :
  lower s = s <-> all_chars (fun c => negb (is_upper c)) s = true.
Proof.
  induction s as [|c s IH]; cbn; [tauto|].
  rewrite andb_true_iff, <- IH. unfold lower_char.
  destruct (is_upper c) eqn:Hup; cbn.
  - split; [|intros [? _]; discriminate].
    intros [= Hc _]. exfalso.
    assert (Hn : nat_of_ascii (ascii_of_nat (nat_of_ascii c + 32)) = nat_of_ascii c)
      by (rewrite Hc; reflexivity).
    unfold is_upper in Hup. apply andb_true_iff in Hup as [Hlo Hhi].
    apply Nat.leb_le in Hlo, Hhi. rewrite nat_ascii_embedding in Hn by lia. lia.
  - split; [intros [= ->]; auto|intros [_ ->]; reflexivity].
Qed.

End MakeSymbol.

(** X20: the names [make_symbol] binds, for a generic name written in ASCII.
    The generic name and the C name are always bound.  A third name is bound
    exactly when the generic name holds an upper-case letter; that name holds
    no upper-case letter, and it starts with an underscore exactly when the
    generic name, its leading underscores removed, starts with an upper-case
    letter. *)
Theorem make_symbol_binds_a_lower_case_alias (python_name c_name : string) :
  is_ascii python_name = true ->
  exists aliases,
    make_symbol_names python_name c_name = python_name :: c_name :: aliases /\
    (aliases = [] <-> all_chars (fun c => negb (is_upper c)) python_name = true) /\
    forall alias, In alias aliases ->
      aliases = [alias] /\
      all_chars (fun c => negb (is_upper c)) alias = true /\
      (String.prefix "_" alias = true <->
       exists c rest, lstrip_underscores python_name = String c rest /\ is_upper c = true).
Proof.
  intros Hascii. unfold make_symbol_names. cbn [app].
  destruct (String.eqb_spec (lower python_name) python_name) as [Heq|Hne]; cbn [negb].
  - exists []. split; [reflexivity|]. split; [|intros alias []].
    split; [intros _; apply lower_fixed; exact Heq|reflexivity].
  - eexists. split; [reflexivity|]. split.
    + split; [discriminate|]. intros Hall. apply lower_fixed in Hall. contradiction.
    + intros alias [<-|[]]. split; [reflexivity|]. split.
      * apply underscored_no_upper, lstrip_is_ascii, Hascii.
      * assert (Hstrip : forall s, match lstrip_underscores s with
                                   | String c _ => is_underscore c = false
                                   | EmptyString => True
                                   end).
        { induction s as [|c s IH]; cbn; [exact I|].
          destruct (is_underscore c) eqn:Hu; [exact IH|exact Hu]. }
        specialize (Hstrip python_name).
        destruct (lstrip_underscores python_name) as [|c rest]; cbn [underscored].
        -- split; [discriminate|]. intros (c & rest & Hc & _). discriminate.
        -- destruct (is_upper c) eqn:Hup.
           ++ split; [|reflexivity]. intros _. exists c, rest. split; [reflexivity|exact Hup].
           ++ split.
              ** intros Hp. exfalso. apply prefix_head in Hp. subst c. discriminate.
              ** intros (c' & rest' & [= <- <-] & Hc'). congruence.
Qed.

Lemma make_symbol_binds_a_lower_case_alias_witness :
  exists aliases,
    make_symbol_names "_OpenUnit" "ps4000aOpenUnit" = "_OpenUnit" :: "ps4000aOpenUnit" :: aliases /\
    (aliases = [] <-> all_chars (fun c => negb (is_upper c)) "_OpenUnit" = true) /\
    forall alias, In alias aliases ->
      aliases = [alias] /\
      all_chars (fun c => negb (is_upper c)) alias = true /\
      (String.prefix "_" alias = true <->
       exists c rest, lstrip_underscores "_OpenUnit" = String c rest /\ is_upper c = true).
Proof. apply (make_symbol_binds_a_lower_case_alias "_OpenUnit" "ps4000aOpenUnit"). reflexivity. Defined.

(** The alias of two generic names: with an upper-case first letter the
    underscore is there, with a lower-case one it is not. *)
Example make_symbol_aliases :
  make_symbol_names "_OpenUnit" "ps4000aOpenUnit" = ["_OpenUnit"; "ps4000aOpenUnit"; "_open_unit"] /\
  make_symbol_names "_openUnit" "ps4000aOpenUnit" = ["_openUnit"; "ps4000aOpenUnit"; "open_unit"] /\
  make_symbol_names "_open_unit" "ps4000aOpenUnit" = ["_open_unit"; "ps4000aOpenUnit"].
Proof. repeat split. Qed.

(** ** Disabling a channel, and NaN arguments *)

Section SetChannelDisabled.

Variables (self : Library) (device : Device) (drv : native_driver).

(** One iteration of the loop with the channel disabled: the native call for
    range 0, [false] standing for a rejected range. *)
Lemma set_channel_loop_disabled_step (a : set_channel_args) (fuel : nat)
    (excluded : list Z) (h : history) :
  enabled a = false ->
  set_channel_loop (S fuel) self device a excluded drv h =
  match try_except
          (channel_id <- channel_item (PICO_CHANNEL self) (channel_name a) ;;
           coupling_id <- getitem (PICO_COUPLING self) (coupling a) ;;
           _python_set_channel self (handle device) channel_id 0 coupling_id 0
                               (analog_offset a) ;;;
           ret_ true)
          is_ValidRangeEnumValueNotValidForThisDevice
          (ret_ false) drv h with
  | (Ok true, h') => (Ok (Done None), h')
  | (Ok false, h') => set_channel_loop fuel self device a (excluded ++ [0]) drv h'
  | (Raise e, h') => (Raise e, h')
  end.
Proof.
  intros Hen. cbn [set_channel_loop]. rewrite Hen.
  unfold bind at 1. unfold ret_ at 1. cbv beta iota. unfold bind at 1.
  destruct (try_except _ _ _ drv h) as [[[]|e] h']; reflexivity.
Qed.

Lemma set_channel_loop_disabled (a b : set_channel_args) (fuel : nat) :
  enabled a = false -> enabled b = false ->
  channel_name b = channel_name a -> coupling b = coupling a ->
  analog_offset b = analog_offset a ->
  forall excluded h,
    set_channel_loop fuel self device b excluded drv h
    = set_channel_loop fuel self device a excluded drv h /\
    forall max_voltage,
      fst (set_channel_loop fuel self device a excluded drv h) = Ok (Done max_voltage) ->
      max_voltage = None.
Proof.
  intros Ha Hb Hname Hcoupling Hoffset. induction fuel as [|fuel IH]; intros excluded h.
  - split; [reflexivity|discriminate].
  - rewrite !set_channel_loop_disabled_step by assumption.
    rewrite Hname, Hcoupling, Hoffset.
    destruct (try_except _ _ _ drv h) as [[[]|e] h'].
    + split; [reflexivity|]. intros max_voltage [= <-]. reflexivity.
    + apply IH.
    + split; [reflexivity|discriminate].
Qed.

End SetChannelDisabled.

(** X21: disabling a channel does not look at the requested peak.  With
    [enabled=False], two calls of [set_channel] that differ only in
    [range_peak] run alike, and a call that returns returns [None]. *)
Theorem set_channel_disabled_ignores_the_peak
    (fuel : nat) (self : Library) (device : pyobj) (a b : set_channel_args)
    (drv : native_driver) (h : history) :
  enabled a = false -> enabled b = false ->
  channel_name b = channel_name a -> coupling b = coupling a ->
  analog_offset b = analog_offset a ->
  set_channel fuel self device b drv h = set_channel fuel self device a drv h /\
  forall max_voltage,
    fst (set_channel fuel self device a drv h) = Ok (Done max_voltage) -> max_voltage = None.
Proof.
  intros Ha Hb Hname Hcoupling Hoffset. unfold set_channel, requires_device.
  destruct device as [d|other]; [|split; [reflexivity|discriminate]].
  destruct (bool_decide (driver d <> ident self)); [split; [reflexivity|discriminate]|].
  apply set_channel_loop_disabled; assumption.
Qed.

Lemma set_channel_disabled_ignores_the_peak_witness :
  let a := {| channel_name := inl "A"; enabled := false; coupling := "DC";
              range_peak := infinity; analog_offset := None |} in
  let b := {| channel_name := inl "A"; enabled := false; coupling := "DC";
              range_peak := 2%float; analog_offset := None |} in
  set_channel 3 ps4000a (Obj_Device own_device) b (answering 0) []
  = set_channel 3 ps4000a (Obj_Device own_device) a (answering 0) [] /\
  fst (set_channel 3 ps4000a (Obj_Device own_device) a (answering 0) []) = Ok (Done None).
Proof.
  intros a b.
  destruct (set_channel_disabled_ignores_the_peak 3 ps4000a (Obj_Device own_device) a b
              (answering 0) [] eq_refl eq_refl eq_refl eq_refl eq_refl) as [Hsame Hnone].
  split; [exact Hsame|]. vm_compute. reflexivity.
Defined.

(** X22: a NaN voltage is not refused: [voltage_to_logic_level] gives it the
    level of -5 V, since [max(-5, voltage)] keeps its first argument when the
    comparison with a NaN fails. *)
Theorem voltage_to_logic_level_of_nan (v : float) :
  PyFloat.is_nan v = true -> voltage_to_logic_level v = Some (-32767).
Proof.
  intros Hnan. rewrite logic_level_of_clamp, clamp_eq.
  assert (Hlt : PyFloat.lt (-5) v = false).
  { destruct (PyFloat.lt (-5) v) eqn:H; [|reflexivity].
    apply float_lt_spec in H as (_ & H & _). congruence. }
  rewrite Hlt. vm_compute. reflexivity.
Qed.

Lemma voltage_to_logic_level_of_nan_witness : voltage_to_logic_level nan = Some (-32767).
Proof. apply (voltage_to_logic_level_of_nan nan). reflexivity. Defined.

(** X23: a NaN peak finds no range: no maximum voltage compares as at least
    a NaN, so [_resolve_range] raises ArgumentOutOfRangeError for every range
    table and every exclusion tuple. *)
Theorem resolve_range_of_nan_peak
    (self : Library) (v : float) (E : list Z) (drv : native_driver) (h : history) :
  PyFloat.is_nan v = true ->
  _resolve_range self v E drv h =
  (Raise (ArgumentOutOfRangeError
            [Str (name self); Text " device doesn't support a range as wide as ";
             Flt v; Text "V"]), h).
Proof.
  intros Hnan. unfold _resolve_range.
  destruct (possibilities self v E) as [|first rest] eqn:Hp; [reflexivity|].
  exfalso.
  assert (Hin : In first (possibilities self v E)) by (rewrite Hp; left; reflexivity).
  apply possibilities_spec in Hin as [_ [Hge _]].
  apply float_ge_spec in Hge as (_ & Hv & _). congruence.
Qed.

Lemma resolve_range_of_nan_peak_witness :
  _resolve_range ps4000a nan [] (answering 0) [] =
  (Raise (ArgumentOutOfRangeError
            [Str (name ps4000a); Text " device doesn't support a range as wide as ";
             Flt nan; Text "V"]), []).
Proof. apply (resolve_range_of_nan_peak ps4000a nan [] (answering 0) []). reflexivity. Defined.

(** ** Opening and closing a unit *)

Section OpenClose.

Variables (self : Library) (drv : native_driver).
Hypothesis drv_int16 : forall h, int16 (ret (drv h _open_unit [])).

(** What a call of [open_unit] with the handle passed by reference leaves
    open. *)
Lemma open_by_ref_handles (h : history) (args : list carg) (z : Z) :
  passed_by_ref "chandle" args = true ->
  let r := drv h _open_unit args in
  In z (open_handles (h ++ [{| ev_sym := _open_unit; ev_args := args; ev_resp := r |}])) ->
  In z (open_handles h) \/
  (z = int_value 16 "chandle" 0 args r /\ 0 < int_value 16 "chandle" 0 args r).
Proof.
  intros Href r. rewrite open_handles_snoc. unfold open_step, opened_handle.
  cbn [ev_sym ev_args ev_resp]. rewrite Href.
  destruct (Z.ltb_spec (int_value 16 "chandle" 0 args r) 1) as [Hlt|Hge]; [auto|].
  destruct (in_tuple _ (open_handles h)); [auto|].
  intros [<-|Hin]; [right; split; [reflexivity|lia]|auto].
Qed.

(** The handle found by either way of opening is the only one left open. *)
Lemma open_found_spec (fuel : nat) (serial : option string) (resolution : option Z)
    (h : history) :
  match
    match serial with
    | None => (hs <- _python_open_any_unit self resolution ;; ret_ (Done hs)) drv h
    | Some serial => _python_open_specific_unit fuel self serial resolution drv h
    end
  with
  | (Ok (Done (handle, status)), h') =>
      int16 handle /\
      forall z, In z (open_handles h') -> In z (open_handles h) \/ (z = handle /\ 0 < handle)
  | (Ok OutOfFuel, _) => True
  | (Raise e, _) => is_DeviceNotFoundError e = false
  end.
Proof.
  assert (Hresolution :
    forall k : Z -> M (fueled (Z * option Z)),
      (forall r h0,
         match k r drv h0 with
         | (Ok (Done (handle, status)), h') =>
             int16 handle /\
             forall z, In z (open_handles h') ->
                       In z (open_handles h0) \/ (z = handle /\ 0 < handle)
         | (Ok OutOfFuel, _) => True
         | (Raise e, _) => is_DeviceNotFoundError e = false
         end) ->
      match
        (resolution <- match resolution with
                       | Some r => ret_ r
                       | None => match DEFAULT_RESOLUTION self with
                                 | Some r => ret_ r
                                 | None => raise (AttributeError [Text "DEFAULT_RESOLUTION"])
                                 end
                       end ;; k resolution) drv h
      with
      | (Ok (Done (handle, status)), h') =>
          int16 handle /\
          forall z, In z (open_handles h') -> In z (open_handles h) \/ (z = handle /\ 0 < handle)
      | (Ok OutOfFuel, _) => True
      | (Raise e, _) => is_DeviceNotFoundError e = false
      end).
  { intros k Hk. unfold bind at 1.
    destruct resolution as [r|]; [apply Hk|].
    destruct (DEFAULT_RESOLUTION self) as [r|]; [apply Hk|reflexivity]. }
  assert (Hcall : forall args h0,
            passed_by_ref "chandle" args = true ->
            match (r <- call _open_unit args ;;
                   ret_ (Done (int_value 16 "chandle" 0 args r, Some (ret r)))) drv h0 with
            | (Ok (Done (handle, status)), h') =>
                int16 handle /\
                forall z, In z (open_handles h') ->
                          In z (open_handles h0) \/ (z = handle /\ 0 < handle)
            | (Ok OutOfFuel, _) => True
            | (Raise e, _) => is_DeviceNotFoundError e = false
            end).
  { intros args h0 Href. unfold bind, call, ret_. split; [apply int_value_int16|].
    intros z. apply open_by_ref_handles. exact Href. }
  destruct serial as [serial|].
  - pose proof (open_specific_unit_spec self drv serial drv_int16 fuel resolution h) as Hzero.
    unfold _python_open_specific_unit in *. unfold bind at 1. unfold bind at 1 in Hzero.
    unfold argtypes_of in *.
    destruct (argtypes self _open_unit) as [tys|]; [|reflexivity].
    unfold ret_ at 1. unfold ret_ at 1 in Hzero.
    destruct (Nat.eqb_spec (length tys) 3) as [H3|H3].
    + apply Hresolution. intros r h0. apply Hcall. reflexivity.
    + destruct (Nat.eqb_spec (length tys) 2) as [H2|H2].
      * apply Hcall. reflexivity.
      * specialize (Hzero tys eq_refl H2 H3).
        destruct ((r <- call _open_unit [];;
                   found <- search_serial fuel self serial (ret r) [];;
                   match found with
                   | Done (handle, open_handles) =>
                       close_all self open_handles;;; ret_ (Done (handle, None))
                   | OutOfFuel => ret_ OutOfFuel
                   end) drv h) as [[[[handle status]|]|e] h']; [|exact I|exact Hzero].
        destruct Hzero as (_ & Hhandle & Hin). split; assumption.
  - unfold bind at 1.
    assert (Hany : match _python_open_any_unit self resolution drv h with
                   | (Ok (handle, status), h') =>
                       int16 handle /\
                       forall z, In z (open_handles h') ->
                                 In z (open_handles h) \/ (z = handle /\ 0 < handle)
                   | (Raise e, _) => is_DeviceNotFoundError e = false
                   end).
    { unfold _python_open_any_unit. unfold bind at 1. unfold argtypes_of.
      destruct (argtypes self _open_unit) as [tys|]; [|reflexivity].
      unfold ret_ at 1.
      destruct (length tys =? 3)%nat.
      - unfold bind at 1.
        destruct resolution as [r|]; [|destruct (DEFAULT_RESOLUTION self) as [r|]];
          try reflexivity;
          (unfold bind, call, ret_; split; [apply int_value_int16|];
           intros z; apply open_by_ref_handles; reflexivity).
      - destruct (length tys =? 2)%nat.
        + unfold bind, call, ret_. split; [apply int_value_int16|].
          intros z. apply open_by_ref_handles. reflexivity.
        + unfold bind, call, ret_. split; [apply drv_int16|].
          intros z. apply (open_call_handles drv h z). }
    destruct (_python_open_any_unit self resolution drv h) as [[[handle status]|e] h'];
      [exact Hany|exact Hany].
Qed.

End OpenClose.

(** X24: opening a unit and closing it again.  Against a driver whose
    parameterless [open_unit] returns 16-bit values, after an [open_unit] that returns a
    device (opened in any of the ways the library knows) and a [close_unit] of
    that device that returns, every handle open in the driver was open before
    the unit was opened. *)
Theorem open_then_close_leaves_no_handle_open
    (fuel : nat) (self : Library) (serial : option string) (resolution : option Z)
    (drv : native_driver) (h h1 h2 : history) (device : Device) :
  (forall h0, int16 (ret (drv h0 _open_unit []))) ->
  serial <> Some EmptyString ->
  open_unit fuel self serial resolution drv h = (Ok (Done device), h1) ->
  close_unit self (Obj_Device device) tt drv h1 = (Ok tt, h2) ->
  forall z, In z (open_handles h2) -> In z (open_handles h).
Proof.
  intros H16 _ Hopen Hclose z Hz.
  pose proof (open_found_spec self drv H16 fuel serial resolution h) as Hfound.
  unfold open_unit in Hopen. apply bind_run in Hopen as (found & h' & Hrun & Hopen).
  destruct found as [[found_handle status]|]; [|discriminate].
  assert (Hfound' : int16 found_handle /\
                    forall z, In z (open_handles h') ->
                              In z (open_handles h) \/ (z = found_handle /\ 0 < found_handle))
    by (destruct serial; rewrite Hrun in Hfound; exact Hfound).
  destruct Hfound' as [Hhandle Hin].
  destruct (found_handle <? 1);
    [apply bind_run in Hopen as (message & h0 & _ & Hopen); discriminate|].
  injection Hopen as <- <-.
  unfold close_unit, requires_device in Hclose. cbn [driver handle] in Hclose.
  rewrite bool_decide_eq_false_2 in Hclose by (intros Hne; apply Hne; reflexivity).
  apply bind_run in Hclose as (code & h3 & Hclose & Hret). injection Hret as <-.
  unfold _python_close_unit, bind, argtypes_of in Hclose.
  destruct (argtypes self _close_unit); [|discriminate].
  cbn in Hclose. injection Hclose as _ <-.
  rewrite open_handles_snoc in Hz. unfold open_step in Hz. cbn in Hz.
  apply filter_In in Hz as [Hz Hne].
  apply Hin in Hz as [Hz|[-> _]]; [exact Hz|].
  rewrite (wrap_of_int16 _ Hhandle), Z.eqb_refl in Hne. discriminate.
Qed.

Lemma open_then_close_leaves_no_handle_open_witness :
  exists device h1 h2,
    open_unit 0 ps4000a None None (simulated 1) [] = (Ok (Done device), h1) /\
    close_unit ps4000a (Obj_Device device) tt (simulated 1) h1 = (Ok tt, h2) /\
    forall z, In z (open_handles h2) -> In z (open_handles []).
Proof.
  eexists _, _, _. split; [vm_compute; reflexivity|]. split; [vm_compute; reflexivity|].
  refine (open_then_close_leaves_no_handle_open 0 ps4000a None None (simulated 1) [] _ _ _
            (fun h0 => simulated_int16 1 h0 []) _ _ _).
  - discriminate.
  - vm_compute. reflexivity.
  - vm_compute. reflexivity.
Defined.
